(** * Policy-mediated skill execution: capability checks, approval ledger,
      redacting audit log and skill runner.

    Shallow embedding of [backend/app/policies.py], [backend/app/audit.py]
    and [backend/app/skills.py].  Python code that touches the clock, the
    approval store, the file system, child processes or the audit file is
    written in a state-and-exception monad over an explicit [World]; every
    primitive records an [effect] in the world's trace, so that "no I/O
    happened" is a statement about that trace. *)

From Stdlib Require Import Ascii String ZArith.
From stdpp Require Import base strings list gmap pretty.

Set Warnings "-register-all".
Local Open Scope string_scope.
Local Open Scope Z_scope.

(* ------------------------------------------------------------------ *)
(** ** Python exceptions *)

(** The exception classes the modelled code can meet.  [SystemExit],
    [KeyboardInterrupt] and [CancelledError] derive from [BaseException]
    only; all the others derive from [Exception]. *)
Inductive exc_class :=
| FileNotFoundError | IsADirectoryError | NotADirectoryError
| FileExistsError | PermissionError
| TypeError | KeyError | ValueError | JSONDecodeError | RuntimeError
| SystemExit | KeyboardInterrupt | CancelledError.

Definition is_OSError (c : exc_class) : bool :=
  match c with
  | FileNotFoundError | IsADirectoryError | NotADirectoryError
  | FileExistsError | PermissionError => true
  | _ => false
  end.

Definition is_Exception (c : exc_class) : bool :=
  match c with
  | SystemExit | KeyboardInterrupt | CancelledError => false
  | _ => true
  end.

(** An exception object: its class and [str(exc)]. *)
Record exn := Exn { exc_type : exc_class; exc_msg : string }.

(** The result of running a piece of Python: a value or a raised exception. *)
Inductive outcome (A : Type) :=
| Returned (a : A)
| Raised (e : exn).
Arguments Returned {A} a.
Arguments Raised {A} e.

(* ------------------------------------------------------------------ *)
(** ** Python values and [json.dumps] *)

(** The values that flow through payloads and skill results: the JSON
    fragment of Python (dictionaries keyed by [str], as the code's
    [dict[str, Any]] annotations say, kept in insertion order) and
    [VObject], any other object, which [json.dumps] refuses.  Integers stand
    for numbers; strings are sequences of code points below 256. *)
Inductive pyvalue :=
| VNone
| VBool (b : bool)
| VInt (n : Z)
| VStr (s : string)
| VList (items : list pyvalue)
| VDict (entries : list (string * pyvalue))
| VObject (type_name : string).

Abbreviation pydict := (list (string * pyvalue)).

Section pyvalue_induction.
Variable P : pyvalue -> Prop.
Hypothesis HNone : P VNone.
Hypothesis HBool : forall b, P (VBool b).
Hypothesis HInt : forall n, P (VInt n).
Hypothesis HStr : forall s, P (VStr s).
Hypothesis HList : forall items, Forall P items -> P (VList items).
Hypothesis HDict :
  forall entries, Forall (fun kv => P (snd kv)) entries -> P (VDict entries).
Hypothesis HObject : forall t, P (VObject t).

Fixpoint pyvalue_rect' (v : pyvalue) : P v :=
  match v with
  | VNone => HNone
  | VBool b => HBool b
  | VInt n => HInt n
  | VStr s => HStr s
  | VList items =>
      HList items
        ((fix go (l : list pyvalue) : Forall P l :=
            match l with
            | [] => Forall_nil_2 P
            | x :: l' => Forall_cons_2 P x l' (pyvalue_rect' x) (go l')
            end) items)
  | VDict entries =>
      HDict entries
        ((fix go (l : pydict) : Forall (fun kv => P (snd kv)) l :=
            match l with
            | [] => Forall_nil_2 _
            | kv :: l' =>
                Forall_cons_2 (fun kv => P (snd kv)) kv l'
                  (pyvalue_rect' (snd kv)) (go l')
            end) entries)
  | VObject t => HObject t
  end.
End pyvalue_induction.

(** [d[key] = value] on an insertion-ordered dictionary: overwrite in place
    when the key is present, append at the end otherwise. *)
Fixpoint dict_set {V} (d : list (string * V)) (key : string) (value : V)
    : list (string * V) :=
  match d with
  | [] => [(key, value)]
  | (k, v) :: d' =>
      if bool_decide (k = key) then (k, value) :: d'
      else (k, v) :: dict_set d' key value
  end.

(** [d.get(key)]. *)
Fixpoint dict_get {V} (d : list (string * V)) (key : string) : option V :=
  match d with
  | [] => None
  | (k, v) :: d' => if bool_decide (k = key) then Some v else dict_get d' key
  end.

Definition dquote : ascii := "034"%char.
Definition backslash : ascii := "092"%char.

Definition hex_digit (n : N) : ascii :=
  ascii_of_N (if (n <? 10)%N then 48 + n else 87 + n)%N.

(** One character of a JSON string literal, as [json.dumps] writes it with
    its default [ensure_ascii=True]. *)
Definition json_escape_char (c : ascii) : string :=
  let n := N_of_ascii c in
  if (n =? 34)%N then String backslash (String dquote EmptyString)
  else if (n =? 92)%N then String backslash (String backslash EmptyString)
  else if (n =? 10)%N then String backslash "n"
  else if (n =? 13)%N then String backslash "r"
  else if (n =? 9)%N then String backslash "t"
  else if (n =? 8)%N then String backslash "b"
  else if (n =? 12)%N then String backslash "f"
  else if ((32 <=? n) && (n <=? 126))%N then String c EmptyString
  else String backslash
         ("u00" +:+ String (hex_digit (n / 16)) (String (hex_digit (n mod 16)) EmptyString)).

Fixpoint json_escape (s : string) : string :=
  match s with
  | EmptyString => EmptyString
  | String c s' => json_escape_char c +:+ json_escape s'
  end.

Definition json_string (s : string) : string :=
  String dquote (json_escape s +:+ String dquote EmptyString).

Definition not_serializable (t : string) : exn :=
  Exn TypeError ("Object of type " +:+ t +:+ " is not JSON serializable").

Section json_sequences.
(** The encoder of one element. *)
Variable dumps : pyvalue -> outcome string.

(** The elements of a list, separated by a comma and a space. *)
Fixpoint dumps_items (l : list pyvalue) (first : bool) : outcome string :=
  match l with
  | [] => Returned EmptyString
  | x :: l' =>
      match dumps x with
      | Raised e => Raised e
      | Returned sx =>
          match dumps_items l' false with
          | Raised e => Raised e
          | Returned rest =>
              Returned ((if first then EmptyString else ", ") +:+ sx +:+ rest)
          end
      end
  end.

(** The entries of a dictionary, in insertion order. *)
Fixpoint dumps_entries (l : list (string * pyvalue)) (first : bool)
    : outcome string :=
  match l with
  | [] => Returned EmptyString
  | (k, x) :: l' =>
      match dumps x with
      | Raised e => Raised e
      | Returned sx =>
          match dumps_entries l' false with
          | Raised e => Raised e
          | Returned rest =>
              Returned ((if first then EmptyString else ", ")
                        +:+ json_string k +:+ ": " +:+ sx +:+ rest)
          end
      end
  end.
End json_sequences.

(** [json.dumps(value)] with the default separators.  The encoder walks the
    value left to right and raises [TypeError] at the first object it cannot
    serialize. *)
Fixpoint json_dumps (v : pyvalue) : outcome string :=
  match v with
  | VNone => Returned "null"
  | VBool true => Returned "true"
  | VBool false => Returned "false"
  | VInt n => Returned (pretty n)
  | VStr s => Returned (json_string s)
  | VList items =>
      match dumps_items json_dumps items true with
      | Raised e => Raised e
      | Returned body => Returned ("[" +:+ body +:+ "]")
      end
  | VDict entries =>
      match dumps_entries json_dumps entries true with
      | Raised e => Raised e
      | Returned body => Returned ("{" +:+ body +:+ "}")
      end
  | VObject t => Raised (not_serializable t)
  end.

(* ------------------------------------------------------------------ *)
(** ** Time stamps *)

(** A time-zone-aware [datetime] is the number of microseconds since the
    epoch; [datetime.now(tz=timezone.utc)] reads the world's clock. *)
Abbreviation datetime := Z (only parsing).

Fixpoint zeros (n : nat) : string :=
  match n with
  | O => EmptyString
  | S n' => String "0" (zeros n')
  end.

(** The [{:02d}] and the like of [isoformat]: zeros in front, up to
    [width] characters. *)
Definition pad_left (width : nat) (s : string) : string :=
  zeros (width - String.length s) +:+ s.

Definition digits (width : nat) (n : Z) : string := pad_left width (pretty n).

(** [datetime.isoformat()] of an aware UTC datetime (proleptic Gregorian
    calendar; the fraction is printed only when it is not zero). *)
Definition isoformat (t : datetime) : string :=
  let days := t / 86400000000 in
  let us := t mod 86400000000 in
  let z := days + 719468 in
  let era := z / 146097 in
  let doe := z - era * 146097 in
  let yoe := (doe - doe / 1460 + doe / 36524 - doe / 146096) / 365 in
  let doy := doe - (365 * yoe + yoe / 4 - yoe / 100) in
  let mp := (5 * doy + 2) / 153 in
  let d := doy - (153 * mp + 2) / 5 + 1 in
  let m := if mp <? 10 then mp + 3 else mp - 9 in
  let y := yoe + era * 400 + (if m <=? 2 then 1 else 0) in
  let secs := us / 1000000 in
  let frac := us mod 1000000 in
  digits 4 y +:+ "-" +:+ digits 2 m +:+ "-" +:+ digits 2 d +:+ "T"
  +:+ digits 2 (secs / 3600) +:+ ":" +:+ digits 2 (secs / 60 mod 60)
  +:+ ":" +:+ digits 2 (secs mod 60)
  +:+ (if frac =? 0 then EmptyString else "." +:+ digits 6 frac)
  +:+ "+00:00".

(* ------------------------------------------------------------------ *)
(** ** Paths *)

(** A [pathlib] path: whether it has the root anchor, and its components. *)
Record PurePath := MkPath { anchored : bool; parts : list string }.

(** Split at every slash. *)
Fixpoint split_slash (cur : string) (s : string) : list string :=
  match s with
  | EmptyString => [String.rev cur]
  | String c s' =>
      if bool_decide (c = "/"%char) then String.rev cur :: split_slash EmptyString s'
      else split_slash (String c cur) s'
  end.

(** [Path(s)]: empty components and single dots are dropped when the string
    is parsed, double dots are kept. *)
Definition Path (s : string) : PurePath :=
  {| anchored := match s with String "/" _ => true | _ => false end;
     parts := filter (fun c => c <> EmptyString /\ c <> ".") (split_slash EmptyString s) |}.

(** [self.is_relative_to(other)] on two resolved (absolute) paths, given by
    their components below the root: [other] is [self] or one of its
    parents. *)
Fixpoint is_relative_to (self other : list string) {struct other} : bool :=
  match other, self with
  | [], _ => true
  | o :: other', s :: self' => bool_decide (s = o) && is_relative_to self' other'
  | _ :: _, [] => false
  end.

(** Resolution in a file system without symbolic links: the path is made
    absolute against the working directory and its double dots are folded. *)
Fixpoint fold_dots (acc : list string) (cs : list string) : list string :=
  match cs with
  | [] => rev acc
  | c :: cs' =>
      if bool_decide (c = "..") then fold_dots (tail acc) cs'
      else fold_dots (c :: acc) cs'
  end.

Definition posix_resolve (cwd : list string) (p : PurePath) : list string :=
  fold_dots (if anchored p then [] else rev cwd) (parts p).

(* ------------------------------------------------------------------ *)
(** ** Data model ([models.py], [policies.py]) *)

Record PermissionConfig := {
  tools_enabled : bool;
  file_read_allowlist : list string;
  file_write_allowlist : list string;
  terminal_enabled : bool;
  terminal_allowlist : list string;
  skills_enabled : list string;
  require_approval : bool }.

(** What [expires_at] can hold besides [None]: a time-zone-aware datetime,
    which is an instant, or a naive one, a wall-clock reading without an
    offset.  [ApprovalRequest] accepts both. *)
Inductive expiry := Aware (t : datetime) | Naive (wall : Z).

Record ApprovalRecord := { scope : string; expires_at : option expiry }.

Record ApprovalDecision := {
  allowed : bool;
  reason : string;
  decision_scope : string;
  requires_approval : bool }.

Record ToolResult := {
  success : bool;
  output : option string;
  error : option string;
  metadata : pydict }.

(** [decision.model_dump()]. *)
Definition model_dump (d : ApprovalDecision) : pyvalue :=
  VDict [("allowed", VBool (allowed d)); ("reason", VStr (reason d));
         ("scope", VStr (decision_scope d));
         ("requires_approval", VBool (requires_approval d))].

(* ------------------------------------------------------------------ *)
(** ** The world and the effect monad *)

Inductive node := File (content : string) | Dir.

(** What a primitive did.  Locations are resolved component lists. *)
Inductive effect :=
| ELedgerScan (scope : string)
| EReadText (p : list string)
| EExists (p : list string)
| EMkdir (p : list string)
| EWriteText (p : list string) (content : string)
| EReplace (src dst : list string)
| ESpawn (argv : list string)
| EAuditAppend (line : string)
| ERagIngest (paths : list string).

(** What running a command gives: exit code, standard output and error. *)
Record CompletedProcess := {
  returncode : Z; stdout : string; stderr : string }.

Record World := {
  clock : datetime;
  (** [ApprovalStore._records] of the one store shared by every engine *)
  records : list ApprovalRecord;
  (** [Path.resolve()] in the ambient file system *)
  resolve : PurePath -> list string;
  files : gmap (list string) node;
  (** [subprocess.run]: [inl] is a launch failure *)
  programs : list string -> exn + CompletedProcess;
  (** the lines of [audit_log.jsonl] *)
  audit_file : list string;
  (** dictionaries that are passed by reference *)
  heap : gmap nat pydict;
  trace : list effect }.

Definition M (A : Type) : Type := World -> outcome A * World.

#[global] Instance M_ret : MRet M := fun A a w => (Returned a, w).
#[global] Instance M_bind : MBind M := fun A B f m w =>
  match m w with
  | (Returned a, w') => f a w'
  | (Raised e, w') => (Raised e, w')
  end.

Definition raise {A} (e : exn) : M A := fun w => (Raised e, w).

(** [try: body  except <classes> as exc: handler]. *)
Definition try_except {A} (body : M A) (classes : exc_class -> bool)
    (handler : exn -> M A) : M A := fun w =>
  match body w with
  | (Raised e, w') => if classes (exc_type e) then handler e w' else (Raised e, w')
  | r => r
  end.

Definition emit (e : effect) : M unit := fun w =>
  (Returned tt,
   {| clock := clock w; records := records w; resolve := resolve w;
      files := files w; programs := programs w; audit_file := audit_file w;
      heap := heap w; trace := trace w ++ [e] |}).

Definition set_files (f : gmap (list string) node) : M unit := fun w =>
  (Returned tt,
   {| clock := clock w; records := records w; resolve := resolve w;
      files := f; programs := programs w; audit_file := audit_file w;
      heap := heap w; trace := trace w |}).

Definition set_audit_file (l : list string) : M unit := fun w =>
  (Returned tt,
   {| clock := clock w; records := records w; resolve := resolve w;
      files := files w; programs := programs w; audit_file := l;
      heap := heap w; trace := trace w |}).

Definition set_heap (h : gmap nat pydict) : M unit := fun w =>
  (Returned tt,
   {| clock := clock w; records := records w; resolve := resolve w;
      files := files w; programs := programs w; audit_file := audit_file w;
      heap := h; trace := trace w |}).

Definition set_records (r : list ApprovalRecord) : M unit := fun w =>
  (Returned tt,
   {| clock := clock w; records := r; resolve := resolve w;
      files := files w; programs := programs w; audit_file := audit_file w;
      heap := heap w; trace := trace w |}).

Definition read {A} (f : World -> A) : M A := fun w => (Returned (f w), w).

(** [datetime.now(tz=timezone.utc)]. *)
Definition datetime_now : M datetime := read clock.

(** [Path(s).resolve()].  Resolution looks at the directory structure only;
    it opens no file and is not recorded as an effect.  It is taken to
    succeed: a path on which it raises (one that holds a NUL byte, or runs
    through a loop of symbolic links) is outside the worlds described, and
    what is proved of a check on a file path is proved of the checks that
    return. *)
Definition path_resolve (p : PurePath) : M (list string) :=
  read (fun w => resolve w p).

(* ------------------------------------------------------------------ *)
(** ** [ApprovalStore] *)

(** [record.expires_at < now] with a naive left operand: [now] is aware. *)
Definition naive_comparison : exn :=
  Exn TypeError "can't compare offset-naive and offset-aware datetimes".

(** The loop of [is_approved]: skip records of another scope, skip records
    whose expiry lies before [now], return [True] at the first one left.
    The comparison raises on a naive expiry. *)
Fixpoint scan_records (rs : list ApprovalRecord) (now : datetime) (sc : string)
    : outcome bool :=
  match rs with
  | [] => Returned false
  | record :: rs' =>
      if negb (bool_decide (scope record = sc)) then scan_records rs' now sc
      else match expires_at record with
           | Some (Aware t) =>
               if t <? now then scan_records rs' now sc else Returned true
           | Some (Naive _) => Raised naive_comparison
           | None => Returned true
           end
  end.

Definition is_approved (sc : string) : M bool :=
  now ← datetime_now;
  rs ← read records;
  _ ← emit (ELedgerScan sc);
  match scan_records rs now sc with
  | Returned answer => mret answer
  | Raised e => raise e
  end.

(** [ApprovalStore.add]. *)
Definition add (sc : string) (expires : option expiry) : M unit :=
  rs ← read records;
  set_records (rs ++ [{| scope := sc; expires_at := expires |}]).

(* ------------------------------------------------------------------ *)
(** ** [PolicyEngine] *)

Record PolicyEngine := { config : PermissionConfig }.

Definition make_scope (prefix target : string) : string :=
  prefix +:+ ":" +:+ target.

(** The [for entry in allowlist] loop of [_check_path]. *)
Fixpoint path_allowlisted (resolved : list string) (allowlist : list string) : M bool :=
  match allowlist with
  | [] => mret false
  | entry :: rest =>
      e ← path_resolve (Path entry);
      if is_relative_to resolved e then mret true
      else path_allowlisted resolved rest
  end.

Definition _check_path (self : PolicyEngine) (path : string)
    (allowlist : list string) (scope_prefix : string) : M ApprovalDecision :=
  if negb (tools_enabled (config self)) then
    mret {| allowed := false; reason := "Tools disabled";
            decision_scope := make_scope scope_prefix path;
            requires_approval := true |}
  else
    resolved ← path_resolve (Path path);
    hit ← path_allowlisted resolved allowlist;
    if hit : bool then
      mret {| allowed := true; reason := "Allowlisted path";
              decision_scope := make_scope scope_prefix path;
              requires_approval := false |}
    else
      let sc := make_scope scope_prefix path in
      ok ← is_approved sc;
      if ok : bool then
        mret {| allowed := true; reason := "Approved path";
                decision_scope := sc; requires_approval := false |}
      else
        mret {| allowed := false; reason := "Path not allowlisted";
                decision_scope := sc; requires_approval := true |}.

Definition check_file_read (self : PolicyEngine) (path : string) : M ApprovalDecision :=
  _check_path self path (file_read_allowlist (config self)) "file_read".

Definition check_file_write (self : PolicyEngine) (path : string) : M ApprovalDecision :=
  _check_path self path (file_write_allowlist (config self)) "file_write".

Definition check_terminal (self : PolicyEngine) (command : string) : M ApprovalDecision :=
  if negb (tools_enabled (config self)) || negb (terminal_enabled (config self)) then
    mret {| allowed := false; reason := "Terminal access disabled";
            decision_scope := make_scope "terminal" command;
            requires_approval := true |}
  else if bool_decide (command ∈ terminal_allowlist (config self)) then
    mret {| allowed := true; reason := "Allowlisted command";
            decision_scope := make_scope "terminal" command;
            requires_approval := false |}
  else
    let sc := make_scope "terminal" command in
    ok ← is_approved sc;
    if ok : bool then
      mret {| allowed := true; reason := "Approved command";
              decision_scope := sc; requires_approval := false |}
    else
      mret {| allowed := false; reason := "Command not allowlisted";
              decision_scope := sc; requires_approval := true |}.

Definition check_skill (self : PolicyEngine) (skill_name : string) : M ApprovalDecision :=
  if negb (tools_enabled (config self)) then
    mret {| allowed := false; reason := "Tools disabled";
            decision_scope := make_scope "skill" skill_name;
            requires_approval := true |}
  else if bool_decide (skill_name ∈ skills_enabled (config self)) then
    mret {| allowed := true; reason := "Skill enabled";
            decision_scope := make_scope "skill" skill_name;
            requires_approval := false |}
  else
    let sc := make_scope "skill" skill_name in
    ok ← is_approved sc;
    if ok : bool then
      mret {| allowed := true; reason := "Skill approved";
              decision_scope := sc; requires_approval := false |}
    else
      mret {| allowed := false; reason := "Skill not enabled";
              decision_scope := sc; requires_approval := true |}.

(* ------------------------------------------------------------------ *)
(** ** [AuditLogger] ([audit.py]) *)

(** A compiled regular expression, seen through the two methods that
    matter here: [pattern.sub(repl, s)] and [pattern.search(s)]. *)
Record Pattern := {
  sub : string -> string -> string;
  search : string -> bool }.

Fixpoint starts_with (lit s : string) : bool :=
  match lit, s with
  | EmptyString, _ => true
  | String a lit', String b s' => bool_decide (a = b) && starts_with lit' s'
  | String _ _, EmptyString => false
  end.

(** Replace the leftmost non-overlapping occurrences of a literal;
    [skip] counts the characters of a match still to be dropped. *)
Fixpoint literal_sub (lit repl : string) (skip : nat) (s : string) : string :=
  match s with
  | EmptyString => EmptyString
  | String c s' =>
      match skip with
      | S k => literal_sub lit repl k s'
      | O =>
          if starts_with lit s
          then repl +:+ literal_sub lit repl (String.length lit - 1) s'
          else String c (literal_sub lit repl O s')
      end
  end.

Fixpoint literal_search (lit s : string) : bool :=
  starts_with lit s ||
  match s with
  | EmptyString => false
  | String _ s' => literal_search lit s'
  end.

(** [re.compile(lit)] for a non-empty pattern without metacharacters. *)
Definition re_compile_literal (lit : string) : Pattern :=
  {| sub := fun repl s => literal_sub lit repl O s;
     search := literal_search lit |}.

Record AuditLogger := { _compiled : list Pattern }.

(** The [for pattern in self._compiled] loop on one string. *)
Definition redact_string (self : AuditLogger) (value : string) : string :=
  fold_left (fun redacted pattern => sub pattern "<redacted>" redacted)
            (_compiled self) value.

Fixpoint _redact (self : AuditLogger) (value : pyvalue) : pyvalue :=
  match value with
  | VDict entries =>
      VDict (map (fun '(key, val) => (key, _redact self val)) entries)
  | VList items => VList (map (_redact self) items)
  | VStr s => VStr (redact_string self s)
  | _ => value
  end.

Definition newline : string := String "010"%char EmptyString.

(** A dictionary literal evaluated by the caller: a fresh object. *)
Definition new_dict (d : pydict) : M nat := fun w =>
  let l := fresh (dom (heap w)) in
  (Returned l, snd (set_heap (<[l := d]> (heap w)) w)).

Definition deref (l : nat) : M pydict := fun w =>
  match heap w !! l with
  | Some d => (Returned d, w)
  | None => (Raised (Exn RuntimeError "dangling reference"), w)
  end.

(** [handle.write(line)] on the audit file opened for appending. *)
Definition append_audit (line : string) : M unit :=
  lines ← read audit_file;
  _ ← set_audit_file (lines ++ [line]);
  emit (EAuditAppend line).

(** [AuditLogger.log]; [payload] is the caller's dictionary object.  The
    audit file is taken to be writable: opening it for appending succeeds
    and by itself adds nothing to it. *)
Definition log (self : AuditLogger) (payload : nat) : M unit :=
  now ← datetime_now;
  d ← deref payload;
  h ← read heap;
  _ ← set_heap (<[payload := dict_set d "timestamp" (VStr (isoformat now))]> h);
  d' ← deref payload;
  let redacted := _redact self (VDict d') in
  match json_dumps redacted with
  | Raised e => raise e
  | Returned text => append_audit (text +:+ newline)
  end.

(* ------------------------------------------------------------------ *)
(** ** File-system and process primitives *)

(** The file-system entry at a location; the root is a directory. *)
Definition entry_at (fs : gmap (list string) node) (loc : list string) : option node :=
  match loc with
  | [] => Some Dir
  | _ => fs !! loc
  end.

Definition os_error (c : exc_class) (loc : list string) : exn :=
  Exn c ("/" +:+ String.concat "/" loc).

(** [path.exists()]. *)
Definition path_exists (p : PurePath) : M bool :=
  loc ← path_resolve p;
  _ ← emit (EExists loc);
  fs ← read files;
  mret (bool_decide (is_Some (entry_at fs loc))).

(** [path.read_text(encoding="utf-8", errors="ignore")].  The entry read
    is the one [resolve] names, and the text comes back as it is stored:
    this is what the call does on a path spelled without a double dot and
    on a text without carriage returns. *)
Definition read_text (p : PurePath) : M string :=
  loc ← path_resolve p;
  _ ← emit (EReadText loc);
  fs ← read files;
  match entry_at fs loc with
  | Some (File content) => mret content
  | Some Dir => raise (os_error IsADirectoryError loc)
  | None => raise (os_error FileNotFoundError loc)
  end.

(** Creating the chain of directories down to [done ++ todo]. *)
Fixpoint mkdir_chain (fs : gmap (list string) node) (done todo : list string)
    : outcome (gmap (list string) node) :=
  match todo with
  | [] => Returned fs
  | c :: todo' =>
      let here := (done ++ [c])%list in
      match fs !! here with
      | Some Dir => mkdir_chain fs here todo'
      | Some (File _) =>
          Raised (os_error (match todo' with
                            | [] => FileExistsError
                            | _ => NotADirectoryError
                            end) here)
      | None => mkdir_chain (<[here := Dir]> fs) here todo'
      end
  end.

(** [path.mkdir(parents=True, exist_ok=True)], on a path spelled without
    a double dot: the directories created are those down to the location
    [resolve] names. *)
Definition mkdir_parents (p : PurePath) : M unit :=
  loc ← path_resolve p;
  _ ← emit (EMkdir loc);
  fs ← read files;
  match mkdir_chain fs [] loc with
  | Returned fs' => set_files fs'
  | Raised e => raise e
  end.

(** [path.write_text(content, encoding="utf-8")]. *)
Definition write_text (p : PurePath) (content : string) : M unit :=
  loc ← path_resolve p;
  _ ← emit (EWriteText loc content);
  fs ← read files;
  match entry_at fs (removelast loc), entry_at fs loc with
  | None, _ => raise (os_error FileNotFoundError loc)
  | Some (File _), _ => raise (os_error NotADirectoryError loc)
  | Some Dir, Some Dir => raise (os_error IsADirectoryError loc)
  | Some Dir, _ => set_files (<[loc := File content]> fs)
  end.

(** [src.replace(dst)], for a source that is a regular file. *)
Definition replace (src dst : PurePath) : M unit :=
  s ← path_resolve src;
  d ← path_resolve dst;
  _ ← emit (EReplace s d);
  fs ← read files;
  match entry_at fs s, entry_at fs d with
  | None, _ => raise (os_error FileNotFoundError s)
  | Some _, Some Dir => raise (os_error IsADirectoryError d)
  | Some n, _ => set_files (<[d := n]> (delete s fs))
  end.

(** [path.parent]. *)
Definition parent (p : PurePath) : PurePath :=
  {| anchored := anchored p; parts := removelast (parts p) |}.

(** [path.with_suffix(path.suffix + ext)]: [ext] is appended to the final
    component; a path without one has an empty name, which is refused. *)
Definition with_suffix_appended (p : PurePath) (ext : string) : M PurePath :=
  match last (parts p) with
  | None => raise (Exn ValueError "path has an empty name")
  | Some name =>
      mret {| anchored := anchored p;
              parts := (removelast (parts p) ++ [name +:+ ext])%list |}
  end.

(** [subprocess.run(command, capture_output=True, text=True, check=False)]. *)
Definition subprocess_run (command : list string) : M CompletedProcess :=
  _ ← emit (ESpawn command);
  run ← read programs;
  match run command with
  | inl e => raise e
  | inr result => mret result
  end.

(* ------------------------------------------------------------------ *)
(** ** [SkillContext] ([skills.py]) *)

(** The retrieval index is an outside collaborator, known by its one call. *)
Record RagIndex := { ingest_paths : list string -> M pydict }.

Record SkillContext := {
  policy : PolicyEngine;
  audit : AuditLogger;
  rag : RagIndex }.

Definition denial (decision : ApprovalDecision) : ToolResult :=
  {| success := false; output := None; error := Some (reason decision);
     metadata := [("approval", model_dump decision)] |}.

(** [self.audit.log({...})] with a dictionary literal. *)
Definition audit_log (self : SkillContext) (event : pydict) : M unit :=
  payload ← new_dict event;
  log (audit self) payload.

Definition read_file (self : SkillContext) (path : string) : M ToolResult :=
  decision ← check_file_read (policy self) path;
  if negb (allowed decision) then mret (denial decision)
  else
    content ← read_text (Path path);
    _ ← audit_log self [("tool", VStr "file_read"); ("path", VStr path);
                        ("decision", VStr "allowed"); ("summary", VStr "Read file")];
    mret {| success := true; output := Some content; error := None; metadata := [] |}.

Definition write_file (self : SkillContext) (path content : string) : M ToolResult :=
  decision ← check_file_write (policy self) path;
  if negb (allowed decision) then mret (denial decision)
  else
    let target := Path path in
    _ ← mkdir_parents (parent target);
    backup_path ← with_suffix_appended target ".bak";
    present ← path_exists target;
    _ ← (if present : bool then
           old ← read_text target;
           write_text backup_path old
         else mret tt);
    temp_path ← with_suffix_appended target ".tmp";
    _ ← write_text temp_path content;
    _ ← replace temp_path target;
    _ ← audit_log self [("tool", VStr "file_write"); ("path", VStr path);
                        ("decision", VStr "allowed"); ("summary", VStr "Wrote file")];
    mret {| success := true; output := Some "File written"; error := None;
            metadata := [] |}.

Definition run_command (self : SkillContext) (command : list string) : M ToolResult :=
  let joined := String.concat " " command in
  decision ← check_terminal (policy self) joined;
  if negb (allowed decision) then mret (denial decision)
  else
    try_except
      (result ← subprocess_run command;
       let out := stdout result +:+ stderr result in
       _ ← audit_log self [("tool", VStr "terminal"); ("command", VStr joined);
                           ("decision", VStr "allowed"); ("summary", VStr "Ran command")];
       mret {| success := bool_decide (returncode result = 0); output := Some out;
               error := None; metadata := [] |})
      is_OSError
      (fun exc => mret {| success := false; output := None;
                          error := Some (exc_msg exc); metadata := [] |}).

Definition rag_ingest (self : SkillContext) (paths : list string) : M ToolResult :=
  result ← ingest_paths (rag self) paths;
  _ ← emit (ERagIngest paths);
  _ ← audit_log self [("tool", VStr "rag_ingest");
                      ("paths", VList (map VStr paths));
                      ("decision", VStr "allowed")];
  mret {| success := true; output := None; error := None; metadata := result |}.

(* ------------------------------------------------------------------ *)
(** ** [json.loads] *)

(** A decoder for the JSON texts whose values live in [pyvalue]: numbers
    are integers and escaped code points stay below 256.  [None] is a
    [JSONDecodeError]. *)
Fixpoint skip_ws (s : string) : string :=
  match s with
  | String c s' =>
      if bool_decide (c = " "%char) || bool_decide (c = "009"%char)
         || bool_decide (c = "010"%char) || bool_decide (c = "013"%char)
      then skip_ws s' else s
  | EmptyString => s
  end.

Fixpoint strip_prefix (lit s : string) : option string :=
  match lit, s with
  | EmptyString, _ => Some s
  | String a lit', String b s' =>
      if bool_decide (a = b) then strip_prefix lit' s' else None
  | String _ _, EmptyString => None
  end.

Definition hex_value (c : ascii) : option N :=
  let n := N_of_ascii c in
  if ((48 <=? n) && (n <=? 57))%N then Some (n - 48)%N
  else if ((97 <=? n) && (n <=? 102))%N then Some (n - 87)%N
  else if ((65 <=? n) && (n <=? 70))%N then Some (n - 55)%N
  else None.

(** The body of a string literal, after its opening quote. *)
Fixpoint parse_string (s : string) (acc : string) : option (string * string) :=
  match s with
  | EmptyString => None
  | String c s' =>
      if bool_decide (c = dquote) then Some (String.rev acc, s')
      else if bool_decide (c = backslash) then
        match s' with
        | String "u" (String a (String b (String c2 (String d s'')))) =>
            match hex_value a, hex_value b, hex_value c2, hex_value d with
            | Some 0%N, Some 0%N, Some h, Some l =>
                parse_string s'' (String (ascii_of_N (16 * h + l)) acc)
            | _, _, _, _ => None
            end
        | String e s'' =>
            let plain (x : ascii) := parse_string s'' (String x acc) in
            if bool_decide (e = dquote) then plain dquote
            else if bool_decide (e = backslash) then plain backslash
            else if bool_decide (e = "/"%char) then plain "/"%char
            else if bool_decide (e = "b"%char) then plain "008"%char
            else if bool_decide (e = "f"%char) then plain "012"%char
            else if bool_decide (e = "n"%char) then plain "010"%char
            else if bool_decide (e = "r"%char) then plain "013"%char
            else if bool_decide (e = "t"%char) then plain "009"%char
            else None
        | EmptyString => None
        end
      else if (N_of_ascii c <? 32)%N then None
      else parse_string s' (String c acc)
  end.

Definition is_digit (c : ascii) : bool :=
  ((48 <=? N_of_ascii c) && (N_of_ascii c <=? 57))%N.

Fixpoint parse_digits (s : string) (acc : Z) : Z * string :=
  match s with
  | String c s' =>
      if is_digit c then parse_digits s' (10 * acc + Z.of_N (N_of_ascii c - 48))
      else (acc, s)
  | EmptyString => (acc, s)
  end.

(** An integer literal without sign: no leading zero, no fraction or
    exponent after it. *)
Definition parse_nat_literal (s : string) : option (Z * string) :=
  match s with
  | String c s' =>
      if is_digit c then
        let '(n, rest) := parse_digits s 0 in
        let leading_zero :=
          bool_decide (c = "0"%char) &&
          match s' with String c' _ => is_digit c' | EmptyString => false end in
        let fractional :=
          match rest with
          | String r _ =>
              bool_decide (r = "."%char) || bool_decide (r = "e"%char)
              || bool_decide (r = "E"%char)
          | EmptyString => false
          end in
        if leading_zero || fractional then None else Some (n, rest)
      else None
  | EmptyString => None
  end.

Section json_containers.
(** The value decoder one level down. *)
Variable parse_inner : string -> option (pyvalue * string).

(** Array elements, after the opening bracket or a comma. *)
Fixpoint parse_elements (fuel : nat) (s : string) (acc : list pyvalue)
    : option (pyvalue * string) :=
  match fuel with
  | O => None
  | S fuel' =>
      match parse_inner s with
      | None => None
      | Some (v, rest) =>
          match skip_ws rest with
          | String "," rest' => parse_elements fuel' rest' (v :: acc)
          | String "]" rest' => Some (VList (rev (v :: acc)), rest')
          | _ => None
          end
      end
  end.

(** Object members, after the opening brace or a comma. *)
Fixpoint parse_members (fuel : nat) (s : string) (acc : pydict)
    : option (pyvalue * string) :=
  match fuel with
  | O => None
  | S fuel' =>
      match skip_ws s with
      | String q s1 =>
          if bool_decide (q = dquote) then
            match parse_string s1 EmptyString with
            | None => None
            | Some (key, s2) =>
                match skip_ws s2 with
                | String ":" s3 =>
                    match parse_inner s3 with
                    | None => None
                    | Some (v, rest) =>
                        let acc' := dict_set acc key v in
                        match skip_ws rest with
                        | String "," rest' => parse_members fuel' rest' acc'
                        | String "}" rest' => Some (VDict acc', rest')
                        | _ => None
                        end
                    end
                | _ => None
                end
            end
          else None
      | EmptyString => None
      end
  end.
End json_containers.

Fixpoint parse_value (fuel : nat) (s : string) : option (pyvalue * string) :=
  match fuel with
  | O => None
  | S fuel' =>
      match skip_ws s with
      | EmptyString => None
      | String c rest =>
          if bool_decide (c = dquote) then
            match parse_string rest EmptyString with
            | Some (str, rest') => Some (VStr str, rest')
            | None => None
            end
          else if bool_decide (c = "["%char) then
            match skip_ws rest with
            | String "]" rest' => Some (VList [], rest')
            | _ => parse_elements (parse_value fuel') fuel' rest []
            end
          else if bool_decide (c = "{"%char) then
            match skip_ws rest with
            | String "}" rest' => Some (VDict [], rest')
            | _ => parse_members (parse_value fuel') fuel' rest []
            end
          else if bool_decide (c = "-"%char) then
            match parse_nat_literal rest with
            | Some (n, rest') => Some (VInt (- n), rest')
            | None => None
            end
          else
            match strip_prefix "null" (String c rest),
                  strip_prefix "true" (String c rest),
                  strip_prefix "false" (String c rest) with
            | Some rest', _, _ => Some (VNone, rest')
            | _, Some rest', _ => Some (VBool true, rest')
            | _, _, Some rest' => Some (VBool false, rest')
            | None, None, None =>
                match parse_nat_literal (String c rest) with
                | Some (n, rest') => Some (VInt n, rest')
                | None => None
                end
            end
      end
  end.

Definition json_loads (text : string) : outcome pyvalue :=
  match parse_value (S (String.length text)) text with
  | Some (v, rest) =>
      match skip_ws rest with
      | EmptyString => Returned v
      | _ => Raised (Exn JSONDecodeError "Extra data")
      end
  | None => Raised (Exn JSONDecodeError "Expecting value")
  end.

(** The texts on which a refusal of this decoder is a refusal of
    [json.loads]: [json.loads] also decodes fractions and exponents, every
    [\u] escape, and [NaN] and [Infinity], which the decoder above leaves
    out.  A plain text holds no backslash followed by [u], no digit
    followed by a dot or an [e], and neither [NaN] nor [Infinity]. *)
Fixpoint plain_json (text : string) : bool :=
  match text with
  | EmptyString => true
  | String c rest =>
      negb (starts_with (String backslash "u") text)
      && negb (starts_with "NaN" text)
      && negb (starts_with "Infinity" text)
      && negb (is_digit c
               && (starts_with "." rest || starts_with "e" rest
                   || starts_with "E" rest))
      && plain_json rest
  end.

(* ------------------------------------------------------------------ *)
(** ** [SkillManager] ([skills.py]) *)

(** The dataclass does not check its fields: each holds whatever the
    manifest file gave. *)
Record SkillManifest := {
  name : pyvalue;
  description : pyvalue;
  required_permissions : pyvalue;
  tools : pyvalue;
  entrypoint : pyvalue }.

(** Dictionary keys: lists and dictionaries are unhashable, and a boolean
    equals the integer it stands for. *)
Definition hashable (v : pyvalue) : bool :=
  match v with
  | VList _ | VDict _ => false
  | _ => true
  end.

Definition key_eqb (a b : pyvalue) : bool :=
  match a, b with
  | VNone, VNone => true
  | VStr s, VStr t => bool_decide (s = t)
  | VInt n, VInt m => bool_decide (n = m)
  | VBool x, VBool y => bool_decide (x = y)
  | VBool x, VInt n | VInt n, VBool x => bool_decide (n = if x then 1 else 0)
  | VObject s, VObject t => bool_decide (s = t)
  | _, _ => false
  end.

Abbreviation registry := (list (pyvalue * SkillManifest)).

Fixpoint registry_set (d : registry) (key : pyvalue) (m : SkillManifest) : registry :=
  match d with
  | [] => [(key, m)]
  | (k, v) :: d' =>
      if key_eqb k key then (k, m) :: d' else (k, v) :: registry_set d' key m
  end.

Fixpoint registry_get (d : registry) (key : pyvalue) : option SkillManifest :=
  match d with
  | [] => None
  | (k, v) :: d' => if key_eqb k key then Some v else registry_get d' key
  end.

(** What a skill's [run] hands back. *)
Inductive handler_result :=
| ResultToolResult (r : ToolResult)
| ResultValue (v : pyvalue).

(** [namespace.get("run")] after the skill's source has been executed. *)
Inductive namespace_entry :=
| Absent
| NotCallable (v : pyvalue)
| Function (handler : SkillContext -> pydict -> M handler_result)
| Coroutine (handler : SkillContext -> pydict -> M handler_result).

Record SkillManager := {
  skills_dir : PurePath;
  context_factory : M SkillContext;
  _manifests : registry }.

(** [base / segment]: an absolute segment replaces the base. *)
Definition joinpath (base : PurePath) (segment : string) : PurePath :=
  let seg := Path segment in
  if anchored seg then seg
  else {| anchored := anchored base; parts := (parts base ++ parts seg)%list |}.

(** [data["name"]]. *)
Definition subscript_name (data : pyvalue) : M pyvalue :=
  match data with
  | VDict d =>
      match dict_get d "name" with
      | Some v => mret v
      | None => raise (Exn KeyError "'name'")
      end
  | VList _ => raise (Exn TypeError "list indices must be integers or slices, not str")
  | VStr _ => raise (Exn TypeError "string indices must be integers, not 'str'")
  | _ => raise (Exn TypeError "object is not subscriptable")
  end.

(** [data.get(key, default)], reached only when [data] is a dictionary. *)
Definition get_default (data : pyvalue) (key : string) (default : pyvalue) : pyvalue :=
  match data with
  | VDict d => from_option id default (dict_get d key)
  | _ => default
  end.

(** The names in a directory, in the file system's enumeration order. *)
Definition listdir (fs : gmap (list string) node) (base : list string) : list string :=
  omap (fun '(k, _) =>
          match last k with
          | Some d => if bool_decide (removelast k = base) then Some d else None
          | None => None
          end)
       (map_to_list fs).

(** [skills_dir.glob("*/manifest.json")]. *)
Fixpoint glob_filter (dir : PurePath) (names : list string) : M (list PurePath) :=
  match names with
  | [] => mret []
  | d :: rest =>
      let candidate := joinpath (joinpath dir d) "manifest.json" in
      loc ← path_resolve candidate;
      fs ← read files;
      found ← glob_filter dir rest;
      mret (if bool_decide (is_Some (entry_at fs loc)) then candidate :: found else found)
  end.

Definition glob_manifests (dir : PurePath) : M (list PurePath) :=
  base ← path_resolve dir;
  fs ← read files;
  glob_filter dir (listdir fs base).

(** The body of the [for manifest_path in ...] loop, and the loop. *)
Definition load_one (manifests : registry) (manifest_path : PurePath) : M registry :=
  text ← read_text manifest_path;
  match json_loads text with
  | Raised e => raise e
  | Returned data =>
      n ← subscript_name data;
      let manifest :=
        {| name := n;
           description := get_default data "description" (VStr EmptyString);
           required_permissions := get_default data "required_permissions" (VList []);
           tools := get_default data "tools" (VList []);
           entrypoint := get_default data "entrypoint" (VStr "skill.py") |} in
      if hashable n then mret (registry_set manifests n manifest)
      else raise (Exn TypeError "unhashable type")
  end.

Fixpoint load_loop (manifests : registry) (paths : list PurePath) : M registry :=
  match paths with
  | [] => mret manifests
  | manifest_path :: rest =>
      manifests' ← load_one manifests manifest_path;
      load_loop manifests' rest
  end.

Definition _load_manifests (dir : PurePath) (manifests : registry) : M registry :=
  present ← path_exists dir;
  if negb present then mret manifests
  else
    paths ← glob_manifests dir;
    load_loop manifests paths.

(** [SkillManager.__init__]. *)
Definition SkillManager_init (dir : PurePath) (factory : M SkillContext) : M SkillManager :=
  manifests ← _load_manifests dir [];
  mret {| skills_dir := dir; context_factory := factory; _manifests := manifests |}.

Definition list_skills (self : SkillManager) : list SkillManifest :=
  map snd (_manifests self).

Definition failure (message : string) : ToolResult :=
  {| success := false; output := None; error := Some message; metadata := [] |}.

Section interpreter.
(** [exec(source, namespace)] followed by [namespace.get("run")]: what
    the Python interpreter makes of a skill's source text. *)
Variable exec_source : string -> M namespace_entry.

(** The [try] block of [run]. *)
Definition call_handler (handler : SkillContext -> pydict -> M handler_result)
    (context : SkillContext) (payload : pydict) : M ToolResult :=
  try_except
    (result ← handler context payload;
     match result with
     | ResultToolResult r => mret r
     | ResultValue v =>
         match json_dumps v with
         | Returned text =>
             mret {| success := true; output := Some text; error := None;
                     metadata := [] |}
         | Raised e => raise e
         end
     end)
    is_Exception
    (fun exc => mret (failure (exc_msg exc))).

Definition run (self : SkillManager) (skill_name : string) (payload : pydict)
    : M ToolResult :=
  match registry_get (_manifests self) (VStr skill_name) with
  | None => mret (failure "Skill not found")
  | Some manifest =>
      match entrypoint manifest with
      | VStr file =>
          let skill_path := joinpath (joinpath (skills_dir self) skill_name) file in
          present ← path_exists skill_path;
          if negb present then mret (failure "Skill entrypoint missing")
          else
            context ← context_factory self;
            source ← read_text skill_path;
            entry ← exec_source source;
            match entry with
            | Function handler | Coroutine handler =>
                call_handler handler context payload
            | _ => mret (failure "Skill missing run()")
            end
      | _ => raise (Exn TypeError "unsupported operand type(s) for /")
      end
  end.
End interpreter.

(** [skills/dev_assistant/skill.py]. *)
Definition COMMANDS : list (string * list string) :=
  [("git_status", ["git"; "status"; "-sb"]);
   ("pytest", ["pytest"]);
   ("ruff", ["ruff"; "check"; "."])].

Definition dev_assistant_run (context : SkillContext) (payload : pydict)
    : M handler_result :=
  match from_option id (VStr "git_status") (dict_get payload "action") with
  | VStr action =>
      match dict_get COMMANDS action with
      | Some ((_ :: _) as command) =>
          r ← run_command context command;
          mret (ResultToolResult r)
      | _ =>
          mret (ResultValue (VDict [("success", VBool false);
                                    ("error", VStr "Unsupported action")]))
      end
  | VList _ | VDict _ => raise (Exn TypeError "unhashable type")
  | _ =>
      mret (ResultValue (VDict [("success", VBool false);
                                ("error", VStr "Unsupported action")]))
  end.

(* ------------------------------------------------------------------ *)
(** ** The four capability checks as one evaluation *)

Inductive capability := FileRead | FileWrite | Terminal | Skill.

Definition evaluate (self : PolicyEngine) (kind : capability) (target : string)
    : M ApprovalDecision :=
  match kind with
  | FileRead => check_file_read self target
  | FileWrite => check_file_write self target
  | Terminal => check_terminal self target
  | Skill => check_skill self target
  end.

(** The switch that turns a capability class off. *)
Definition class_disabled (cfg : PermissionConfig) (kind : capability) : bool :=
  negb (tools_enabled cfg) ||
  match kind with
  | Terminal => negb (terminal_enabled cfg)
  | _ => false
  end.

Definition file_allowlist (cfg : PermissionConfig) (kind : capability) : list string :=
  match kind with
  | FileWrite => file_write_allowlist cfg
  | _ => file_read_allowlist cfg
  end.

(** The resolved request is some resolved allowlist entry or lies below it. *)
Definition contained_in (w : World) (path : string) (allowlist : list string) : Prop :=
  exists entry rest,
    entry ∈ allowlist /\
    resolve w (Path path) = (resolve w (Path entry) ++ rest)%list.

(** A record that an evaluation at time [now] counts for scope [sc]. *)
Definition live_grant (now : datetime) (sc : string) (r : ApprovalRecord) : Prop :=
  scope r = sc /\
  match expires_at r with
  | None => True
  | Some (Aware t) => now <= t
  | Some (Naive _) => False
  end.

(* ------------------------------------------------------------------ *)
(** ** Sample worlds *)

Definition no_programs (argv : list string) : exn + CompletedProcess :=
  inl (Exn FileNotFoundError "No such file or directory").

(** An empty file system without symbolic links, rooted working directory. *)
Definition empty_world : World :=
  {| clock := 1700000000000000; records := []; resolve := posix_resolve [];
     files := ∅; programs := no_programs; audit_file := []; heap := ∅;
     trace := [] |}.

Definition with_records (w : World) (rs : list ApprovalRecord) : World :=
  {| clock := clock w; records := rs; resolve := resolve w; files := files w;
     programs := programs w; audit_file := audit_file w; heap := heap w;
     trace := trace w |}.

Definition with_files (w : World) (fs : gmap (list string) node) : World :=
  {| clock := clock w; records := records w; resolve := resolve w; files := fs;
     programs := programs w; audit_file := audit_file w; heap := heap w;
     trace := trace w |}.

(** Everything switched off, yet every list full. *)
Definition locked_config : PermissionConfig :=
  {| tools_enabled := false;
     file_read_allowlist := ["/data"]; file_write_allowlist := ["/data"];
     terminal_enabled := true; terminal_allowlist := ["git status"];
     skills_enabled := ["echo"]; require_approval := true |}.

Definition data_config : PermissionConfig :=
  {| tools_enabled := true;
     file_read_allowlist := ["/data"]; file_write_allowlist := ["/data"];
     terminal_enabled := true; terminal_allowlist := ["git status"];
     skills_enabled := ["echo"]; require_approval := true |}.

(* ------------------------------------------------------------------ *)
(** ** Reading a payload: its string values, and everything else *)

(** The string values of a payload, through lists and dictionary values,
    left to right.  Dictionary keys are not values. *)
Fixpoint string_leaves (v : pyvalue) : list string :=
  match v with
  | VStr s => [s]
  | VList items => concat (map string_leaves items)
  | VDict entries => concat (map (fun '(_, val) => string_leaves val) entries)
  | _ => []
  end.

(** The payload with every string value blanked: its shape, its keys, its
    numbers, booleans, nulls and foreign objects. *)
Fixpoint skeleton (v : pyvalue) : pyvalue :=
  match v with
  | VStr _ => VStr EmptyString
  | VList items => VList (map skeleton items)
  | VDict entries => VDict (map (fun '(key, val) => (key, skeleton val)) entries)
  | _ => v
  end.

(** No foreign object anywhere in the value. *)
Fixpoint serializable (v : pyvalue) : bool :=
  match v with
  | VObject _ => false
  | VList items => forallb serializable items
  | VDict entries => forallb (fun '(_, val) => serializable val) entries
  | _ => true
  end.

(** The caller's dictionary after [log] stamped it. *)
Definition stamped (w : World) (d : pydict) : pydict :=
  dict_set d "timestamp" (VStr (isoformat (clock w))).

Definition with_heap (w : World) (h : gmap nat pydict) : World :=
  {| clock := clock w; records := records w; resolve := resolve w;
     files := files w; programs := programs w; audit_file := audit_file w;
     heap := h; trace := trace w |}.

(** The world after a line was appended to the audit file. *)
Definition with_audit_line (w : World) (line : string) : World :=
  {| clock := clock w; records := records w; resolve := resolve w;
     files := files w; programs := programs w;
     audit_file := audit_file w ++ [line];
     heap := heap w; trace := trace w ++ [EAuditAppend line] |}.

(** Sample loggers and payloads. *)
Definition act_logger : AuditLogger :=
  {| _compiled := [re_compile_literal "act"] |}.

Definition hunter_logger : AuditLogger :=
  {| _compiled := [re_compile_literal "hunter2"] |}.

Definition note_payload : pyvalue := VDict [("note", VStr "act")].

Definition leaky_payload : pydict := [("login hunter2", VStr "ok")].

Definition login_payload : pydict :=
  [("user", VStr "ann"); ("secret", VStr "pw hunter2!"); ("tries", VInt 3);
   ("tags", VList [VStr "hunter2"; VNone; VBool true])].

Definition opaque_payload : pydict :=
  [("tool", VStr "skill"); ("handle", VObject "set")].

(* ------------------------------------------------------------------ *)
(** ** Quiet steps *)

(** From [w] to [w'] nothing happened but scans of the approval store: the
    file system, the audit file and the heap are as before, and the trace
    grew by ledger scans only (no file, process or audit event). *)
Definition quiet (w w' : World) : Prop :=
  files w' = files w /\ audit_file w' = audit_file w /\ heap w' = heap w /\
  exists scans,
    trace w' = (trace w ++ scans)%list /\
    Forall (fun e => exists sc, e = ELedgerScan sc) scans.

Definition no_rag : RagIndex := {| ingest_paths := fun _ => mret [] |}.

(** A context over [data_config] with the [hunter2] logger. *)
Definition data_context : SkillContext :=
  {| policy := {| config := data_config |}; audit := hunter_logger; rag := no_rag |}.

(** [/data] is a directory holding nothing. *)
Definition data_dir_world : World :=
  with_files empty_world {[ ["data"] := Dir ]}.

(** [/data] is a regular file. *)
Definition data_file_world : World :=
  with_files empty_world {[ ["data"] := File "plain" ]}.

(* ------------------------------------------------------------------ *)
(** ** Sample skills *)

Definition echo_manifest : SkillManifest :=
  {| name := VStr "echo"; description := VStr EmptyString;
     required_permissions := VList []; tools := VList [];
     entrypoint := VStr "skill.py" |}.

Definition echo_manager : SkillManager :=
  {| skills_dir := Path "/skills"; context_factory := mret data_context;
     _manifests := [(VStr "echo", echo_manifest)] |}.

Definition skills_world : World :=
  with_files empty_world
    {[ ["skills"] := Dir; ["skills"; "echo"] := Dir;
       ["skills"; "echo"; "skill.py"] := File "def run(context, payload): ..." ]}.

(** An interpreter that finds the given [run] in whatever it executes. *)
Definition exec_as (entry : namespace_entry) (source : string) : M namespace_entry :=
  mret entry.

(** [return {"ok": True}] *)
Definition returns_ok (context : SkillContext) (payload : pydict) : M handler_result :=
  mret (ResultValue (VDict [("ok", VBool true)])).

(** [return {1, 2}] *)
Definition returns_set (context : SkillContext) (payload : pydict) : M handler_result :=
  mret (ResultValue (VObject "set")).

(** [sys.exit(1)] *)
Definition exits (context : SkillContext) (payload : pydict) : M handler_result :=
  raise (Exn SystemExit "1").

(* ------------------------------------------------------------------ *)
(** ** Reading the skills directory *)

(** The manifest paths [glob] yields, as a function of the file system. *)
Definition manifest_paths (w : World) (dir : PurePath) : list PurePath :=
  List.filter
    (fun p => bool_decide (is_Some (entry_at (files w) (resolve w p))))
    (map (fun d => joinpath (joinpath dir d) "manifest.json")
       (listdir (files w) (resolve w dir))).

(** The manifest at [p] is a JSON object that declares the name [n]. *)
Definition declared_name (w : World) (p : PurePath) (n : string) : Prop :=
  exists text d,
    entry_at (files w) (resolve w p) = Some (File text) /\
    json_loads text = Returned (VDict d) /\
    dict_get d "name" = Some (VStr n).

Definition well_formed (w : World) (p : PurePath) : Prop :=
  exists n, declared_name w p n.

(** The manifest at [p] is a plain text that does not parse, or is an
    object without a name. *)
Definition malformed (w : World) (p : PurePath) : Prop :=
  exists text,
    entry_at (files w) (resolve w p) = Some (File text) /\
    ((plain_json text = true /\ exists e, json_loads text = Raised e) \/
     (exists d, json_loads text = Returned (VDict d) /\ dict_get d "name" = None)).

(** Two worlds that differ in nothing the loader reads. *)
Definition same_fs (w w' : World) : Prop :=
  files w' = files w /\ resolve w' = resolve w.

Definition quoted (s : string) : string :=
  String dquote (s +:+ String dquote EmptyString).

(** A manifest that names the skill [echo]. *)
Definition echo_manifest_text : string :=
  "{" +:+ quoted "name" +:+ ": " +:+ quoted "echo" +:+ ", "
  +:+ quoted "entrypoint" +:+ ": " +:+ quoted "skill.py" +:+ "}".

(** A manifest that forgot its name. *)
Definition nameless_manifest_text : string :=
  "{" +:+ quoted "description" +:+ ": " +:+ quoted "no name here" +:+ "}".

Definition skills_tree (other : string) : gmap (list string) node :=
  {[ ["skills"] := Dir;
     ["skills"; "echo"] := Dir;
     ["skills"; "echo"; "manifest.json"] := File echo_manifest_text;
     ["skills"; "other"] := Dir;
     ["skills"; "other"; "manifest.json"] := File other ]}.

(** [echo] sits next to a skill whose manifest lacks the name. *)
Definition nameless_world : World :=
  with_files empty_world (skills_tree nameless_manifest_text).

(** [echo] sits next to a skill whose manifest is not JSON. *)
Definition garbled_world : World :=
  with_files empty_world (skills_tree "{name: echo").

(* ------------------------------------------------------------------ *)
(** ** Scopes and the approval store, seen from outside *)

(** The prefix each check puts before the colon of its scope. *)
Definition kind_prefix (kind : capability) : string :=
  match kind with
  | FileRead => "file_read"
  | FileWrite => "file_write"
  | Terminal => "terminal"
  | Skill => "skill"
  end.

(** The list a terminal command or a skill name is looked up in. *)
Definition exact_allowlist (cfg : PermissionConfig) (kind : capability) : list string :=
  match kind with
  | Terminal => terminal_allowlist cfg
  | _ => skills_enabled cfg
  end.

(** What [is_approved] answers in a world. *)
Definition approved_in (w : World) (sc : string) : outcome bool :=
  scan_records (records w) (clock w) sc.

(** What the loop makes of one record of the scope asked for, when it
    gets to it. *)
Definition grant_verdict (now : datetime) (expires : option expiry) : outcome bool :=
  match expires with
  | None => Returned true
  | Some (Aware t) => Returned (negb (t <? now))
  | Some (Naive _) => Raised naive_comparison
  end.

(* ------------------------------------------------------------------ *)
(** ** What the context operations leave behind *)

(** The audit event of an operation that went ahead. *)
Definition allowed_event (tool key target summary : string) : pydict :=
  [("tool", VStr tool); (key, VStr target); ("decision", VStr "allowed");
   ("summary", VStr summary)].

(** The line [log] writes for an event in world [w]. *)
Definition audit_line (logger : AuditLogger) (w : World) (event : pydict)
    : outcome string :=
  match json_dumps (_redact logger (VDict (stamped w event))) with
  | Returned text => Returned (text +:+ newline)
  | Raised e => Raised e
  end.

(** The world after [self.audit.log(event)] went through. *)
Definition logged (w : World) (event : pydict) (line : string) : World :=
  with_audit_line
    (with_heap w (<[fresh (dom (heap w)) := stamped w event]> (heap w))) line.

Definition ok_result (out : string) : ToolResult :=
  {| success := true; output := Some out; error := None; metadata := [] |}.

(** [/data/report.txt] exists. *)
Definition report_world : World :=
  with_files empty_world
    {[ ["data"] := Dir; ["data"; "report.txt"] := File "quarterly numbers" ]}.

(** [git status] exits with 1 after printing to both streams. *)
Definition git_fails_world : World :=
  {| clock := clock empty_world; records := []; resolve := posix_resolve [];
     files := ∅;
     programs := fun argv =>
       if bool_decide (argv = ["git"; "status"])
       then inr {| returncode := 1; stdout := "On branch main";
                   stderr := " fatal: bad index" |}
       else inl (Exn FileNotFoundError "No such file or directory");
     audit_file := []; heap := ∅; trace := [] |}.





(* ------------------------------------------------------------------ *)
(** ** The registry as a Python dictionary *)

(** The manifest [load_one] builds from decoded data and its name. *)
Definition manifest_of (data : pyvalue) (n : pyvalue) : SkillManifest :=
  {| name := n;
     description := get_default data "description" (VStr EmptyString);
     required_permissions := get_default data "required_permissions" (VList []);
     tools := get_default data "tools" (VList []);
     entrypoint := get_default data "entrypoint" (VStr "skill.py") |}.

(** Some key of the registry equals [key]. *)
Definition has_key (reg : registry) (key : pyvalue) : bool :=
  existsb (fun e => key_eqb (fst e) key) reg.

(** No key of the registry equals one that comes after it. *)
Fixpoint keys_distinct (reg : registry) : bool :=
  match reg with
  | [] => true
  | (k, _) :: rest =>
      negb (existsb (fun e => key_eqb k (fst e)) rest) && keys_distinct rest
  end.

(** Two manifests that both call their skill [echo]; the second names
    another entrypoint. *)
Definition echo_again_text : string :=
  "{" +:+ quoted "name" +:+ ": " +:+ quoted "echo" +:+ ", "
  +:+ quoted "entrypoint" +:+ ": " +:+ quoted "other.py" +:+ "}".

Definition twice_world : World :=
  with_files empty_world
    {[ ["skills"] := Dir;
       ["skills"; "a"] := Dir;
       ["skills"; "a"; "manifest.json"] := File echo_manifest_text;
       ["skills"; "b"] := Dir;
       ["skills"; "b"; "manifest.json"] := File echo_again_text ]}.

(* ------------------------------------------------------------------ *)
(** ** Reading JSON text back *)

(** Dictionaries hold each key once, all the way down. *)
Fixpoint well_keyed (v : pyvalue) : bool :=
  match v with
  | VList items => forallb well_keyed items
  | VDict entries =>
      bool_decide (NoDup (map fst entries)) &&
      forallb (fun '(_, x) => well_keyed x) entries
  | _ => true
  end.

(** Fuel that is enough to decode the text of a value. *)
Fixpoint fuel_need (v : pyvalue) : nat :=
  match v with
  | VList items =>
      S (max (length items) (fold_right (fun x n => max (fuel_need x) n) O items))
  | VDict entries =>
      S (max (length entries)
           (fold_right (fun '(_, x) n => max (fuel_need x) n) O entries))
  | _ => 1%nat
  end.

(** What may follow a value in a text: nothing that would continue a
    number. *)
Definition value_end (rest : string) : bool :=
  match rest with
  | EmptyString => true
  | String c _ =>
      negb (is_digit c) && negb (bool_decide (c = "."%char))
      && negb (bool_decide (c = "e"%char)) && negb (bool_decide (c = "E"%char))
  end.

(** The characters a value's text can begin with. *)
Definition value_heads : list ascii :=
  [dquote; "["; "{"; "-"; "n"; "t"; "f";
   "0"; "1"; "2"; "3"; "4"; "5"; "6"; "7"; "8"; "9"]%char.


(* ------------------------------------------------------------------ *)
(** ** Reading a log back ([logs.py], [main.py]) *)

(** The line boundaries of [str.splitlines] among the code points below
    256: line feed, vertical tab, form feed, carriage return, the three
    separators and next-line. *)
Definition is_line_break (c : ascii) : bool :=
  let n := N_of_ascii c in
  ((10 <=? n) && (n <=? 13) || (28 <=? n) && (n <=? 30) || (n =? 133))%N.

(** [str.splitlines()]: a carriage return followed by a line feed is one
    boundary, and a boundary at the end opens no further line.  [cur] holds
    the current line backwards. *)
Fixpoint splitlines_from (s cur : string) : list string :=
  match s with
  | EmptyString =>
      match cur with
      | EmptyString => []
      | _ => [String.rev cur]
      end
  | String c s' =>
      if is_line_break c then
        String.rev cur ::
          match s' with
          | String c' s'' =>
              if bool_decide (c = "013"%char) && bool_decide (c' = "010"%char)
              then splitlines_from s'' EmptyString
              else splitlines_from s' EmptyString
          | EmptyString => []
          end
      else splitlines_from s' (String c cur)
  end.

Definition splitlines (s : string) : list string := splitlines_from s EmptyString.

(** The white space of [str.strip()] below 256. *)
Definition is_space (c : ascii) : bool :=
  let n := N_of_ascii c in
  ((9 <=? n) && (n <=? 13) || (28 <=? n) && (n <=? 32) || (n =? 133)
   || (n =? 160))%N.

Fixpoint all_chars (p : ascii -> bool) (s : string) : bool :=
  match s with
  | EmptyString => true
  | String c s' => p c && all_chars p s'
  end.

(** [not line.strip()]. *)
Definition blank (line : string) : bool := all_chars is_space line.

(** The text holds no carriage return.  [read_text] opens the file in text
    mode with universal newlines, which turns [\r\n] and a lone [\r] into
    [\n]: a text without carriage returns is the one that comes back as it
    is stored. *)
Definition unix_text (text : string) : bool :=
  all_chars (fun c => negb (bool_decide (c = "013"%char))) text.

(** The path is spelled without a double dot.  The file operations hand
    the path to the operating system as spelled, which walks it component
    by component and fails at a missing directory even when a double dot
    follows it, where [resolve] folds the two; without a double dot the
    entry reached is the one [resolve] names. *)
Definition spelled_plainly (path : string) : bool :=
  forallb (fun c => negb (bool_decide (c = ".."))) (parts (Path path)).

(** [l[start:]]. *)
Definition slice_from {A} (start : Z) (l : list A) : list A :=
  if start <? 0 then drop (Z.to_nat (Z.of_nat (length l) + start)) l
  else drop (Z.to_nat start) l.

(** [lines[-tail:]] under [if tail:]. *)
Definition last_lines {A} (tail : Z) (l : list A) : list A :=
  if bool_decide (tail = 0) then l else slice_from (- tail) l.

(** [[json.loads(line) for line in lines if line.strip()]]. *)
Fixpoint load_lines (lines : list string) : outcome (list pyvalue) :=
  match lines with
  | [] => Returned []
  | line :: rest =>
      if blank line then load_lines rest
      else
        match json_loads line with
        | Raised e => Raised e
        | Returned v =>
            match load_lines rest with
            | Raised e => Raised e
            | Returned vs => Returned (v :: vs)
            end
        end
  end.

(** What [read_tail] makes of the text of a file. *)
Definition tail_entries (text : string) (tail : Z) : outcome (list pyvalue) :=
  load_lines (last_lines tail (splitlines text)).

(** [read_tail(path, tail)]. *)
Definition read_tail (path : PurePath) (tail : Z) : M (list pyvalue) :=
  found ← path_exists path;
  if negb found then mret []
  else
    text ← read_text path;
    match tail_entries text tail with
    | Raised e => raise e
    | Returned entries => mret entries
    end.

(** The [/logs/audit] endpoint of [main.py] reads the file the
    application's logger appends to; the world holds what was written to
    it, one piece for each write, and a file nothing was written to reads as
    a missing one does. *)
Definition audit_logs (tail : Z) : M pydict :=
  written ← read audit_file;
  match tail_entries (foldr String.append EmptyString written) tail with
  | Raised e => raise e
  | Returned entries => mret [("entries", VList entries)]
  end.

(** The printable characters of ASCII. *)
Definition printable (c : ascii) : bool :=
  ((32 <=? N_of_ascii c) && (N_of_ascii c <=? 126))%N.

(** [chunk] is what [log] writes for the entry [v]. *)
Definition audit_record (v : pyvalue) (chunk : string) : Prop :=
  exists text, json_dumps v = Returned text /\ chunk = text +:+ newline.

(** The event the [/skills/run] endpoint logs, as a fresh dictionary in
    an otherwise empty world. *)
Definition skill_event : pydict :=
  [("tool", VStr "skill"); ("skill", VStr "echo"); ("decision", VStr "allowed")].

Definition event_world : World := snd (new_dict skill_event empty_world).

(** A journal of three lines: the second is not JSON. *)
Definition journal_world : World :=
  with_files empty_world
    {[ ["data"] := Dir;
       ["data"; "dream_journal.jsonl"] :=
         File ("[1, 2]" +:+ newline +:+ "oops" +:+ newline +:+ "{}" +:+ newline) ]}.


(* ------------------------------------------------------------------ *)
(** ** Chunking ([rag.py]) *)

(** The fields of [RagConfig] read here; the model class puts no bound on
    the two numbers. *)
Record RagConfig := { enabled : bool; chunk_size : Z; chunk_overlap : Z }.

(** [l[start:stop]]: an index below zero counts from the end, and both
    are clamped to the sequence. *)
Definition slice {A} (l : list A) (start stop : Z) : list A :=
  let len := Z.of_nat (length l) in
  let clamp (i : Z) := if i <? 0 then Z.max 0 (len + i) else Z.min i len in
  take (Z.to_nat (clamp stop - clamp start)) (drop (Z.to_nat (clamp start)) l).

(** The [while] loop of [_chunk_text], on a text given as the list of its
    characters; one unit of fuel pays for one turn. *)
Fixpoint chunk_loop (fuel : nat) (text : list ascii) (size overlap start : Z)
    (chunks : list (list ascii)) : option (list (list ascii)) :=
  match fuel with
  | O => None
  | S fuel' =>
      let len := Z.of_nat (length text) in
      if start <? len then
        let stop := Z.min len (start + size) in
        let chunks' := (chunks ++ [slice text start stop])%list in
        if len <=? stop then Some chunks'
        else chunk_loop fuel' text size overlap (Z.max 0 (stop - overlap)) chunks'
      else Some chunks
  end.

Definition _chunk_text (fuel : nat) (config : RagConfig) (text : list ascii)
    : option (list (list ascii)) :=
  chunk_loop fuel text (chunk_size config) (chunk_overlap config) 0 [].

(** Chunks put together again, the overlap taken once. *)
Definition reassemble (overlap : Z) (chunks : list (list ascii)) : list ascii :=
  match chunks with
  | [] => []
  | c :: cs => (c ++ concat (map (drop (Z.to_nat overlap)) cs))%list
  end.

(** Chunks of four characters that share one, and a configuration whose
    overlap exceeds its chunk size. *)
Definition small_rag : RagConfig :=
  {| enabled := true; chunk_size := 4; chunk_overlap := 1 |}.
Definition swapped_rag : RagConfig :=
  {| enabled := true; chunk_size := 2; chunk_overlap := 3 |}.

(* ------------------------------------------------------------------ *)
(** ** Model routing ([router.py]) *)

Record RouterRule := {
  rule_name : string;
  rule_task_type : string;
  min_quality : Z;
  max_quality : Z;
  rule_model : string;
  fallback_model : option string;
  match_keywords : list string }.

Record RoutingConfig := {
  speed_quality : Z;
  rules : list RouterRule;
  default_model : option string }.

Record RoutingDecision := {
  model : string;
  rule : option string;
  task_type : string }.

(** [str.lower()] on the code points below 256. *)
Definition lower_char (c : ascii) : ascii :=
  let n := N_of_ascii c in
  if ((65 <=? n) && (n <=? 90)
      || (192 <=? n) && (n <=? 222) && negb (n =? 215))%N
  then ascii_of_N (n + 32) else c.

Fixpoint lower (s : string) : string :=
  match s with
  | EmptyString => EmptyString
  | String c s' => String (lower_char c) (lower s')
  end.

(** [needle in hay]. *)
Fixpoint contains (hay needle : string) : bool :=
  starts_with needle hay ||
  match hay with
  | String _ hay' => contains hay' needle
  | EmptyString => false
  end.

(** The truth value of a [str | None]. *)
Definition truthy (o : option string) : bool :=
  match o with
  | Some (String _ _) => true
  | _ => false
  end.

Definition detect_task_type (messages : list string) (requested : option string)
    : string :=
  match requested with
  | Some ((String _ _) as task) => task
  | _ =>
      let combined := lower (String.concat " " messages) in
      if contains combined "code" || contains combined "bug"
         || contains combined "stack trace" then "coding"
      else if contains combined "why" || contains combined "reason"
              || contains combined "explain" then "reasoning"
      else "qa"
  end.

(** [name and name in installed]. *)
Definition is_installed (name : option string) (installed : list string) : bool :=
  match name with
  | Some ((String _ _) as n) => bool_decide (n ∈ installed)
  | _ => false
  end.

Definition _pick_installed (primary fallback : option string)
    (installed : list string) : option string :=
  if is_installed primary installed then primary
  else if is_installed fallback installed then fallback
  else None.

(** The three tests of the loop that skip a rule. *)
Definition rule_applies (r : RouterRule) (task : string) (quality : Z)
    (messages : list string) : bool :=
  (bool_decide (rule_task_type r = task) || bool_decide (rule_task_type r = "any"))
  && ((min_quality r <=? quality) && (quality <=? max_quality r))
  && match match_keywords r with
     | [] => true
     | keywords =>
         let combined := lower (String.concat " " messages) in
         existsb (fun keyword => contains combined (lower keyword)) keywords
     end.

(** The [for rule in rules] loop of [choose_model]. *)
Fixpoint first_rule (rs : list RouterRule) (task : string) (quality : Z)
    (messages installed : list string) : option RoutingDecision :=
  match rs with
  | [] => None
  | r :: rest =>
      if negb (rule_applies r task quality messages)
      then first_rule rest task quality messages installed
      else
        match _pick_installed (Some (rule_model r)) (fallback_model r) installed with
        | Some chosen =>
            Some {| model := chosen; rule := Some (rule_name r); task_type := task |}
        | None => first_rule rest task quality messages installed
        end
  end.

(** [choose_model]; [config] is [config.routing], the one part of the
    configuration it reads. *)
Definition choose_model (config : RoutingConfig) (installed messages : list string)
    (requested_quality : option Z) (requested_task override_model : option string)
    : outcome RoutingDecision :=
  match override_model with
  | Some ((String _ _) as chosen) =>
      Returned {| model := chosen; rule := Some "override";
                  task_type := match requested_task with
                               | Some ((String _ _) as task) => task
                               | _ => "any"
                               end |}
  | _ =>
      let task := detect_task_type messages requested_task in
      let quality := from_option id (speed_quality config) requested_quality in
      match first_rule (rules config) task quality messages installed with
      | Some decision => Returned decision
      | None =>
          match _pick_installed (default_model config) None installed with
          | Some fallback =>
              Returned {| model := fallback; rule := Some "config_default";
                          task_type := task |}
          | None =>
              match installed with
              | first :: _ =>
                  Returned {| model := first; rule := Some "first_installed";
                              task_type := task |}
              | [] => Raised (Exn RuntimeError "No installed Ollama models available")
              end
          end
      end
  end.

(** Whether a rule could serve a request: it applies and one of its two
    models is installed. *)
Definition can_serve (r : RouterRule) (task : string) (quality : Z)
    (messages installed : list string) : bool :=
  rule_applies r task quality messages
  && (is_installed (Some (rule_model r)) installed
      || is_installed (fallback_model r) installed).

(** The rules [config_store.py] ships. *)
Definition DEFAULT_ROUTER_RULES : list RouterRule :=
  [ {| rule_name := "voice_fast"; rule_task_type := "voice"; min_quality := 0;
       max_quality := 60; rule_model := "llama3"; fallback_model := None;
       match_keywords := [] |};
    {| rule_name := "coding_quality"; rule_task_type := "coding"; min_quality := 61;
       max_quality := 100; rule_model := "codellama";
       fallback_model := Some "llama3"; match_keywords := [] |};
    {| rule_name := "qa_fast"; rule_task_type := "qa"; min_quality := 0;
       max_quality := 60; rule_model := "llama3"; fallback_model := None;
       match_keywords := [] |};
    {| rule_name := "reasoning_quality"; rule_task_type := "reasoning";
       min_quality := 61; max_quality := 100; rule_model := "llama3";
       fallback_model := None; match_keywords := [] |};
    {| rule_name := "fallback_any"; rule_task_type := "any"; min_quality := 0;
       max_quality := 100; rule_model := "llama3"; fallback_model := None;
       match_keywords := [] |} ].

Definition default_routing : RoutingConfig :=
  {| speed_quality := 50; rules := DEFAULT_ROUTER_RULES; default_model := None |}.

(* ------------------------------------------------------------------ *)
(** ** Gated endpoints ([main.py]) *)

(** What an endpoint answers: the value it returns, or the
    [HTTPException] it raises itself. *)
Inductive reply :=
| Reply (body : pyvalue)
| HTTPException (status_code : Z) (detail : pyvalue).

(** The parts of [AppConfig] the two endpoints read: [config.permissions]
    and [config.rag]. *)
Record AppConfig := { permissions : PermissionConfig; config_rag : RagConfig }.

(** [app.state], as far as the two endpoints use it; [app.state.approvals]
    is the world's one approval store.  Loading the configuration is a
    call into the configuration store. *)
Record AppState := {
  config_store_load : M AppConfig;
  state_rag : RagIndex;
  state_audit : AuditLogger;
  skill_manager : SkillManager }.

(** [logger.log({...})] with a dictionary literal. *)
Definition log_event (logger : AuditLogger) (event : pydict) : M unit :=
  payload ← new_dict event;
  log logger payload.

(** [result.model_dump(mode="json")]. *)
Definition tool_result_dump (r : ToolResult) : pyvalue :=
  let text (o : option string) := from_option VStr VNone o in
  VDict [("success", VBool (success r)); ("output", text (output r));
         ("error", text (error r)); ("metadata", VDict (metadata r))].

(** The payload of [/skills/run], for requests whose [skill] entry is a
    string when present and whose [input] entry is a dictionary when
    present. *)
Record SkillRequest := { skill : option string; input : option pydict }.

Section endpoints.
(** [os.path.abspath(os.path.expanduser(path))] of [sanitize_paths]. *)
Variable abspath : string -> string.
Variable exec_source : string -> M namespace_entry.

Definition sanitize_paths (paths : list string) : list string := map abspath paths.

(** The [for path in paths] loop of the [/rag/ingest] endpoint: the first
    decision that does not allow. *)
Fixpoint check_paths (policy : PolicyEngine) (paths : list string)
    : M (option ApprovalDecision) :=
  match paths with
  | [] => mret None
  | path :: rest =>
      decision ← check_file_read policy path;
      if negb (allowed decision) then mret (Some decision)
      else check_paths policy rest
  end.

(** The [/rag/ingest] endpoint. *)
Definition rag_ingest_endpoint (state : AppState) (request_paths : list string)
    : M reply :=
  current ← config_store_load state;
  let policy := {| config := permissions current |} in
  if negb (enabled (config_rag current))
  then mret (HTTPException 403 (VStr "RAG disabled"))
  else
    let paths := sanitize_paths request_paths in
    denied ← check_paths policy paths;
    match denied with
    | Some decision => mret (HTTPException 403 (model_dump decision))
    | None =>
        result ← ingest_paths (state_rag state) paths;
        _ ← emit (ERagIngest paths);
        _ ← log_event (state_audit state)
              [("tool", VStr "rag_ingest"); ("paths", VList (map VStr paths));
               ("decision", VStr "allowed")];
        mret (Reply (VDict result))
    end.

(** The [/skills/run] endpoint. *)
Definition run_skill (state : AppState) (payload : SkillRequest) : M reply :=
  match skill payload with
  | Some ((String _ _) as skill_name) =>
      let args := from_option id [] (input payload) in
      current ← config_store_load state;
      let policy := {| config := permissions current |} in
      decision ← check_skill policy skill_name;
      if negb (allowed decision)
      then mret (HTTPException 403 (model_dump decision))
      else
        result ← run exec_source (skill_manager state) skill_name args;
        _ ← log_event (state_audit state)
              [("tool", VStr "skill"); ("skill", VStr skill_name);
               ("decision", VStr "allowed")];
        mret (Reply (tool_result_dump result))
  | _ => mret (HTTPException 400 (VStr "Skill name required"))
  end.
End endpoints.

(** An application whose stored configuration has every tool switched
    off, and one with the tools on and an empty skills directory. *)
Definition locked_state : AppState :=
  {| config_store_load :=
       mret {| permissions := locked_config; config_rag := small_rag |};
     state_rag := no_rag; state_audit := hunter_logger;
     skill_manager := echo_manager |}.

Definition open_state : AppState :=
  {| config_store_load :=
       mret {| permissions := data_config; config_rag := small_rag |};
     state_rag := no_rag; state_audit := hunter_logger;
     skill_manager := echo_manager |}.


(* ------------------------------------------------------------------ *)
(** ** The scheduler's reader ([dreams.py]) *)

(** [str.lstrip()] and [str.rstrip()]. *)
Fixpoint lstrip (s : string) : string :=
  match s with
  | String c s' => if is_space c then lstrip s' else s
  | EmptyString => EmptyString
  end.

Fixpoint rstrip (s : string) : string :=
  match s with
  | EmptyString => EmptyString
  | String c s' =>
      match rstrip s' with
      | EmptyString => if is_space c then EmptyString else String c EmptyString
      | kept => String c kept
      end
  end.

(** [str.strip()]. *)
Definition strip (s : string) : string := rstrip (lstrip s).

(** What [read_jsonl_tail] makes of the text of a file. *)
Definition jsonl_entries (text : string) (tail : Z) : outcome (list pyvalue) :=
  load_lines (last_lines tail (splitlines (strip text))).

(** [read_jsonl_tail(path, tail)]. *)
Definition read_jsonl_tail (path : PurePath) (tail : Z) : M (list pyvalue) :=
  found ← path_exists path;
  if negb found then mret []
  else
    text ← read_text path;
    match jsonl_entries text tail with
    | Raised e => raise e
    | Returned entries => mret entries
    end.

(** The text of a file that holds the given pieces, one after another. *)
Definition joined (pieces : list string) : string :=
  foldr String.append EmptyString pieces.

(** A world whose only file is a journal with the given text. *)
Definition journal_of (text : string) : World :=
  with_files empty_world
    {[ ["data"] := Dir; ["data"; "dream_journal.jsonl"] := File text ]}.

(** A text ends with a character that is not white space. *)
Definition ends_solid (text : string) : Prop :=
  exists t c, text = t +:+ String c EmptyString /\ is_space c = false.


(* ------------------------------------------------------------------ *)
(** ** Numbering configuration diffs ([config_store.py]) *)

Record ConfigStore := { data_dir : PurePath }.

Definition diff_dir (self : ConfigStore) : PurePath :=
  joinpath (data_dir self) "config_diffs".

(** [s.endswith(suffix)]. *)
Fixpoint ends_with (suffix s : string) : bool :=
  bool_decide (s = suffix) ||
  match s with
  | String _ s' => ends_with suffix s'
  | EmptyString => false
  end.

(** The names the pattern [diff_*.json] matches. *)
Definition matches_diff (name : string) : bool :=
  match strip_prefix "diff_" name with
  | Some rest => ends_with ".json" rest
  | None => false
  end.

(** [sorted] on paths of one directory: by name, code point by code
    point. *)
Fixpoint insert_sorted (x : string) (l : list string) : list string :=
  match l with
  | [] => [x]
  | y :: l' => if String.leb x y then x :: l else y :: insert_sorted x l'
  end.

Fixpoint sorted (l : list string) : list string :=
  match l with
  | [] => []
  | x :: l' => insert_sorted x (sorted l')
  end.

(** [s.rpartition(sep)] without the separator; [None] when [sep] does not
    occur. *)
Fixpoint rpartition (sep : ascii) (s : string) : option (string * string) :=
  match s with
  | EmptyString => None
  | String c s' =>
      match rpartition sep s' with
      | Some (before, after) => Some (String c before, after)
      | None => if bool_decide (c = sep) then Some (EmptyString, s') else None
      end
  end.

(** [path.stem]: the name without its last suffix; a dot at either end
    of the name starts no suffix. *)
Definition stem (name : string) : string :=
  match rpartition "." name with
  | Some (String c before, String d after) => String c before
  | _ => name
  end.

(** [s.split("_")[-1]]. *)
Definition last_segment (s : string) : string :=
  match rpartition "_" s with
  | Some (_, after) => after
  | None => s
  end.

(** [int(s)] for a string without an underscore: white space around, one
    sign, decimal digits.  [None] is a [ValueError]. *)
Definition int_of (s : string) : option Z :=
  let unsigned (ds : string) :=
    match ds with
    | EmptyString => None
    | _ => if all_chars is_digit ds then Some (fst (parse_digits ds 0)) else None
    end in
  match strip s with
  | String "+" ds => unsigned ds
  | String "-" ds => Z.opp <$> unsigned ds
  | ds => unsigned ds
  end.

(** [s.rjust(width, "0")]. *)
Definition zfill (width : nat) (s : string) : string :=
  zeros (width - String.length s) +:+ s.

(** [f"{n:04d}"]: the sign counts for the width. *)
Definition format_04d (n : Z) : string :=
  if n <? 0 then "-" +:+ zfill 3 (pretty (- n)) else zfill 4 (pretty n).

(** The identifier that follows the file name [last]. *)
Definition id_after (last : string) : string :=
  match int_of (last_segment (stem last)) with
  | Some n => format_04d (n + 1)
  | None => "0001"
  end.

(** [_next_diff_id]; the glob enumerates the entries of the directory. *)
Definition _next_diff_id (self : ConfigStore) : M string :=
  base ← path_resolve (diff_dir self);
  fs ← read files;
  let existing := sorted (filter (fun name => matches_diff name = true) (listdir fs base)) in
  match last existing with
  | None => mret "0001"
  | Some name => mret (id_after name)
  end.

(** The name of the diff file with a given identifier. *)
Definition diff_name (id : string) : string := "diff_" +:+ id +:+ ".json".

(** [name] is the matching name that sorts last among [names]. *)
Definition sorts_last (names : list string) (name : string) : Prop :=
  name ∈ names /\ matches_diff name = true /\
  forall other, other ∈ names -> matches_diff other = true ->
                String.leb other name = true.

(** A store at [/data] with two diffs written. *)
Definition data_store : ConfigStore := {| data_dir := Path "/data" |}.

Definition two_diffs_world : World :=
  with_files empty_world
    {[ ["data"] := Dir; ["data"; "config_diffs"] := Dir;
       ["data"; "config_diffs"; "diff_0001.json"] := File "{}";
       ["data"; "config_diffs"; "diff_0002.json"] := File "{}" ]}.

(** The same store after 9999 diffs, of which the last two are left, and
    after one more. *)
Definition full_world : World :=
  with_files empty_world
    {[ ["data"] := Dir; ["data"; "config_diffs"] := Dir;
       ["data"; "config_diffs"; "diff_9998.json"] := File "{}";
       ["data"; "config_diffs"; "diff_9999.json"] := File "{}" ]}.

Definition overfull_world : World :=
  with_files empty_world
    {[ ["data"] := Dir; ["data"; "config_diffs"] := Dir;
       ["data"; "config_diffs"; "diff_9998.json"] := File "{}";
       ["data"; "config_diffs"; "diff_9999.json"] := File "{}";
       ["data"; "config_diffs"; "diff_10000.json"] := File "{}" ]}.

(** The step from the identifier [n] to the next, checked on one number:
    the name with [n] gives the identifier [n + 1], whose name matches the
    pattern and sorts after the name with [n]. *)
Definition step_ok (n : Z) : bool :=
  let this := diff_name (format_04d n) in
  let next := diff_name (format_04d (n + 1)) in
  String.eqb (id_after this) (format_04d (n + 1))
  && matches_diff next && negb (String.leb next this).

(** The [count] integers from [start] on. *)
Fixpoint count_from (count : nat) (start : Z) : list Z :=
  match count with
  | O => []
  | S count' => start :: count_from count' (start + 1)
  end.

(* ================================================================== *)
(** * Properties *)

Ltac run_m :=
  repeat (cbn [mbind mret M_bind M_ret] ||
          unfold mbind, mret, M_bind, M_ret, read, raise, datetime_now,
                 path_resolve).

(* ------------------------------------------------------------------ *)
(** ** Policy engine *)

Lemma is_relative_to_spec (self other : list string) :
  is_relative_to self other = true <-> exists rest, self = (other ++ rest)%list.
Proof.
  revert self. induction other as [|o other IH]; intros self; simpl.
  - split; [intros _; by exists self | done].
  - destruct self as [|s self].
    + split; [discriminate | intros [rest H]; discriminate].
    + rewrite andb_true_iff, bool_decide_eq_true, IH. split.
      * intros [-> [rest ->]]. eauto.
      * intros [rest H]. injection H as -> ->. eauto.
Qed.

Lemma path_allowlisted_spec (resolved : list string) (allowlist : list string) (w : World) :
  exists b, path_allowlisted resolved allowlist w = (Returned b, w) /\
    (b = true <-> exists entry, entry ∈ allowlist /\
                   is_relative_to resolved (resolve w (Path entry)) = true).
Proof.
  induction allowlist as [|entry rest IH]; simpl.
  - exists false. split; [reflexivity|]. split; [discriminate|].
    intros (e & He & _). by apply elem_of_nil in He.
  - run_m. destruct (is_relative_to resolved (resolve w (Path entry))) eqn:E.
    + exists true. split; [reflexivity|]. split; [|done].
      intros _. exists entry. split; [left | done].
    + destruct IH as (b & Hrun & Hb). exists b. split; [exact Hrun|].
      rewrite Hb. split.
      * intros (e & He & Hrel). exists e. split; [by right | done].
      * intros (e & He & Hrel). apply elem_of_cons in He as [-> | He].
        -- congruence.
        -- eauto.
Qed.

Lemma is_approved_run (sc : string) (w : World) :
  is_approved sc w =
  (scan_records (records w) (clock w) sc, snd (emit (ELedgerScan sc) w)).
Proof.
  unfold is_approved. run_m. cbn [emit snd records clock].
  by destruct (scan_records (records w) (clock w) sc).
Qed.

(** What an answer of the loop says about the records. *)
Lemma scan_records_spec (rs : list ApprovalRecord) (now : datetime) (sc : string)
    (answer : bool) :
  scan_records rs now sc = Returned answer ->
  answer = true <-> exists r, r ∈ rs /\ live_grant now sc r.
Proof.
  induction rs as [|r rs IH]; cbn [scan_records].
  - intros [= <-]. split; [discriminate|].
    intros (r & Hr & _). by apply elem_of_nil in Hr.
  - unfold live_grant in *.
    destruct (bool_decide (scope r = sc)) eqn:Hs; cbn [negb].
    + apply bool_decide_eq_true in Hs.
      destruct (expires_at r) as [[t|z]|] eqn:Ht.
      * destruct (t <? now) eqn:Hlt.
        -- apply Z.ltb_lt in Hlt. intros Hrun. rewrite (IH Hrun). split.
           ++ intros (r' & Hr' & H'). exists r'. split; [by right | done].
           ++ intros (r' & Hr' & H1 & H2). apply elem_of_cons in Hr' as [-> | Hr'].
              ** rewrite Ht in H2. lia.
              ** eauto.
        -- apply Z.ltb_ge in Hlt. intros [= <-]. split; [|done]. intros _.
           exists r. split; [left|]. rewrite Ht. done.
      * discriminate.
      * intros [= <-]. split; [|done]. intros _. exists r.
        split; [left|]. by rewrite Ht.
    + apply bool_decide_eq_false in Hs. intros Hrun. rewrite (IH Hrun). split.
      * intros (r' & Hr' & H'). exists r'. split; [by right | done].
      * intros (r' & Hr' & H1 & H2). apply elem_of_cons in Hr' as [-> | Hr'].
        -- done.
        -- eauto.
Qed.

(** The loop answers when no record of the scope has a naive expiry. *)
Lemma scan_records_answers (rs : list ApprovalRecord) (now : datetime) (sc : string) :
  (forall r z, r ∈ rs -> scope r = sc -> expires_at r <> Some (Naive z)) ->
  exists answer, scan_records rs now sc = Returned answer.
Proof.
  induction rs as [|r rs IH]; intros Haware; cbn [scan_records]; [eauto|].
  assert (Hrest : exists answer, scan_records rs now sc = Returned answer).
  { apply IH. intros r' z Hr'. apply Haware. by right. }
  destruct (bool_decide (scope r = sc)) eqn:Hs; cbn [negb]; [|done].
  apply bool_decide_eq_true in Hs.
  destruct (expires_at r) as [[t|z]|] eqn:Ht.
  - destruct (t <? now); eauto.
  - exfalso. apply (Haware r z); [left | done | done].
  - eauto.
Qed.

(** C1 (gate precedence).  When the capability class of a check is switched
    off ([tools_enabled] false, or [terminal_enabled] false for a terminal
    command), the check returns a denial with [requires_approval] set and
    leaves the world as it found it: nothing is added to the trace, so the
    approval store is not scanned, and neither the allowlists nor the
    store's records have any say. *)
Theorem gate_precedence (self : PolicyEngine) (kind : capability)
    (target : string) (w : World) :
  class_disabled (config self) kind = true ->
  exists d, evaluate self kind target w = (Returned d, w) /\
            allowed d = false /\ requires_approval d = true.
Proof.
  unfold class_disabled, evaluate, check_file_read, check_file_write,
    _check_path, check_terminal, check_skill.
  intros H. destruct kind, (tools_enabled (config self)); simpl in *;
    try discriminate; try (eexists; split; [reflexivity | done]).
  rewrite H. eexists; split; [reflexivity | done].
Qed.

(** The switch wins over a matching allowlist entry and a standing grant. *)
Lemma gate_precedence_witness :
  exists d,
    evaluate {| config := locked_config |} Terminal "git status"
      (with_records empty_world
         [{| scope := "terminal:git status"; expires_at := None |}])
    = (Returned d,
       with_records empty_world
         [{| scope := "terminal:git status"; expires_at := None |}]) /\
    allowed d = false /\ requires_approval d = true.
Proof. apply gate_precedence. reflexivity. Defined.

(** The decision of the approval stage, from the loop's answer. *)
Lemma check_path_run (self : PolicyEngine) (path : string)
    (allowlist : list string) (prefix : string) (w : World) :
  tools_enabled (config self) = true ->
  (contained_in w path allowlist ->
   _check_path self path allowlist prefix w =
   (Returned {| allowed := true; reason := "Allowlisted path";
                decision_scope := make_scope prefix path;
                requires_approval := false |}, w)) /\
  (~ contained_in w path allowlist ->
   _check_path self path allowlist prefix w =
   (match scan_records (records w) (clock w) (make_scope prefix path) with
    | Returned answer =>
        Returned {| allowed := answer;
                    reason := if answer then "Approved path"
                              else "Path not allowlisted";
                    decision_scope := make_scope prefix path;
                    requires_approval := negb answer |}
    | Raised e => Raised e
    end, snd (emit (ELedgerScan (make_scope prefix path)) w))).
Proof.
  intros Hen. unfold _check_path. rewrite Hen. simpl. run_m.
  destruct (path_allowlisted_spec (resolve w (Path path)) allowlist w)
    as (b & Hrun & Hb).
  rewrite Hrun.
  assert (Hc : b = true <-> contained_in w path allowlist).
  { rewrite Hb. unfold contained_in. split.
    - intros (e & He & Hrel). apply is_relative_to_spec in Hrel as [rest Hrest].
      eauto.
    - intros (e & rest & He & Hrest). exists e. split; [done|].
      apply is_relative_to_spec. eauto. }
  split.
  - intros Hin. apply Hc in Hin. subst b. reflexivity.
  - intros Hout. destruct b; [exfalso; apply Hout, Hc; reflexivity|].
    rewrite is_approved_run. cbn [fst snd].
    by destruct (scan_records (records w) (clock w) (make_scope prefix path))
      as [[]|e].
Qed.

(** C2 (allowlist containment).  With tools enabled, a file-read or
    file-write check that returns allows the path on the static stage
    exactly when the resolved request equals a resolved allowlist entry or
    lies below one: then the decision is "Allowlisted path" and the world
    is untouched.  Otherwise the static stage does not allow it and the
    decision is the approval store's: it is allowed only by a live grant
    for its scope, whatever string prefix the path shares with an entry. *)
Theorem allowlist_containment (self : PolicyEngine) (kind : capability)
    (path : string) (w w' : World) (d : ApprovalDecision) :
  tools_enabled (config self) = true ->
  kind = FileRead \/ kind = FileWrite ->
  evaluate self kind path w = (Returned d, w') ->
  (contained_in w path (file_allowlist (config self) kind) ->
   w' = w /\ allowed d = true /\ reason d = "Allowlisted path" /\
   requires_approval d = false) /\
  (~ contained_in w path (file_allowlist (config self) kind) ->
   reason d <> "Allowlisted path" /\
   requires_approval d = negb (allowed d) /\
   (allowed d = true <->
    exists r, r ∈ records w /\ live_grant (clock w) (decision_scope d) r)).
Proof.
  intros Hen Hkind Hrun.
  assert (Hgen : forall allowlist prefix,
             _check_path self path allowlist prefix w = (Returned d, w') ->
             (contained_in w path allowlist ->
              w' = w /\ allowed d = true /\ reason d = "Allowlisted path" /\
              requires_approval d = false) /\
             (~ contained_in w path allowlist ->
              reason d <> "Allowlisted path" /\
              requires_approval d = negb (allowed d) /\
              (allowed d = true <->
               exists r, r ∈ records w /\
                         live_grant (clock w) (decision_scope d) r))).
  { intros allowlist prefix Hcheck.
    destruct (check_path_run self path allowlist prefix w Hen) as [Hin Hout].
    split.
    - intros Hc. rewrite (Hin Hc) in Hcheck. by injection Hcheck as <- <-.
    - intros Hc. rewrite (Hout Hc) in Hcheck.
      destruct (scan_records (records w) (clock w) (make_scope prefix path))
        as [answer|e] eqn:Hscan; [|discriminate].
      injection Hcheck as <- <-. cbn [allowed reason decision_scope requires_approval].
      split; [by destruct answer|]. split; [done|].
      exact (scan_records_spec _ _ _ _ Hscan). }
  destruct Hkind as [-> | ->]; cbn [evaluate file_allowlist] in *.
  - exact (Hgen _ _ Hrun).
  - exact (Hgen _ _ Hrun).
Qed.

Lemma data_other_outside :
  ~ contained_in empty_world "/data-other/secret"
      (file_allowlist data_config FileRead).
Proof.
  intros (entry & rest & Hin & Heq). simpl in Hin.
  apply list_elem_of_singleton in Hin. subst entry.
  vm_compute in Heq. discriminate Heq.
Qed.

Lemma data_traversal_outside :
  ~ contained_in empty_world "/data/../etc/passwd"
      (file_allowlist data_config FileRead).
Proof.
  intros (entry & rest & Hin & Heq). simpl in Hin.
  apply list_elem_of_singleton in Hin. subst entry.
  vm_compute in Heq. discriminate Heq.
Qed.

Lemma data_notes_inside :
  contained_in empty_world "/data/notes/today.txt"
    (file_allowlist data_config FileRead).
Proof. exists "/data", ["notes"; "today.txt"]. split; [left | reflexivity]. Qed.

(** Under the resolution of a file system without symbolic links, with
    the allowlist [/data] and an empty store: [/data/notes/today.txt] is
    allowed as it stands, and both [/data-other/secret], which shares the
    prefix, and [/data/../etc/passwd], which leaves by [..], are denied. *)
Lemma allowlist_containment_witness :
  (exists d,
     evaluate {| config := data_config |} FileRead "/data/notes/today.txt"
       empty_world = (Returned d, empty_world) /\
     allowed d = true /\ reason d = "Allowlisted path") /\
  (exists d w',
     evaluate {| config := data_config |} FileRead "/data-other/secret"
       empty_world = (Returned d, w') /\
     allowed d = false /\ requires_approval d = true) /\
  (exists d w',
     evaluate {| config := data_config |} FileRead "/data/../etc/passwd"
       empty_world = (Returned d, w') /\
     allowed d = false /\ requires_approval d = true).
Proof.
  set (policy := {| config := data_config |}).
  set (refusal := fun path =>
         {| allowed := false; reason := "Path not allowlisted";
            decision_scope := make_scope "file_read" path;
            requires_approval := true |}).
  set (scanned := fun path =>
         snd (emit (ELedgerScan (make_scope "file_read" path)) empty_world)).
  split; [|split].
  - eexists. split; [reflexivity|].
    destruct (allowlist_containment policy FileRead "/data/notes/today.txt"
                empty_world empty_world _ eq_refl (or_introl eq_refl) eq_refl)
      as [Hin _].
    destruct (Hin data_notes_inside) as (_ & Hal & Hreason & _). done.
  - exists (refusal "/data-other/secret"), (scanned "/data-other/secret").
    split; [reflexivity|].
    destruct (allowlist_containment policy FileRead "/data-other/secret"
                empty_world (scanned "/data-other/secret")
                (refusal "/data-other/secret") eq_refl (or_introl eq_refl) eq_refl)
      as [_ Hout].
    destruct (Hout data_other_outside) as (_ & Hreq & _). done.
  - exists (refusal "/data/../etc/passwd"), (scanned "/data/../etc/passwd").
    split; [reflexivity|].
    destruct (allowlist_containment policy FileRead "/data/../etc/passwd"
                empty_world (scanned "/data/../etc/passwd")
                (refusal "/data/../etc/passwd") eq_refl (or_introl eq_refl) eq_refl)
      as [_ Hout].
    destruct (Hout data_traversal_outside) as (_ & Hreq & _). done.
Defined.

(** When [is_approved] answers, it answers [True] exactly when the store
    holds a record of that very scope whose expiry is absent or an aware
    instant not before the evaluation time. *)
Lemma is_approved_answer (sc : string) (w w' : World) (answer : bool) :
  is_approved sc w = (Returned answer, w') ->
  w' = snd (emit (ELedgerScan sc) w) /\
  (answer = true <-> exists r, r ∈ records w /\ live_grant (clock w) sc r).
Proof.
  rewrite is_approved_run. intros [= Hscan <-]. split; [done|].
  exact (scan_records_spec _ _ _ _ Hscan).
Qed.

(** C3 (ledger expiry and exact scope).  The claim fails on the code where
    a stored expiry is a naive datetime, which [ApprovalRequest] accepts:
    the comparison with the aware [now] raises [TypeError].  With such a
    record of the scope first in the store, [is_approved] raises for that
    scope although a grant without expiry for the very same scope follows,
    whatever else the store holds. *)
Theorem naive_expiry_breaks_ledger (sc : string) (wall : Z)
    (rest : list ApprovalRecord) (w : World) :
  let store := {| scope := sc; expires_at := Some (Naive wall) |}
               :: {| scope := sc; expires_at := None |} :: rest in
  is_approved sc (with_records w store)
  = (Raised naive_comparison,
     snd (emit (ELedgerScan sc) (with_records w store))).
Proof.
  intros store. rewrite is_approved_run. f_equal.
  cbn [records with_records store scan_records scope expires_at].
  by rewrite bool_decide_eq_true_2.
Qed.

(* ------------------------------------------------------------------ *)
(** ** Audit logger *)

Lemma string_leaves_redact (self : AuditLogger) (v : pyvalue) :
  string_leaves (_redact self v) = map (redact_string self) (string_leaves v).
Proof.
  induction v as [| | | |items IH|entries IH|] using pyvalue_rect'; simpl; try done.
  - induction IH as [|x l Hx _ IHl]; simpl; [done|].
    by rewrite map_app, Hx, IHl.
  - induction IH as [|[k x] l Hx _ IHl]; simpl in *; [done|].
    by rewrite map_app, Hx, IHl.
Qed.

Lemma skeleton_redact (self : AuditLogger) (v : pyvalue) :
  skeleton (_redact self v) = skeleton v.
Proof.
  induction v as [| | | |items IH|entries IH|] using pyvalue_rect'; simpl; try done.
  - f_equal. induction IH as [|x l Hx _ IHl]; simpl; [done|]. by rewrite Hx, IHl.
  - f_equal. induction IH as [|[k x] l Hx _ IHl]; simpl in *; [done|].
    by rewrite Hx, IHl.
Qed.

Lemma redact_twice (self : AuditLogger) (v : pyvalue) :
  (forall s, s ∈ string_leaves v ->
             redact_string self (redact_string self s) = redact_string self s) ->
  _redact self (_redact self v) = _redact self v.
Proof.
  induction v as [| | | |items IH|entries IH|] using pyvalue_rect'; simpl; try done.
  - intros H. f_equal. apply H. left.
  - intros H. f_equal. induction IH as [|x l Hx _ IHl]; simpl in *; [done|].
    rewrite Hx, IHl; [done | |]; intros s Hs; apply H, elem_of_app; auto.
  - intros H. f_equal. induction IH as [|[k x] l Hx _ IHl]; simpl in *; [done|].
    rewrite Hx, IHl; [done | |]; intros s Hs; apply H, elem_of_app; auto.
Qed.

Lemma serializable_redact (self : AuditLogger) (v : pyvalue) :
  serializable (_redact self v) = serializable v.
Proof.
  induction v as [| | | |items IH|entries IH|] using pyvalue_rect'; simpl; try done.
  - induction IH as [|x l Hx _ IHl]; simpl; [done|]. by rewrite Hx, IHl.
  - induction IH as [|[k x] l Hx _ IHl]; simpl in *; [done|]. by rewrite Hx, IHl.
Qed.

(** [json.dumps] returns on a value without foreign objects and raises
    [TypeError] on any other. *)
Lemma json_dumps_serializable (v : pyvalue) :
  if serializable v
  then exists text, json_dumps v = Returned text
  else exists e, json_dumps v = Raised e /\ exc_type e = TypeError.
Proof.
  induction v as [|b|n|s|items IH|entries IH|t] using pyvalue_rect'; simpl;
    try (eexists; reflexivity).
  - destruct b; eexists; reflexivity.
  - assert (H : forall first,
               if forallb serializable items
               then exists body, dumps_items json_dumps items first = Returned body
               else exists e, dumps_items json_dumps items first = Raised e /\
                              exc_type e = TypeError).
    { induction IH as [|x l Hx _ IHl]; intros first; simpl.
      - eexists; reflexivity.
      - destruct (serializable x); simpl.
        + destruct Hx as [sx ->]. specialize (IHl false).
          destruct (forallb serializable l).
          * destruct IHl as [rest ->]. eexists; reflexivity.
          * destruct IHl as (e & -> & He). eauto.
        + destruct Hx as (e & -> & He). eauto. }
    specialize (H true). destruct (forallb serializable items).
    + destruct H as [body ->]. eexists; reflexivity.
    + destruct H as (e & -> & He). eauto.
  - assert (H : forall first,
               if forallb (fun '(_, val) => serializable val) entries
               then exists body, dumps_entries json_dumps entries first = Returned body
               else exists e, dumps_entries json_dumps entries first = Raised e /\
                              exc_type e = TypeError).
    { induction IH as [|[k x] l Hx _ IHl]; intros first; simpl in *.
      - eexists; reflexivity.
      - destruct (serializable x); simpl.
        + destruct Hx as [sx ->]. specialize (IHl false).
          destruct (forallb _ l).
          * destruct IHl as [rest ->]. eexists; reflexivity.
          * destruct IHl as (e & -> & He). eauto.
        + destruct Hx as (e & -> & He). eauto. }
    specialize (H true). destruct (forallb _ entries).
    + destruct H as [body ->]. eexists; reflexivity.
    + destruct H as (e & -> & He). eauto.
  - eexists. split; reflexivity.
Qed.

(** What one call of [log] does, step by step. *)
Lemma log_run (self : AuditLogger) (payload : nat) (d : pydict) (w : World) :
  heap w !! payload = Some d ->
  log self payload w =
  let w1 := with_heap w (<[payload := stamped w d]> (heap w)) in
  match json_dumps (_redact self (VDict (stamped w d))) with
  | Raised e => (Raised e, w1)
  | Returned text => (Returned tt, with_audit_line w1 (text +:+ newline))
  end.
Proof.
  intros Hd. unfold log, deref. run_m. rewrite Hd. simpl.
  rewrite lookup_insert_eq. unfold stamped.
  destruct (dumps_entries _ _ _); reflexivity.
Qed.

Lemma dict_get_set_eq {V} (d : list (string * V)) (key : string) (value : V) :
  dict_get (dict_set d key value) key = Some value.
Proof.
  induction d as [|[k v] d IH]; simpl.
  - by rewrite bool_decide_eq_true_2.
  - destruct (bool_decide (k = key)) eqn:E; simpl; rewrite E; done.
Qed.

Lemma dict_get_set_ne {V} (d : list (string * V)) (key other : string) (value : V) :
  other <> key -> dict_get (dict_set d key value) other = dict_get d other.
Proof.
  intros Hne. induction d as [|[k v] d IH]; simpl.
  - by rewrite bool_decide_eq_false_2.
  - destruct (bool_decide (k = key)) eqn:E; simpl.
    + apply bool_decide_eq_true in E. subst k.
      by rewrite bool_decide_eq_false_2.
    + by rewrite IH.
Qed.

Lemma serializable_stamped (w : World) (d : pydict) :
  serializable (VDict d) = true -> serializable (VDict (stamped w d)) = true.
Proof.
  unfold stamped. simpl. induction d as [|[k v] d IH]; simpl; [done|].
  intros [Hv Hd]%andb_true_iff.
  destruct (bool_decide (k = "timestamp")); simpl; [done|].
  by rewrite Hv, IH.
Qed.

(** C6, as the code has it.  Redaction rewrites every string value of a
    payload, through lists and dictionary values, with the configured
    pattern pipeline, and changes nothing else: shape, numbers, booleans,
    nulls and dictionary keys are kept.  Redacting twice equals redacting
    once whenever the pipeline is idempotent on the payload's string values.
    The line [log] appends for a serializable payload is the JSON text of
    the redacted, time-stamped payload. *)
Theorem redaction_reaches_every_string_value (self : AuditLogger) (v : pyvalue) :
  string_leaves (_redact self v) = map (redact_string self) (string_leaves v) /\
  skeleton (_redact self v) = skeleton v /\
  ((forall s, s ∈ string_leaves v ->
              redact_string self (redact_string self s) = redact_string self s) ->
   _redact self (_redact self v) = _redact self v) /\
  (forall payload d w,
      heap w !! payload = Some d -> serializable (VDict d) = true ->
      exists text,
        json_dumps (_redact self (VDict (stamped w d))) = Returned text /\
        fst (log self payload w) = Returned tt /\
        audit_file (snd (log self payload w)) = (audit_file w ++ [text +:+ newline])%list).
Proof.
  split; [apply string_leaves_redact|]. split; [apply skeleton_redact|].
  split; [apply redact_twice|].
  intros payload d w Hd Hser. rewrite (log_run self payload d w Hd).
  pose proof (json_dumps_serializable (_redact self (VDict (stamped w d)))) as H.
  rewrite serializable_redact, (serializable_stamped w d Hser) in H.
  destruct H as [text Htext]. exists text. cbv zeta. rewrite Htext. done.
Qed.

(** On a payload whose string values the pipeline settles in one pass,
    a second redaction changes nothing. *)
Lemma redaction_reaches_every_string_value_witness :
  _redact hunter_logger (_redact hunter_logger (VDict login_payload))
  = _redact hunter_logger (VDict login_payload).
Proof.
  apply (redaction_reaches_every_string_value hunter_logger (VDict login_payload)).
  intros s Hs. simpl in Hs.
  repeat (apply elem_of_cons in Hs as [-> | Hs]; [vm_compute; reflexivity|]).
  by apply elem_of_nil in Hs.
Defined.

(** C6 as stated fails twice over: with the pattern [act] a second
    redaction rewrites the marker the first one left, and with the pattern
    [hunter2] a dictionary key carrying the secret reaches the audit file
    verbatim. *)
Lemma redaction_twice_differs_and_keys_leak :
  _redact act_logger (_redact act_logger note_payload)
    <> _redact act_logger note_payload /\
  exists line,
    audit_file (snd (log hunter_logger 0
                       (with_heap empty_world {[ 0%nat := leaky_payload ]})))
      = [line] /\
    search (re_compile_literal "hunter2") line = true.
Proof.
  split.
  - vm_compute. discriminate.
  - eexists. split; vm_compute; reflexivity.
Qed.

(** C8, as the code has it.  [log] stamps the caller's dictionary, and then
    either the redacted payload serializes and exactly one line is appended
    to the audit file, or it holds an object [json.dumps] refuses and the
    [TypeError] is raised to the caller with nothing written. *)
Theorem log_raises_on_unserializable (self : AuditLogger) (payload : nat)
    (d : pydict) (w : World) :
  heap w !! payload = Some d ->
  let w1 := with_heap w (<[payload := stamped w d]> (heap w)) in
  if serializable (VDict (stamped w d))
  then exists text,
         json_dumps (_redact self (VDict (stamped w d))) = Returned text /\
         log self payload w = (Returned tt, with_audit_line w1 (text +:+ newline))
  else exists e,
         exc_type e = TypeError /\ log self payload w = (Raised e, w1) /\
         audit_file w1 = audit_file w.
Proof.
  intros Hd w1. rewrite (log_run self payload d w Hd). cbv zeta. fold w1.
  pose proof (json_dumps_serializable (_redact self (VDict (stamped w d)))) as H.
  rewrite serializable_redact in H.
  destruct (serializable (VDict (stamped w d))).
  - destruct H as [text Htext]. exists text. by rewrite Htext.
  - destruct H as (e & He & Hty). exists e. by rewrite He.
Qed.

Lemma log_raises_on_unserializable_witness :
  exists e,
    exc_type e = TypeError /\
    log hunter_logger 0 (with_heap empty_world {[ 0%nat := opaque_payload ]})
    = (Raised e,
       with_heap (with_heap empty_world {[ 0%nat := opaque_payload ]})
         (<[0%nat := stamped empty_world opaque_payload]>
            {[ 0%nat := opaque_payload ]})) /\
    audit_file empty_world = [].
Proof.
  exact (log_raises_on_unserializable hunter_logger 0 opaque_payload
           (with_heap empty_world {[ 0%nat := opaque_payload ]}) eq_refl).
Defined.

(** C8 as stated fails: a payload holding a set makes [log] raise. *)
Lemma log_raises_type_error :
  fst (log hunter_logger 0 (with_heap empty_world {[ 0%nat := opaque_payload ]}))
  = Raised (Exn TypeError "Object of type set is not JSON serializable") /\
  audit_file (snd (log hunter_logger 0
                     (with_heap empty_world {[ 0%nat := opaque_payload ]}))) = [].
Proof. split; vm_compute; reflexivity. Qed.

(** C10 (log mutates its argument).  Whatever [log] then does, the
    caller's own dictionary holds the injected time stamp afterwards, every
    other key still maps to the caller's original, unredacted value, and no
    other object changed; the line that was written, if one was, comes from
    the redacted copy. *)
Theorem log_mutates_argument (self : AuditLogger) (payload : nat)
    (d : pydict) (w : World) :
  heap w !! payload = Some d ->
  exists r w',
    log self payload w = (r, w') /\
    heap w' !! payload = Some (stamped w d) /\
    dict_get (stamped w d) "timestamp" = Some (VStr (isoformat (clock w))) /\
    (forall key, key <> "timestamp" ->
                 dict_get (stamped w d) key = dict_get d key) /\
    (forall other, other <> payload -> heap w' !! other = heap w !! other) /\
    (r = Returned tt ->
     exists text,
       json_dumps (_redact self (VDict (stamped w d))) = Returned text /\
       audit_file w' = (audit_file w ++ [text +:+ newline])%list).
Proof.
  intros Hd. rewrite (log_run self payload d w Hd). cbv zeta.
  destruct (json_dumps (_redact self (VDict (stamped w d)))) as [text|e] eqn:E;
    eexists _, _; (split; [reflexivity|]); simpl;
    (split; [apply lookup_insert_eq|]);
    (split; [apply dict_get_set_eq|]);
    (split; [intros key Hk; by apply dict_get_set_ne|]);
    (split; [intros other Ho; by apply lookup_insert_ne|]).
  - intros _. eauto.
  - discriminate.
Qed.

(** The caller keeps ["pw hunter2!"] while the file gets the redacted text. *)
Lemma log_mutates_argument_witness :
  exists r w',
    log hunter_logger 0 (with_heap empty_world {[ 0%nat := login_payload ]}) = (r, w') /\
    heap w' !! 0%nat = Some (stamped empty_world login_payload) /\
    dict_get (stamped empty_world login_payload) "secret" = Some (VStr "pw hunter2!").
Proof.
  assert (Hd : heap (with_heap empty_world {[ 0%nat := login_payload ]}) !! 0%nat
               = Some login_payload) by reflexivity.
  destruct (log_mutates_argument hunter_logger 0 login_payload
              (with_heap empty_world {[ 0%nat := login_payload ]}) Hd)
    as (r & w' & Hrun & Hheap & _ & Hkeep & _).
  exists r, w'. split; [exact Hrun|]. split; [exact Hheap|].
  transitivity (dict_get login_payload "secret"); [|reflexivity].
  exact (Hkeep "secret" ltac:(discriminate)).
Defined.

(* ------------------------------------------------------------------ *)
(** ** Skill context *)

(** However a capability check ends, it leaves the world alone or scans
    the approval store once, for its scope. *)
Lemma evaluate_frame (self : PolicyEngine) (kind : capability) (target : string)
    (w : World) :
  exists r w', evaluate self kind target w = (r, w') /\
    (w' = w \/
     w' = snd (emit (ELedgerScan (make_scope (kind_prefix kind) target)) w)).
Proof.
  assert (Hpath : forall allowlist prefix,
             exists r w', _check_path self target allowlist prefix w = (r, w') /\
               (w' = w \/ w' = snd (emit (ELedgerScan (make_scope prefix target)) w))).
  { intros allowlist prefix. unfold _check_path.
    destruct (tools_enabled (config self)); simpl; [|eauto 6].
    run_m.
    destruct (path_allowlisted_spec (resolve w (Path target)) allowlist w)
      as (b & -> & _).
    destruct b; [eauto 6|]. rewrite is_approved_run. cbn [fst snd].
    destruct (scan_records _ _ _) as [[]|e]; eauto 6. }
  destruct kind; cbn [evaluate kind_prefix].
  - apply Hpath.
  - apply Hpath.
  - unfold check_terminal. destruct (_ || _); [eauto 6|].
    destruct (bool_decide _); [eauto 6|].
    run_m. rewrite is_approved_run. cbn [fst snd].
    destruct (scan_records _ _ _) as [[]|e]; eauto 6.
  - unfold check_skill. destruct (negb _); [eauto 6|].
    destruct (bool_decide _); [eauto 6|].
    run_m. rewrite is_approved_run. cbn [fst snd].
    destruct (scan_records _ _ _) as [[]|e]; eauto 6.
Qed.

Lemma evaluate_quiet (self : PolicyEngine) (kind : capability) (target : string)
    (w w' : World) (d : ApprovalDecision) :
  evaluate self kind target w = (Returned d, w') -> quiet w w'.
Proof.
  intros Hrun.
  destruct (evaluate_frame self kind target w) as (r0 & w0 & Hrun0 & Hw).
  rewrite Hrun in Hrun0. injection Hrun0 as _ <-.
  destruct Hw as [-> | ->]; unfold quiet; simpl.
  - repeat split. exists []. split; [by rewrite app_nil_r | constructor].
  - repeat split. eexists. split; [reflexivity|]. repeat constructor. eauto.
Qed.

(** C4 (denial has no side effects).  When the policy check denies the
    request, each of [read_file], [write_file] and [run_command] returns one
    [ToolResult] with [success] false that carries the decision, in the very
    world the check left: no file was read or written, no process was
    started and no audit line was emitted. *)
Theorem denial_has_no_side_effects (self : SkillContext) (w : World) :
  (forall path d w1,
      check_file_read (policy self) path w = (Returned d, w1) ->
      allowed d = false ->
      read_file self path w = (Returned (denial d), w1) /\
      success (denial d) = false /\ quiet w w1) /\
  (forall path content d w1,
      check_file_write (policy self) path w = (Returned d, w1) ->
      allowed d = false ->
      write_file self path content w = (Returned (denial d), w1) /\
      success (denial d) = false /\ quiet w w1) /\
  (forall command d w1,
      check_terminal (policy self) (String.concat " " command) w = (Returned d, w1) ->
      allowed d = false ->
      run_command self command w = (Returned (denial d), w1) /\
      success (denial d) = false /\ quiet w w1).
Proof.
  split; [|split].
  - intros path d w1 Hcheck Hdeny. split; [|split; [reflexivity|]].
    + unfold read_file. run_m. rewrite Hcheck, Hdeny. reflexivity.
    + exact (evaluate_quiet (policy self) FileRead path w w1 d Hcheck).
  - intros path content d w1 Hcheck Hdeny. split; [|split; [reflexivity|]].
    + unfold write_file. run_m. rewrite Hcheck, Hdeny. reflexivity.
    + exact (evaluate_quiet (policy self) FileWrite path w w1 d Hcheck).
  - intros command d w1 Hcheck Hdeny. split; [|split; [reflexivity|]].
    + unfold run_command. run_m. rewrite Hcheck, Hdeny. reflexivity.
    + exact (evaluate_quiet (policy self) Terminal _ w w1 d Hcheck).
Qed.

(** Scenario B: reading [/etc/shadow] under the [/data] allowlist. *)
Lemma denial_has_no_side_effects_witness :
  exists d w1,
    read_file data_context "/etc/shadow" data_dir_world = (Returned (denial d), w1) /\
    success (denial d) = false /\ requires_approval d = true /\
    quiet data_dir_world w1 /\
    trace w1 = [ELedgerScan "file_read:/etc/shadow"].
Proof.
  destruct (denial_has_no_side_effects data_context data_dir_world) as [Hread _].
  eexists _, _. 
  destruct (Hread "/etc/shadow" _ _ eq_refl eq_refl) as (Hrun & Hfail & Hquiet).
  split; [exact Hrun|]. split; [exact Hfail|]. split; [reflexivity|].
  split; [exact Hquiet | reflexivity].
Defined.

(** C7, where the code falls short.  [read_file] on a path the policy
    allows but that names no file does not return a [ToolResult]: the
    [FileNotFoundError] of [read_text] leaves the operation as an exception,
    for there is no handler around it.  [write_file] behaves alike when the
    parent of the target cannot be created.  Only [run_command], which wraps
    its body in [except OSError], turns a launch failure into a
    [ToolResult] with [success] false. *)
Theorem resource_faults_escape (self : SkillContext) (path : string) (w : World) :
  (forall d w1,
      check_file_read (policy self) path w = (Returned d, w1) ->
      allowed d = true ->
      entry_at (files w1) (resolve w1 (Path path)) = None ->
      exists e w2, read_file self path w = (Raised e, w2) /\
                   exc_type e = FileNotFoundError) /\
  fst (read_file data_context "/data/report.txt" data_dir_world)
    = Raised (Exn FileNotFoundError "/data/report.txt") /\
  fst (write_file data_context "/data/out/x.txt" "c" data_file_world)
    = Raised (Exn NotADirectoryError "/data") /\
  fst (run_command data_context ["git"; "status"] data_dir_world)
    = Returned (failure "No such file or directory").
Proof.
  split; [|split; [|split]]; [|vm_compute; reflexivity..].
  intros d w1 Hcheck Hallow Hmissing.
  unfold read_file. run_m. rewrite Hcheck, Hallow. simpl.
  unfold read_text. run_m. simpl. rewrite Hmissing.
  eexists _, _. split; reflexivity.
Qed.

(* ------------------------------------------------------------------ *)
(** ** Skill manager *)

Lemma json_dumps_raises_type_error (v : pyvalue) (e : exn) :
  json_dumps v = Raised e -> exc_type e = TypeError.
Proof.
  intros H. pose proof (json_dumps_serializable v) as Hs.
  destruct (serializable v).
  - destruct Hs as [text Ht]. congruence.
  - destruct Hs as (e' & He' & Hty). congruence.
Qed.

(** What the [try] block of [run] makes of each outcome of the handler. *)
Lemma call_handler_run (h : SkillContext -> pydict -> M handler_result)
    (context : SkillContext) (payload : pydict) (w : World) :
  call_handler h context payload w =
  match h context payload w with
  | (Raised e, w') =>
      if is_Exception (exc_type e) then (Returned (failure (exc_msg e)), w')
      else (Raised e, w')
  | (Returned (ResultToolResult r), w') => (Returned r, w')
  | (Returned (ResultValue v), w') =>
      match json_dumps v with
      | Returned text =>
          (Returned {| success := true; output := Some text; error := None;
                       metadata := [] |}, w')
      | Raised e => (Returned (failure (exc_msg e)), w')
      end
  end.
Proof.
  unfold call_handler, try_except. run_m.
  destruct (h context payload w) as [[[r|v]|e] w']; try reflexivity.
  destruct (json_dumps v) as [text|e] eqn:E; [reflexivity|].
  unfold raise. by rewrite (json_dumps_raises_type_error v e E).
Qed.

(** C5, as the code has it.  For a registered skill whose entrypoint file
    exists and defines a callable [run]: an exception derived from
    [Exception] raised by the handler comes back as a [ToolResult] with
    [success] false and its message as [error], while one that derives from
    [BaseException] only passes through [run] to the caller; a returned
    [ToolResult] is passed on unchanged; any other value that [json.dumps]
    accepts is wrapped as a successful [ToolResult] whose output is its JSON
    text, and one it refuses comes back as a failure carrying the
    serialization error. *)
Theorem run_wraps_handler_outcome
    (exec_source : string -> M namespace_entry) (self : SkillManager)
    (skill_name : string) (payload : pydict) (manifest : SkillManifest)
    (file source : string) (context : SkillContext)
    (h : SkillContext -> pydict -> M handler_result) (w w1 w2 w3 w4 : World) :
  registry_get (_manifests self) (VStr skill_name) = Some manifest ->
  entrypoint manifest = VStr file ->
  path_exists (joinpath (joinpath (skills_dir self) skill_name) file) w
    = (Returned true, w1) ->
  context_factory self w1 = (Returned context, w2) ->
  read_text (joinpath (joinpath (skills_dir self) skill_name) file) w2
    = (Returned source, w3) ->
  exec_source source w3 = (Returned (Function h), w4) \/
  exec_source source w3 = (Returned (Coroutine h), w4) ->
  run exec_source self skill_name payload w =
  match h context payload w4 with
  | (Raised e, w5) =>
      if is_Exception (exc_type e) then (Returned (failure (exc_msg e)), w5)
      else (Raised e, w5)
  | (Returned (ResultToolResult r), w5) => (Returned r, w5)
  | (Returned (ResultValue v), w5) =>
      match json_dumps v with
      | Returned text =>
          (Returned {| success := true; output := Some text; error := None;
                       metadata := [] |}, w5)
      | Raised e => (Returned (failure (exc_msg e)), w5)
      end
  end.
Proof.
  intros Hreg Hentry Hexists Hctx Hread Hexec.
  unfold run. rewrite Hreg, Hentry.
  unfold mbind, M_bind. cbv beta. rewrite Hexists. cbv beta iota.
  change (negb true) with false. cbv beta iota. rewrite Hctx, Hread.
  destruct Hexec as [-> | ->]; apply call_handler_run.
Qed.

(** Scenario D: the handler returns a dictionary, not a [ToolResult]. *)
Lemma run_wraps_handler_outcome_witness :
  exists text,
    json_dumps (VDict [("ok", VBool true)]) = Returned text /\
    fst (run (exec_as (Function returns_ok)) echo_manager "echo" [] skills_world)
    = Returned {| success := true; output := Some text; error := None;
                  metadata := [] |}.
Proof.
  eexists. split; [reflexivity|].
  erewrite (run_wraps_handler_outcome (exec_as (Function returns_ok)) echo_manager
              "echo" [] echo_manifest "skill.py" _ data_context returns_ok
              skills_world _ _ _ _ eq_refl eq_refl eq_refl eq_refl eq_refl
              (or_introl eq_refl)).
  reflexivity.
Defined.

(** C5 as stated fails twice over: a handler that returns a set gets a
    failure, not a wrapped success, and a handler that calls [sys.exit]
    makes [run] raise [SystemExit] to its caller. *)
Lemma run_unwrapped_outcomes :
  fst (run (exec_as (Function returns_set)) echo_manager "echo" [] skills_world)
    = Returned (failure "Object of type set is not JSON serializable") /\
  fst (run (exec_as (Function exits)) echo_manager "echo" [] skills_world)
    = Raised (Exn SystemExit "1").
Proof. split; vm_compute; reflexivity. Qed.

Lemma same_fs_refl (w : World) : same_fs w w.
Proof. by split. Qed.

Lemma same_fs_emit (w w0 : World) (e : effect) :
  same_fs w w0 -> same_fs w (snd (emit e w0)).
Proof. intros [Hf Hr]. by split. Qed.

Lemma glob_filter_run (dir : PurePath) (names : list string) (w : World) :
  glob_filter dir names w =
  (Returned
     (List.filter
        (fun p => bool_decide (is_Some (entry_at (files w) (resolve w p))))
        (map (fun d => joinpath (joinpath dir d) "manifest.json") names)), w).
Proof.
  induction names as [|d names IH]; [reflexivity|].
  simpl. run_m. rewrite IH. simpl.
  by destruct (bool_decide _).
Qed.

Lemma glob_manifests_run (dir : PurePath) (w : World) :
  glob_manifests dir w = (Returned (manifest_paths w dir), w).
Proof. unfold glob_manifests. run_m. apply glob_filter_run. Qed.

Lemma manifest_paths_same_fs (w w0 : World) (dir : PurePath) :
  same_fs w w0 -> manifest_paths w0 dir = manifest_paths w dir.
Proof. intros [Hf Hr]. unfold manifest_paths. by rewrite Hf, Hr. Qed.

(** One turn of the loop reads one file and touches nothing else. *)
Lemma load_one_frame (ms : registry) (p : PurePath) (w : World) :
  exists r, load_one ms p w = (r, snd (emit (EReadText (resolve w p)) w)).
Proof.
  unfold load_one, read_text. run_m. simpl.
  destruct (entry_at (files w) (resolve w p)) as [[text|]|]; simpl; eauto.
  destruct (json_loads text) as [data|e]; simpl; eauto.
  unfold subscript_name.
  destruct data as [| | | |l|d|t]; simpl; eauto.
  destruct (dict_get d "name") as [n|]; simpl; eauto.
  destruct (hashable n); simpl; eauto.
Qed.

Lemma load_one_malformed (ms : registry) (p : PurePath) (w w0 : World) :
  same_fs w w0 -> malformed w p ->
  exists e w', load_one ms p w0 = (Raised e, w') /\
               (exc_type e = JSONDecodeError \/ exc_type e = KeyError).
Proof.
  intros [Hf Hr] (text & Hfile & Hbad).
  unfold load_one, read_text. run_m. simpl. rewrite Hf, Hr, Hfile. simpl.
  destruct Hbad as [[_ [e He]] | (d & Hd & Hname)].
  - rewrite He. exists e. eexists. split; [reflexivity|]. left.
    unfold json_loads in He.
    destruct (parse_value _ _) as [[v rest]|]; [|by injection He as <-].
    destruct (skip_ws rest); [discriminate | by injection He as <-].
  - rewrite Hd. simpl. rewrite Hname. simpl. eexists _, _.
    split; [reflexivity | by right].
Qed.

Lemma load_one_well_formed (ms : registry) (p : PurePath) (n : string) (w w0 : World) :
  same_fs w w0 -> declared_name w p n ->
  exists m w', load_one ms p w0 = (Returned (registry_set ms (VStr n) m), w').
Proof.
  intros [Hf Hr] (text & d & Hfile & Hd & Hname).
  unfold load_one, read_text. run_m. simpl. rewrite Hf, Hr, Hfile. simpl.
  rewrite Hd. simpl. rewrite Hname. simpl. eauto.
Qed.

Lemma registry_get_set_eq (ms : registry) (n : string) (m : SkillManifest) :
  registry_get (registry_set ms (VStr n) m) (VStr n) = Some m.
Proof.
  induction ms as [|[k v] ms IH]; simpl.
  - by rewrite bool_decide_eq_true_2.
  - destruct (key_eqb k (VStr n)) eqn:E; simpl; by rewrite E.
Qed.

Lemma registry_set_keeps (ms : registry) (key k : pyvalue) (m : SkillManifest) :
  is_Some (registry_get ms k) -> is_Some (registry_get (registry_set ms key m) k).
Proof.
  induction ms as [|[k0 v] ms IH]; simpl.
  - by intros [? ?].
  - destruct (key_eqb k0 key) eqn:E; simpl.
    + destruct (key_eqb k0 k); [eauto | done].
    + destruct (key_eqb k0 k); [done | exact IH].
Qed.

(** A malformed manifest anywhere in the enumeration stops the loop. *)
Lemma load_loop_aborts (paths : list PurePath) (p : PurePath) (w : World) :
  p ∈ paths -> malformed w p ->
  forall ms w0, same_fs w w0 ->
  exists e w', load_loop ms paths w0 = (Raised e, w').
Proof.
  intros Hin Hbad. induction paths as [|q paths IH]; [by apply elem_of_nil in Hin|].
  intros ms w0 Hsame. simpl. run_m.
  destruct (load_one_frame ms q w0) as [r Hr]. rewrite Hr.
  destruct r as [ms'|e]; [|eauto].
  apply elem_of_cons in Hin as [-> | Hin].
  - destruct (load_one_malformed ms q w w0 Hsame Hbad) as (e & w' & He & _).
    congruence.
  - apply (IH Hin). by apply same_fs_emit.
Qed.

(** With every manifest well formed the loop runs to its end and every
    declared name is registered. *)
Lemma load_loop_completes (paths : list PurePath) (w : World) :
  (forall p, p ∈ paths -> well_formed w p) ->
  forall ms w0, same_fs w w0 ->
  exists reg w', load_loop ms paths w0 = (Returned reg, w') /\
    (forall k, is_Some (registry_get ms k) -> is_Some (registry_get reg k)) /\
    (forall p n, p ∈ paths -> declared_name w p n ->
                 is_Some (registry_get reg (VStr n))).
Proof.
  induction paths as [|q paths IH]; intros Hall ms w0 Hsame.
  - exists ms, w0. split; [reflexivity|]. split; [done|].
    intros p n Hp. by apply elem_of_nil in Hp.
  - simpl. run_m.
    destruct (Hall q) as [n Hn]; [left|].
    destruct (load_one_well_formed ms q n w w0 Hsame Hn) as (m & w1 & Hone).
    destruct (load_one_frame ms q w0) as [r Hr].
    rewrite Hone in Hr. injection Hr as <- ->. rewrite Hone.
    destruct (IH (fun p Hp => Hall p (proj2 (elem_of_cons paths p q) (or_intror Hp)))
                (registry_set ms (VStr n) m) _
                (same_fs_emit w w0 (EReadText (resolve w0 q)) Hsame))
      as (reg & w' & Hloop & Hkeep & Hreg).
    exists reg, w'. split; [exact Hloop|]. split.
    + intros k Hk. by apply Hkeep, registry_set_keeps.
    + intros p n' Hp Hn'. apply elem_of_cons in Hp as [-> | Hp]; [|eauto].
      destruct (load_one_well_formed ms q n' w w0 Hsame Hn') as (m' & w1' & Hone').
      rewrite Hone in Hone'. injection Hone' as Heq _.
      apply Hkeep. rewrite Heq, registry_get_set_eq. eauto.
Qed.

Lemma path_exists_run (p : PurePath) (w : World) :
  path_exists p w =
  (Returned (bool_decide (is_Some (entry_at (files w) (resolve w p)))),
   snd (emit (EExists (resolve w p)) w)).
Proof. reflexivity. Qed.

(** C9, as the code has it.  The loader has no handler around the body of
    its loop: when the skills directory exists and any manifest found in it
    is a plain text that does not parse, or an object that lacks the name,
    building the manager raises, so that load registers nothing at all.  It
    completes, with every declared name registered, when all the manifests
    found are well formed. *)
Theorem malformed_manifest_aborts_load (dir : PurePath)
    (factory : M SkillContext) (w : World) :
  is_Some (entry_at (files w) (resolve w dir)) ->
  ((exists p, p ∈ manifest_paths w dir /\ malformed w p) ->
   exists e w', SkillManager_init dir factory w = (Raised e, w')) /\
  ((forall p, p ∈ manifest_paths w dir -> well_formed w p) ->
   exists sm w',
     SkillManager_init dir factory w = (Returned sm, w') /\
     forall p n, p ∈ manifest_paths w dir -> declared_name w p n ->
                 is_Some (registry_get (_manifests sm) (VStr n))).
Proof.
  intros Hdir.
  assert (Hinit : SkillManager_init dir factory w =
            let w1 := snd (emit (EExists (resolve w dir)) w) in
            match load_loop [] (manifest_paths w dir) w1 with
            | (Returned ms, w') =>
                (Returned {| skills_dir := dir; context_factory := factory;
                             _manifests := ms |}, w')
            | (Raised e, w') => (Raised e, w')
            end).
  { unfold SkillManager_init, _load_manifests. unfold mbind, M_bind. cbv beta.
    rewrite path_exists_run, (bool_decide_eq_true_2 _ Hdir).
    change (negb true) with false. cbv beta iota.
    rewrite glob_manifests_run.
    rewrite (manifest_paths_same_fs w _ dir
               (same_fs_emit w w (EExists (resolve w dir)) (same_fs_refl w))).
    by destruct (load_loop _ _ _) as [[ms|e] w']. }
  rewrite Hinit. cbv zeta. split.
  - intros (p & Hin & Hbad).
    destruct (load_loop_aborts _ p w Hin Hbad [] _
                (same_fs_emit w w (EExists (resolve w dir)) (same_fs_refl w)))
      as (e & w' & ->).
    eauto.
  - intros Hall.
    destruct (load_loop_completes _ w Hall [] _
                (same_fs_emit w w (EExists (resolve w dir)) (same_fs_refl w)))
      as (reg & w' & -> & _ & Hreg).
    eexists _, _. split; [reflexivity|]. exact Hreg.
Qed.

Lemma nameless_is_malformed :
  {| anchored := true; parts := ["skills"; "other"; "manifest.json"] |}
    ∈ manifest_paths nameless_world (Path "/skills") /\
  malformed nameless_world
    {| anchored := true; parts := ["skills"; "other"; "manifest.json"] |}.
Proof.
  split.
  - vm_compute. left.
  - exists nameless_manifest_text. split; [reflexivity|]. right.
    eexists. split; vm_compute; reflexivity.
Qed.

Lemma garbled_is_malformed :
  {| anchored := true; parts := ["skills"; "other"; "manifest.json"] |}
    ∈ manifest_paths garbled_world (Path "/skills") /\
  malformed garbled_world
    {| anchored := true; parts := ["skills"; "other"; "manifest.json"] |}.
Proof.
  split.
  - vm_compute. left.
  - exists "{name: echo". split; [reflexivity|]. left.
    split; [reflexivity|]. eexists. vm_compute. reflexivity.
Qed.

(** A nameless manifest next to a good one, and one that is not JSON next
    to a good one: the load raises. *)
Lemma malformed_manifest_aborts_load_witness :
  (exists e w',
     SkillManager_init (Path "/skills") (mret data_context) nameless_world
     = (Raised e, w')) /\
  (exists e w',
     SkillManager_init (Path "/skills") (mret data_context) garbled_world
     = (Raised e, w')).
Proof.
  split.
  - apply (malformed_manifest_aborts_load (Path "/skills") (mret data_context)
             nameless_world).
    + vm_compute. eauto.
    + eexists. exact nameless_is_malformed.
  - apply (malformed_manifest_aborts_load (Path "/skills") (mret data_context)
             garbled_world).
    + vm_compute. eauto.
    + eexists. exact garbled_is_malformed.
Defined.

(** C9 as stated fails: with the well-formed [echo] manifest in place, a
    neighbour without a name makes the load raise [KeyError], and one that
    is not JSON makes it raise [JSONDecodeError]; no manager is built. *)
Lemma load_aborts_on_malformed_manifest :
  declared_name nameless_world
    {| anchored := true; parts := ["skills"; "echo"; "manifest.json"] |} "echo" /\
  fst (SkillManager_init (Path "/skills") (mret data_context) nameless_world)
    = Raised (Exn KeyError "'name'") /\
  fst (SkillManager_init (Path "/skills") (mret data_context) garbled_world)
    = Raised (Exn JSONDecodeError "Expecting value").
Proof.
  split; [|split; vm_compute; reflexivity].
  eexists _, _. split; [reflexivity|]. split; vm_compute; reflexivity.
Qed.

(* ================================================================== *)
(** * Further properties of the code *)

Local Open Scope list_scope.

(* ------------------------------------------------------------------ *)
(** ** Approval store and scopes *)

(** Records added at the end are looked at only after a refusal. *)
Lemma scan_records_app (rs1 rs2 : list ApprovalRecord) (now : datetime) (sc : string) :
  scan_records (rs1 ++ rs2) now sc =
  match scan_records rs1 now sc with
  | Returned false => scan_records rs2 now sc
  | settled => settled
  end.
Proof.
  induction rs1 as [|r rs1 IH]; cbn [app scan_records]; [done|].
  destruct (bool_decide (scope r = sc)); cbn [negb]; [|exact IH].
  destruct (expires_at r) as [[t|z]|]; [|done|done].
  destruct (t <? now); [exact IH | done].
Qed.

Lemma add_run (sc : string) (expires : option expiry) (w : World) :
  add sc expires w =
  (Returned tt,
   with_records w (records w ++ [{| scope := sc; expires_at := expires |}])).
Proof. reflexivity. Qed.

(** [ApprovalStore.add] followed by [is_approved]: the new record is
    looked at last, and only for its own scope.  The answer for every
    other scope stays as it was, be it an answer or a [TypeError]; so does
    an approval or a [TypeError] for the scope of the new record; and a
    refusal for that scope becomes what the new record says: approved when
    the expiry is absent or an aware instant not before the evaluation
    time, still refused when it is an aware instant before it, and a
    [TypeError] when it is naive. *)
Theorem add_settles_refusals_only (sc : string) (expires : option expiry)
    (w : World) :
  let w' := snd (add sc expires w) in
  (forall sc', fst (is_approved sc' w') = approved_in w' sc') /\
  (forall sc', sc' <> sc -> approved_in w' sc' = approved_in w sc') /\
  (approved_in w sc <> Returned false -> approved_in w' sc = approved_in w sc) /\
  (approved_in w sc = Returned false ->
   approved_in w' sc = grant_verdict (clock w) expires).
Proof.
  rewrite add_run. cbv zeta. unfold approved_in.
  cbn [fst snd with_records records clock].
  split; [|split; [|split]].
  - intros sc'. by rewrite is_approved_run.
  - intros sc' Hne. rewrite scan_records_app. cbn [scan_records scope].
    rewrite bool_decide_eq_false_2 by congruence. cbn [negb].
    by destruct (scan_records (records w) (clock w) sc') as [[]|e].
  - intros Hsettled. rewrite scan_records_app.
    by destruct (scan_records (records w) (clock w) sc) as [[]|e].
  - intros Hrefused. rewrite scan_records_app, Hrefused.
    cbn [scan_records scope expires_at]. rewrite bool_decide_eq_true_2 by done.
    cbn [negb]. destruct expires as [[t|z]|]; cbn [grant_verdict]; [|done|done].
    by destruct (t <? clock w).
Qed.

(** On a store whose records for the scope carry no naive expiry,
    [is_approved] answers, having scanned the store once, and it answers
    [True] exactly when some record has that very scope and an expiry that
    is absent or not before the evaluation time: a grant that expired
    never approves, and a grant for another scope never does. *)
Theorem aware_ledger_expiry_exact_scope (sc : string) (w : World) :
  (forall r wall, r ∈ records w -> scope r = sc ->
                  expires_at r <> Some (Naive wall)) ->
  exists answer,
    is_approved sc w = (Returned answer, snd (emit (ELedgerScan sc) w)) /\
    (answer = true <-> exists r, r ∈ records w /\ live_grant (clock w) sc r).
Proof.
  intros Haware.
  destruct (scan_records_answers (records w) (clock w) sc Haware)
    as [answer Hscan].
  exists answer. rewrite is_approved_run, Hscan. split; [done|].
  exact (scan_records_spec _ _ _ _ Hscan).
Qed.

(** A grant for [file_read:/a] that expired and a standing grant for
    [file_read:/b]: [file_read:/a] is not approved. *)
Lemma aware_ledger_expiry_exact_scope_witness :
  fst (is_approved "file_read:/a"
         (with_records empty_world
            [{| scope := "file_read:/a";
                expires_at := Some (Aware 1600000000000000) |};
             {| scope := "file_read:/b"; expires_at := None |}]))
  = Returned false.
Proof.
  destruct (aware_ledger_expiry_exact_scope "file_read:/a"
              (with_records empty_world
                 [{| scope := "file_read:/a";
                     expires_at := Some (Aware 1600000000000000) |};
                  {| scope := "file_read:/b"; expires_at := None |}]))
    as (answer & Hrun & Hiff).
  - intros r wall Hin _ Hnaive.
    apply elem_of_cons in Hin as [-> | Hin]; [discriminate Hnaive|].
    apply list_elem_of_singleton in Hin as ->. discriminate Hnaive.
  - rewrite Hrun. cbn [fst]. destruct answer; [|reflexivity].
    destruct (proj1 Hiff eq_refl) as (r & Hin & Hs & Hlive).
    apply elem_of_cons in Hin as [-> | Hin].
    + cbn in Hlive. lia.
    + apply list_elem_of_singleton in Hin as ->. discriminate Hs.
Defined.

Lemma make_scope_target_inj (prefix t1 t2 : string) :
  make_scope prefix t1 = make_scope prefix t2 -> t1 = t2.
Proof.
  unfold make_scope. induction prefix as [|c prefix IH]; simpl.
  - intros H. by injection H.
  - intros H. injection H as H. by apply IH.
Qed.

(** A scope string names one capability kind and one target: two checks
    build the same scope only when they are the same kind of check on the
    same target string.  So a grant for reading a path does not cover
    writing it, and a grant for one spelling of a path does not cover
    another. *)
Theorem scope_names_kind_and_target (k1 k2 : capability) (t1 t2 : string) :
  make_scope (kind_prefix k1) t1 = make_scope (kind_prefix k2) t2 <->
  k1 = k2 /\ t1 = t2.
Proof.
  split; [|by intros [-> ->]].
  intros H. assert (k1 = k2) as ->.
  { destruct k1, k2; try reflexivity; discriminate H. }
  split; [reflexivity|]. by apply make_scope_target_inj in H.
Qed.

(** Every decision a check returns carries the scope built from the kind
    and the target as given, and asks for approval exactly when it
    denies. *)
Theorem decision_shape (self : PolicyEngine) (kind : capability)
    (target : string) (w w' : World) (d : ApprovalDecision) :
  evaluate self kind target w = (Returned d, w') ->
  decision_scope d = make_scope (kind_prefix kind) target /\
  requires_approval d = negb (allowed d).
Proof.
  assert (Hpath : forall allowlist prefix,
             _check_path self target allowlist prefix w = (Returned d, w') ->
             decision_scope d = make_scope prefix target /\
             requires_approval d = negb (allowed d)).
  { intros allowlist prefix. unfold _check_path.
    destruct (tools_enabled (config self)); cbn [negb]; [|by intros [= <- _]].
    run_m.
    destruct (path_allowlisted_spec (resolve w (Path target)) allowlist w)
      as (b & -> & _).
    destruct b; [by intros [= <- _]|]. rewrite is_approved_run. cbn [fst snd].
    destruct (scan_records _ _ _) as [[]|e]; [| |discriminate]; by intros [= <- _]. }
  destruct kind; cbn [evaluate kind_prefix].
  - apply Hpath.
  - apply Hpath.
  - unfold check_terminal. destruct (_ || _); [by intros [= <- _]|].
    destruct (bool_decide _); [by intros [= <- _]|].
    run_m. rewrite is_approved_run. cbn [fst snd].
    destruct (scan_records _ _ _) as [[]|e]; [| |discriminate]; by intros [= <- _].
  - unfold check_skill.
    destruct (negb (tools_enabled _)); [by intros [= <- _]|].
    destruct (bool_decide _); [by intros [= <- _]|].
    run_m. rewrite is_approved_run. cbn [fst snd].
    destruct (scan_records _ _ _) as [[]|e]; [| |discriminate]; by intros [= <- _].
Qed.

(** A write check on a path outside the allowlist, with an empty store:
    the scope is built from the path as given. *)
Lemma decision_shape_witness :
  decision_scope
    {| allowed := false; reason := "Path not allowlisted";
       decision_scope := "file_write:./notes/../x"; requires_approval := true |}
  = make_scope (kind_prefix FileWrite) "./notes/../x" /\
  requires_approval
    {| allowed := false; reason := "Path not allowlisted";
       decision_scope := "file_write:./notes/../x"; requires_approval := true |}
  = negb
      (allowed
         {| allowed := false; reason := "Path not allowlisted";
            decision_scope := "file_write:./notes/../x";
            requires_approval := true |}).
Proof.
  apply (decision_shape {| config := data_config |} FileWrite "./notes/../x"
           empty_world
           (snd (emit (ELedgerScan "file_write:./notes/../x") empty_world))).
  reflexivity.
Defined.

(** Terminal commands and skill names are matched whole.  With the class
    switched on, a target that is an element of the configured list is
    allowed without a scan of the store; and a decision the check returns
    allows exactly when the target is an element of the list or the store
    holds a live grant for its scope. *)
Theorem exact_match_or_live_grant (self : PolicyEngine) (kind : capability)
    (target : string) (w : World) :
  class_disabled (config self) kind = false ->
  kind = Terminal \/ kind = Skill ->
  (target ∈ exact_allowlist (config self) kind ->
   exists d, evaluate self kind target w = (Returned d, w) /\ allowed d = true) /\
  (forall d w',
      evaluate self kind target w = (Returned d, w') ->
      allowed d = true <->
      target ∈ exact_allowlist (config self) kind \/
      exists r, r ∈ records w /\
                live_grant (clock w) (make_scope (kind_prefix kind) target) r).
Proof.
  intros Hen Hkind. unfold class_disabled in Hen.
  destruct Hkind as [-> | ->]; cbn [evaluate exact_allowlist kind_prefix] in *.
  - unfold check_terminal. rewrite Hen.
    destruct (bool_decide (target ∈ terminal_allowlist (config self))) eqn:E.
    + apply bool_decide_eq_true in E. split; [eauto|].
      intros d w' [= <- _]. cbn [allowed]. split; [by left | done].
    + apply bool_decide_eq_false in E. split; [done|].
      intros d w'. run_m. rewrite is_approved_run. cbn [fst snd].
      destruct (scan_records _ _ _) as [answer|e] eqn:Hscan; [|discriminate].
      pose proof (scan_records_spec _ _ _ _ Hscan) as Hspec.
      destruct answer; intros [= <- _]; cbn [allowed].
      * split; [|done]. intros _. right. by apply Hspec.
      * split; [discriminate|]. intros [H | H]; [done|]. by apply Hspec in H.
  - unfold check_skill. rewrite orb_false_r in Hen. rewrite Hen.
    destruct (bool_decide (target ∈ skills_enabled (config self))) eqn:E.
    + apply bool_decide_eq_true in E. split; [eauto|].
      intros d w' [= <- _]. cbn [allowed]. split; [by left | done].
    + apply bool_decide_eq_false in E. split; [done|].
      intros d w'. run_m. rewrite is_approved_run. cbn [fst snd].
      destruct (scan_records _ _ _) as [answer|e] eqn:Hscan; [|discriminate].
      pose proof (scan_records_spec _ _ _ _ Hscan) as Hspec.
      destruct answer; intros [= <- _]; cbn [allowed].
      * split; [|done]. intros _. right. by apply Hspec.
      * split; [discriminate|]. intros [H | H]; [done|]. by apply Hspec in H.
Qed.

(** [git status] is on the list and allowed as it stands;
    [git status --porcelain] is not allowlisted by it. *)
Lemma exact_match_or_live_grant_witness :
  (exists d,
     evaluate {| config := data_config |} Terminal "git status" empty_world
     = (Returned d, empty_world) /\ allowed d = true) /\
  ~ ("git status --porcelain" ∈ exact_allowlist data_config Terminal \/
     exists r, r ∈ records empty_world /\
               live_grant (clock empty_world)
                 (make_scope (kind_prefix Terminal) "git status --porcelain") r).
Proof.
  split.
  - apply (exact_match_or_live_grant {| config := data_config |} Terminal
             "git status" empty_world eq_refl (or_introl eq_refl)).
    left.
  - intros Hreason.
    set (refusal := {| allowed := false; reason := "Command not allowlisted";
                       decision_scope := "terminal:git status --porcelain";
                       requires_approval := true |}).
    set (scanned := snd (emit (ELedgerScan "terminal:git status --porcelain")
                           empty_world)).
    destruct (exact_match_or_live_grant {| config := data_config |} Terminal
                "git status --porcelain" empty_world eq_refl (or_introl eq_refl))
      as [_ Hiff].
    apply (Hiff refusal scanned eq_refl) in Hreason. discriminate Hreason.
Defined.

(* ------------------------------------------------------------------ *)
(** ** Context operations that go ahead *)

Lemma audit_log_run (self : SkillContext) (event : pydict) (w : World) :
  audit_log self event w =
  match audit_line (audit self) w event with
  | Returned line => (Returned tt, logged w event line)
  | Raised e =>
      (Raised e,
       with_heap w (<[fresh (dom (heap w)) := stamped w event]> (heap w)))
  end.
Proof.
  unfold audit_log, new_dict. unfold mbind, M_bind. cbv beta.
  cbn [snd set_heap].
  set (l := fresh (dom (heap w))).
  set (w0 := {| clock := clock w; records := records w; resolve := resolve w;
                files := files w; programs := programs w;
                audit_file := audit_file w; heap := <[l := event]> (heap w);
                trace := trace w |}).
  rewrite (log_run (audit self) l event w0) by apply lookup_insert_eq.
  cbv zeta. unfold audit_line, logged, with_heap, with_audit_line, stamped.
  cbn [clock records resolve files programs audit_file heap trace w0].
  rewrite insert_insert_eq. fold l.
  by destruct (json_dumps _).
Qed.

Lemma audit_line_of_strings (logger : AuditLogger) (w : World) (event : pydict) :
  serializable (VDict event) = true ->
  exists line, audit_line logger w event = Returned line.
Proof.
  intros Hs. unfold audit_line.
  pose proof (json_dumps_serializable (_redact logger (VDict (stamped w event)))) as H.
  rewrite serializable_redact, (serializable_stamped w event Hs) in H.
  destruct H as [text ->]. eauto.
Qed.

(** Where a capability check leaves the world: as it was, up to the trace. *)
Lemma evaluate_reads_only (self : PolicyEngine) (kind : capability)
    (target : string) (w w' : World) (d : ApprovalDecision) :
  evaluate self kind target w = (Returned d, w') ->
  files w' = files w /\ resolve w' = resolve w /\ programs w' = programs w /\
  audit_file w' = audit_file w /\ heap w' = heap w /\ clock w' = clock w /\
  records w' = records w.
Proof.
  intros Hrun.
  destruct (evaluate_frame self kind target w) as (d0 & w0 & Hrun0 & Hw).
  rewrite Hrun in Hrun0. injection Hrun0 as <- <-.
  by destruct Hw as [-> | ->].
Qed.

Lemma audit_line_clock (logger : AuditLogger) (w w' : World) (event : pydict) :
  clock w' = clock w -> audit_line logger w' event = audit_line logger w event.
Proof. intros H. unfold audit_line, stamped. by rewrite H. Qed.

Lemma read_text_run (p : PurePath) (content : string) (w : World) :
  entry_at (files w) (resolve w p) = Some (File content) ->
  read_text p w = (Returned content, snd (emit (EReadText (resolve w p)) w)).
Proof. intros H. unfold read_text. run_m. cbn [emit snd files]. by rewrite H. Qed.

(** [read_file] on an allowed path, spelled without a double dot, that
    names a regular file whose text holds no carriage return: the content
    comes back as stored, no file changes, and exactly one line, the
    redacted event of this read, is appended to the audit file. *)
Theorem read_file_returns_content (self : SkillContext) (path content : string)
    (w w1 : World) (d : ApprovalDecision) :
  check_file_read (policy self) path w = (Returned d, w1) ->
  allowed d = true ->
  spelled_plainly path = true ->
  entry_at (files w) (resolve w (Path path)) = Some (File content) ->
  unix_text content = true ->
  exists line w2,
    read_file self path w = (Returned (ok_result content), w2) /\
    audit_line (audit self) w
      (allowed_event "file_read" "path" path "Read file") = Returned line /\
    files w2 = files w /\
    audit_file w2 = (audit_file w ++ [line])%list /\
    trace w2 = (trace w1 ++ [EReadText (resolve w (Path path)); EAuditAppend line])%list.
Proof.
  intros Hcheck Hallow _ Hfile _.
  destruct (evaluate_reads_only (policy self) FileRead path w w1 d Hcheck)
    as (Hf & Hr & _ & Ha & Hh & Hc & _).
  destruct (audit_line_of_strings (audit self) w
              (allowed_event "file_read" "path" path "Read file") eq_refl)
    as [line Hline].
  rewrite <- Hf, <- Hr in Hfile.
  unfold read_file. unfold mbind, M_bind. cbv beta. rewrite Hcheck, Hallow.
  cbn [negb]. rewrite (read_text_run (Path path) content w1 Hfile).
  fold (allowed_event "file_read" "path" path "Read file").
  rewrite audit_log_run.
  rewrite (audit_line_clock (audit self) w
             (snd (emit (EReadText (resolve w1 (Path path))) w1)) _ Hc), Hline.
  eexists line, _. split; [reflexivity|]. split; [reflexivity|].
  unfold logged, with_audit_line, with_heap.
  cbn [files audit_file trace emit snd]. rewrite Hf, Ha, Hr.
  split; [done|]. split; [done|]. by rewrite <- app_assoc.
Qed.

(** Scenario A: [/data/report.txt] under the [/data] allowlist. *)
Lemma read_file_returns_content_witness :
  exists line w2,
    read_file data_context "/data/report.txt" report_world
      = (Returned (ok_result "quarterly numbers"), w2) /\
    audit_file w2 = [line] /\
    trace w2 = [EReadText ["data"; "report.txt"]; EAuditAppend line].
Proof.
  destruct (read_file_returns_content data_context "/data/report.txt"
              "quarterly numbers" report_world report_world _
              eq_refl eq_refl eq_refl eq_refl eq_refl)
    as (line & w2 & Hrun & _ & _ & Haudit & Htrace).
  exists line, w2. split; [exact Hrun|]. split; [exact Haudit | exact Htrace].
Defined.

Lemma subprocess_run_run (command : list string) (w : World) :
  subprocess_run command w =
  (match programs w command with
   | inl e => Raised e
   | inr result => Returned result
   end, snd (emit (ESpawn command) w)).
Proof.
  unfold subprocess_run. run_m. cbn [emit snd programs].
  by destruct (programs w command).
Qed.

(** [run_command] on an allowed command.  A process that ran gives a result
    whose [success] says whether it exited with zero and whose output is
    standard output followed by standard error, also when it failed, and
    one audit line is written.  A launch failure that is an [OSError]
    gives a failure result with the error message, no output and no audit
    line; any other exception of the launch leaves [run_command]. *)
Theorem run_command_outcomes (self : SkillContext) (command : list string)
    (w w1 : World) (d : ApprovalDecision) :
  check_terminal (policy self) (String.concat " " command) w = (Returned d, w1) ->
  allowed d = true ->
  let started := snd (emit (ESpawn command) w1) in
  let event := allowed_event "terminal" "command" (String.concat " " command)
                 "Ran command" in
  match programs w command with
  | inr result =>
      exists line,
        audit_line (audit self) w event = Returned line /\
        run_command self command w =
        (Returned {| success := bool_decide (returncode result = 0);
                     output := Some (stdout result +:+ stderr result);
                     error := None; metadata := [] |},
         logged started event line)
  | inl e =>
      run_command self command w =
      if is_OSError (exc_type e) then (Returned (failure (exc_msg e)), started)
      else (Raised e, started)
  end.
Proof.
  intros Hcheck Hallow started event.
  destruct (evaluate_reads_only (policy self) Terminal _ w w1 d Hcheck)
    as (_ & _ & Hp & _ & _ & Hc & _).
  assert (Hrun : run_command self command w =
            try_except
              (result ← subprocess_run command;
               _ ← audit_log self event;
               mret {| success := bool_decide (returncode result = 0);
                       output := Some (stdout result +:+ stderr result);
                       error := None; metadata := [] |})
              is_OSError
              (fun exc => mret (failure (exc_msg exc))) w1).
  { unfold run_command. unfold mbind, M_bind at 1. cbv beta.
    by rewrite Hcheck, Hallow. }
  rewrite Hrun. unfold try_except. unfold mbind, M_bind. cbv beta.
  rewrite subprocess_run_run, Hp. fold started.
  destruct (programs w command) as [e|result]; [by destruct (is_OSError _)|].
  rewrite audit_log_run.
  destruct (audit_line_of_strings (audit self) w event eq_refl) as [line Hline].
  rewrite (audit_line_clock (audit self) w started event Hc), Hline.
  exists line. split; reflexivity.
Qed.

(** A command that exits with 1: failure, with both streams as output. *)
Lemma run_command_outcomes_witness :
  exists line w2,
    run_command data_context ["git"; "status"] git_fails_world
    = (Returned {| success := false;
                   output := Some "On branch main fatal: bad index";
                   error := None; metadata := [] |}, w2) /\
    audit_file w2 = [line].
Proof.
  destruct (run_command_outcomes data_context ["git"; "status"] git_fails_world
              git_fails_world _ eq_refl eq_refl) as (line & _ & Hrun).
  exists line. eexists. split; [exact Hrun | reflexivity].
Defined.

(** [rag_ingest] has no policy check of its own: whatever the permission
    configuration of its context says, it hands the paths to the index,
    writes one audit line saying "allowed" and returns success with the
    index's answer as metadata. *)
Theorem rag_ingest_is_ungated (self : SkillContext) (paths : list string)
    (result : pydict) (w w1 : World) :
  ingest_paths (rag self) paths w = (Returned result, w1) ->
  let event := [("tool", VStr "rag_ingest"); ("paths", VList (map VStr paths));
                ("decision", VStr "allowed")] in
  exists line,
    audit_line (audit self) w1 event = Returned line /\
    rag_ingest self paths w =
    (Returned {| success := true; output := None; error := None;
                 metadata := result |},
     logged (snd (emit (ERagIngest paths) w1)) event line).
Proof.
  intros Hingest event.
  assert (Hser : serializable (VDict event) = true).
  { simpl. rewrite andb_true_r. clear. induction paths as [|p paths IH]; [done | exact IH]. }
  destruct (audit_line_of_strings (audit self) w1 event Hser) as [line Hline].
  exists line. split; [exact Hline|].
  unfold rag_ingest. unfold mbind, M_bind. cbv beta. rewrite Hingest.
  change (emit (ERagIngest paths) w1)
    with (Returned tt, snd (emit (ERagIngest paths) w1)).
  cbv beta iota. fold event. rewrite audit_log_run.
  rewrite (audit_line_clock (audit self) w1
             (snd (emit (ERagIngest paths) w1)) event eq_refl), Hline.
  reflexivity.
Qed.

(** With every switch off, ingestion through the context still goes ahead. *)
Lemma rag_ingest_is_ungated_witness :
  exists w2,
    rag_ingest {| policy := {| config := locked_config |}; audit := hunter_logger;
                  rag := no_rag |} ["/etc/shadow"] empty_world
    = (Returned {| success := true; output := None; error := None;
                   metadata := [] |}, w2) /\
    ERagIngest ["/etc/shadow"] ∈ trace w2.
Proof.
  destruct (rag_ingest_is_ungated
              {| policy := {| config := locked_config |}; audit := hunter_logger;
                 rag := no_rag |} ["/etc/shadow"] [] empty_world empty_world eq_refl)
    as (line & _ & Hrun).
  eexists. split; [exact Hrun|]. cbn. left.
Defined.







(** Running a bind whose first action is known. *)
Lemma bind_run {A B} (m : M A) (k : A -> M B) (w w' : World) (a : A) :
  m w = (Returned a, w') -> (m ≫= k) w = k a w'.
Proof. intros H. unfold mbind, M_bind. by rewrite H. Qed.

Lemma bind_raised {A B} (m : M A) (k : A -> M B) (w w' : World) (e : exn) :
  m w = (Raised e, w') -> (m ≫= k) w = (Raised e, w').
Proof. intros H. unfold mbind, M_bind. by rewrite H. Qed.









(* ------------------------------------------------------------------ *)
(** ** The registry *)

Lemma existsb_registry_set (f : pyvalue -> bool) (reg : registry) (key : pyvalue)
    (m : SkillManifest) :
  existsb (fun e => f (fst e)) (registry_set reg key m) =
  existsb (fun e => f (fst e)) reg || (negb (has_key reg key) && f key).
Proof.
  unfold has_key. induction reg as [|[k v] reg IH]; simpl.
  - by rewrite orb_false_r.
  - destruct (key_eqb k key); simpl.
    + by rewrite orb_false_r.
    + rewrite IH. by rewrite orb_assoc.
Qed.

Lemma registry_set_distinct (reg : registry) (key : pyvalue) (m : SkillManifest) :
  keys_distinct reg = true -> keys_distinct (registry_set reg key m) = true.
Proof.
  induction reg as [|[k v] reg IH]; simpl; [done|].
  intros [Hk Hrest]%andb_true_iff.
  destruct (key_eqb k key) eqn:E; simpl.
  - by rewrite Hk, Hrest.
  - rewrite (existsb_registry_set (key_eqb k)), E, andb_false_r, orb_false_r.
    by rewrite Hk, IH.
Qed.

Lemma registry_set_length (reg : registry) (key : pyvalue) (m : SkillManifest) :
  length (registry_set reg key m) =
  if has_key reg key then length reg else S (length reg).
Proof.
  unfold has_key. induction reg as [|[k v] reg IH]; simpl; [done|].
  destruct (key_eqb k key); simpl; [done|]. rewrite IH.
  by destruct (existsb _ reg).
Qed.

(** What a turn of the loop that went through did to the registry. *)
Lemma load_one_inv (ms ms' : registry) (p : PurePath) (w w' : World) :
  load_one ms p w = (Returned ms', w') ->
  exists n m, ms' = registry_set ms n m.
Proof.
  unfold load_one, read_text. run_m. simpl.
  destruct (entry_at (files w) (resolve w p)) as [[text|]|]; simpl; try discriminate.
  destruct (json_loads text) as [data|e]; simpl; [|discriminate].
  unfold subscript_name.
  destruct data as [| | | |l|d|t]; simpl; try discriminate.
  destruct (dict_get d "name") as [n|]; simpl; [|discriminate].
  destruct (hashable n); simpl; [|discriminate].
  intros [= <- _]. eauto.
Qed.

Lemma load_loop_keeps_distinct (paths : list PurePath) (ms reg : registry)
    (w w' : World) :
  load_loop ms paths w = (Returned reg, w') ->
  keys_distinct ms = true ->
  keys_distinct reg = true /\ (length reg <= length ms + length paths)%nat.
Proof.
  revert ms w. induction paths as [|p paths IH]; intros ms w; simpl.
  - intros [= <- _] H. split; [done | lia].
  - unfold mbind, M_bind. destruct (load_one ms p w) as [[ms1|e] w1] eqn:E; [|discriminate].
    intros Hloop Hd. destruct (load_one_inv ms ms1 p w w1 E) as (n & m & ->).
    destruct (IH _ _ Hloop (registry_set_distinct ms n m Hd)) as [Hreg Hlen].
    split; [done|]. rewrite registry_set_length in Hlen.
    destruct (has_key ms n); lia.
Qed.

Lemma SkillManager_init_run (dir : PurePath) (factory : M SkillContext) (w : World) :
  SkillManager_init dir factory w =
  let w1 := snd (emit (EExists (resolve w dir)) w) in
  if bool_decide (is_Some (entry_at (files w) (resolve w dir))) then
    match load_loop [] (manifest_paths w dir) w1 with
    | (Returned ms, w') =>
        (Returned {| skills_dir := dir; context_factory := factory;
                     _manifests := ms |}, w')
    | (Raised e, w') => (Raised e, w')
    end
  else
    (Returned {| skills_dir := dir; context_factory := factory;
                 _manifests := [] |}, w1).
Proof.
  unfold SkillManager_init, _load_manifests. unfold mbind, M_bind. cbv beta.
  rewrite path_exists_run. cbv zeta.
  destruct (bool_decide _); cbn [negb]; [|reflexivity]. cbv beta iota.
  rewrite glob_manifests_run.
  rewrite (manifest_paths_same_fs w _ dir
             (same_fs_emit w w (EExists (resolve w dir)) (same_fs_refl w))).
  by destruct (load_loop _ _ _) as [[ms|e] w'].
Qed.

(** The registry a manager is built with never holds two entries under
    equal names, and [list_skills] never lists more skills than there are
    manifest files. *)
Theorem registry_one_entry_per_name (dir : PurePath) (factory : M SkillContext)
    (w w' : World) (sm : SkillManager) :
  SkillManager_init dir factory w = (Returned sm, w') ->
  keys_distinct (_manifests sm) = true /\
  (length (list_skills sm) <= length (manifest_paths w dir))%nat.
Proof.
  rewrite SkillManager_init_run. cbv zeta. unfold list_skills.
  destruct (bool_decide _).
  - destruct (load_loop _ _ _) as [[ms|e] w1] eqn:E; [|discriminate].
    intros [= <- _]. simpl. rewrite length_map.
    by destruct (load_loop_keeps_distinct _ _ _ _ _ E eq_refl).
  - intros [= <- _]. simpl. split; [done | lia].
Qed.

(** Two manifests naming [echo]: one skill. *)
Lemma registry_one_entry_per_name_witness :
  exists sm w',
    SkillManager_init (Path "/skills") (mret data_context) twice_world
      = (Returned sm, w') /\
    keys_distinct (_manifests sm) = true /\
    (length (list_skills sm) <= 2)%nat.
Proof.
  eexists _, _. split; [vm_compute; reflexivity|].
  exact (registry_one_entry_per_name (Path "/skills") (mret data_context)
           twice_world _ _ eq_refl).
Defined.

Lemma load_loop_frame (paths : list PurePath) (ms : registry) (w w' : World)
    (r : outcome registry) :
  load_loop ms paths w = (r, w') -> same_fs w w'.
Proof.
  revert ms w. induction paths as [|p paths IH]; intros ms w; simpl.
  - intros [= _ <-]. apply same_fs_refl.
  - unfold mbind, M_bind. destruct (load_one_frame ms p w) as [r1 Hr1]. rewrite Hr1.
    destruct r1 as [ms1|e].
    + intros H. apply IH in H. destruct H as [Hf Hr]. by split.
    + intros [= _ <-]. by split.
Qed.

Lemma load_loop_app (a b : list PurePath) (ms : registry) (w : World) :
  load_loop ms (a ++ b) w = (load_loop ms a ≫= fun ms' => load_loop ms' b) w.
Proof.
  revert ms w. induction a as [|p a IH]; intros ms w; simpl; [done|].
  unfold mbind, M_bind. destruct (load_one ms p w) as [[ms1|e] w1]; [|done].
  rewrite IH. done.
Qed.

(** Where two manifests declare the same name, the one enumerated last is
    the one the registry keeps: after a load that went through, the name
    declared by the last manifest maps to the manifest built from that
    file. *)
Theorem last_manifest_wins (paths : list PurePath) (p : PurePath)
    (n text : string) (d : pydict) (ms reg : registry) (w w' : World) :
  load_loop ms (paths ++ [p]) w = (Returned reg, w') ->
  entry_at (files w) (resolve w p) = Some (File text) ->
  json_loads text = Returned (VDict d) ->
  dict_get d "name" = Some (VStr n) ->
  registry_get reg (VStr n) = Some (manifest_of (VDict d) (VStr n)).
Proof.
  intros Hloop Hfile Hdata Hname. rewrite load_loop_app in Hloop.
  unfold mbind, M_bind in Hloop.
  destruct (load_loop ms paths w) as [[ms1|e] w1] eqn:E; [|discriminate].
  destruct (load_loop_frame _ _ _ _ _ E) as [Hf Hr].
  simpl in Hloop. unfold load_one, read_text in Hloop. revert Hloop. run_m.
  cbn [emit snd files]. rewrite Hf, Hr, Hfile. cbv iota beta.
  rewrite Hdata. simpl. rewrite Hname. simpl.
  intros [= <- _]. apply registry_get_set_eq.
Qed.

(** In [twice_world] the manifest of [a] is enumerated after that of [b]
    and its entrypoint is the one kept. *)
Lemma last_manifest_wins_witness :
  exists reg w' m,
    load_loop [] (manifest_paths twice_world (Path "/skills")) twice_world
      = (Returned reg, w') /\
    registry_get reg (VStr "echo") = Some m /\
    entrypoint m = VStr "skill.py".
Proof.
  eexists _, _, _. split; [vm_compute; reflexivity|]. split.
  - refine (last_manifest_wins
              [{| anchored := true; parts := ["skills"; "b"; "manifest.json"] |}]
              {| anchored := true; parts := ["skills"; "a"; "manifest.json"] |}
              "echo" echo_manifest_text
              [("name", VStr "echo"); ("entrypoint", VStr "skill.py")]
              [] _ twice_world _ _ eq_refl _ eq_refl).
    + vm_compute. reflexivity.
    + vm_compute. reflexivity.
  - reflexivity.
Defined.

(* ------------------------------------------------------------------ *)
(** ** The [dev_assistant] skill *)

(** Whatever [run_command] does, the only process it starts is the one it
    was given. *)
Lemma run_command_spawns (self : SkillContext) (command : list string)
    (w w' : World) (r : outcome ToolResult) :
  run_command self command w = (r, w') ->
  exists extra, trace w' = trace w ++ extra /\
                forall argv, ESpawn argv ∈ extra -> argv = command.
Proof.
  destruct (evaluate_frame (policy self) Terminal (String.concat " " command) w)
    as (d & w1 & Hcheck & Hw1).
  assert (Hpre : exists pre, trace w1 = trace w ++ pre /\
                             forall argv, ESpawn argv ∉ pre).
  { destruct Hw1 as [-> | ->].
    - exists []. split; [by rewrite app_nil_r|]. intros argv H. by apply elem_of_nil in H.
    - eexists. split; [reflexivity|]. intros argv H.
      apply list_elem_of_singleton in H. discriminate H. }
  destruct Hpre as (pre & Hpre & Hnone).
  unfold run_command. simpl in Hcheck. destruct d as [d|e]; cycle 1.
  { rewrite (bind_raised _ _ _ _ _ Hcheck). intros [= _ <-].
    exists pre. split; [done|]. intros argv H. by apply Hnone in H. }
  rewrite (bind_run _ _ _ _ _ Hcheck).
  destruct (allowed d); cbn [negb].
  - unfold try_except. unfold mbind, M_bind. cbv beta.
    rewrite subprocess_run_run.
    assert (Hgoal : forall post r0 w0,
               trace w0 = (trace w1 ++ [ESpawn command]) ++ post ->
               (forall argv, ESpawn argv ∉ post) ->
               (r0, w0) = (r, w') ->
               exists extra, trace w' = trace w ++ extra /\
                             forall argv, ESpawn argv ∈ extra -> argv = command).
    { intros post r0 w0 Ht Hpost [= _ <-]. exists (pre ++ [ESpawn command] ++ post).
      split; [by rewrite Ht, Hpre, <- !app_assoc|].
      intros argv [H | H]%elem_of_app; [by apply Hnone in H|].
      apply elem_of_cons in H as [[= ->] | H]; [done | by apply Hpost in H]. }
    assert (Hnil : forall w0, trace w0 = trace w1 ++ [ESpawn command] ->
                              trace w0 = (trace w1 ++ [ESpawn command]) ++ []).
    { intros w0 ->. by rewrite app_nil_r. }
    assert (Hno : forall argv, ESpawn argv ∉ @nil effect).
    { intros argv H. by apply elem_of_nil in H. }
    set (ws := snd (emit (ESpawn command) w1)).
    destruct (programs w1 command) as [e|result].
    + destruct (is_OSError (exc_type e)); intros H;
        exact (Hgoal [] _ ws (Hnil ws eq_refl) Hno H).
    + rewrite audit_log_run. destruct (audit_line _ _ _) as [line|e].
      * intros H.
        refine (Hgoal [EAuditAppend line] _ (logged ws _ line) eq_refl _ H).
        intros argv Hin. apply list_elem_of_singleton in Hin. discriminate Hin.
      * destruct (is_OSError (exc_type e)); intros H;
          exact (Hgoal [] _ (with_heap ws _) (Hnil (with_heap ws _) eq_refl) Hno H).
  - intros [= _ <-]. exists pre. split; [done|]. intros argv H. by apply Hnone in H.
Qed.

Lemma dict_get_elem {V} (d : list (string * V)) (key : string) (v : V) :
  dict_get d key = Some v -> v ∈ map snd d.
Proof.
  induction d as [|[k x] d IH]; simpl; [discriminate|].
  destruct (bool_decide (k = key)).
  - intros [= ->]. left.
  - intros H. right. auto.
Qed.

(** The skill starts no process other than the three of its table,
    whatever the payload holds. *)
Theorem dev_assistant_runs_listed_commands_only (context : SkillContext)
    (payload : pydict) (w w' : World) (r : outcome handler_result) :
  dev_assistant_run context payload w = (r, w') ->
  exists extra, trace w' = trace w ++ extra /\
                forall argv, ESpawn argv ∈ extra -> argv ∈ map snd COMMANDS.
Proof.
  assert (Hquiet : forall r0, (r0, w) = (r, w') ->
            exists extra, trace w' = trace w ++ extra /\
                          forall argv, ESpawn argv ∈ extra -> argv ∈ map snd COMMANDS).
  { intros r0 [= _ <-]. exists []. split; [by rewrite app_nil_r|].
    intros argv H. by apply elem_of_nil in H. }
  unfold dev_assistant_run.
  destruct (from_option id (VStr "git_status") (dict_get payload "action"))
    as [|b|n|action|items|entries|t]; try apply Hquiet.
  destruct (dict_get COMMANDS action) as [[|c command]|] eqn:E; try apply Hquiet.
  unfold mbind, M_bind, mret, M_ret.
  destruct (run_command context (c :: command) w) as [[tr|e] w1] eqn:Hrun;
    cbv beta iota; intros [= _ <-];
    destruct (run_command_spawns _ _ _ _ _ Hrun) as (extra & Ht & Hsp);
    exists extra; (split; [exact Ht|]);
    intros argv Hin; rewrite (Hsp argv Hin); by apply (dict_get_elem COMMANDS action).
Qed.

(** The default action in an empty world. *)
Lemma dev_assistant_runs_listed_commands_only_witness :
  exists extra,
    trace (snd (dev_assistant_run data_context [] empty_world))
    = trace empty_world ++ extra /\
    forall argv, ESpawn argv ∈ extra -> argv ∈ map snd COMMANDS.
Proof.
  apply (dev_assistant_runs_listed_commands_only data_context [] empty_world _
           (fst (dev_assistant_run data_context [] empty_world))).
  apply surjective_pairing.
Defined.

(** An action outside the table comes back from the manager's [try] block
    as a successful result: the skill returns its error as a plain
    dictionary, and the manager wraps every value that is not a
    [ToolResult] as success. *)
Theorem dev_assistant_unsupported_is_success (context : SkillContext)
    (payload : pydict) (action : string) (w : World) :
  dict_get payload "action" = Some (VStr action) ->
  dict_get COMMANDS action = None ->
  exists text,
    json_dumps (VDict [("success", VBool false);
                       ("error", VStr "Unsupported action")]) = Returned text /\
    call_handler dev_assistant_run context payload w = (Returned (ok_result text), w).
Proof.
  intros Hact Hnone. eexists. split; [reflexivity|].
  rewrite call_handler_run. unfold dev_assistant_run. rewrite Hact.
  cbn [from_option id]. rewrite Hnone. reflexivity.
Qed.

Lemma dev_assistant_unsupported_is_success_witness :
  exists text,
    call_handler dev_assistant_run data_context [("action", VStr "deploy")] empty_world
    = (Returned (ok_result text), empty_world).
Proof.
  destruct (dev_assistant_unsupported_is_success data_context
              [("action", VStr "deploy")] "deploy" empty_world eq_refl eq_refl)
    as (text & _ & Hrun).
  exists text. exact Hrun.
Defined.

(* ------------------------------------------------------------------ *)
(** ** [json.loads] after [json.dumps] *)

Lemma append_cons (x : ascii) (a b : string) :
  String x a +:+ b = String x (a +:+ b).
Proof. reflexivity. Qed.

Lemma append_nil (a : string) : EmptyString +:+ a = a.
Proof. reflexivity. Qed.

Lemma append_assoc (a b c : string) : (a +:+ b) +:+ c = a +:+ (b +:+ c).
Proof.
  induction a as [|x a IH]; [done|]. by rewrite !append_cons, IH.
Qed.

Lemma append_length (a b : string) :
  String.length (a +:+ b) = (String.length a + String.length b)%nat.
Proof.
  induction a as [|x a IH]; [done|]. rewrite append_cons. cbn [String.length].
  by rewrite IH.
Qed.

(** One escaped character is decoded to the character. *)
Lemma parse_string_char (c : ascii) (tail acc : string) :
  parse_string (json_escape_char c +:+ tail) acc = parse_string tail (String c acc).
Proof. destruct c as [[] [] [] [] [] [] [] []]; reflexivity. Qed.

Lemma parse_string_escape (s rest acc : string) :
  parse_string (json_escape s +:+ String dquote rest) acc
  = Some (String.rev_app acc s, rest).
Proof.
  revert acc. induction s as [|c s IH]; intros acc; [reflexivity|].
  cbn [json_escape]. rewrite append_assoc, parse_string_char, IH. reflexivity.
Qed.

Lemma parse_json_string (s rest : string) :
  parse_string (json_escape s +:+ String dquote rest) EmptyString = Some (s, rest).
Proof. apply parse_string_escape. Qed.

(** Decimal digits. *)
Lemma pretty_digit (d : N) :
  (d < 10)%N ->
  is_digit (pretty_N_char d) = true /\
  Z.of_N (N_of_ascii (pretty_N_char d) - 48) = Z.of_N d /\
  pretty_N_char d ∈ value_heads /\
  (d <> 0%N -> pretty_N_char d <> "0"%char).
Proof.
  intros H.
  assert (d = 0 \/ d = 1 \/ d = 2 \/ d = 3 \/ d = 4 \/ d = 5 \/ d = 6 \/ d = 7
          \/ d = 8 \/ d = 9)%N as Hd by lia.
  unfold value_heads.
  repeat (destruct Hd as [-> | Hd]; [repeat split; try done; set_solver|]).
  subst d. repeat split; try done; set_solver.
Qed.

Lemma parse_digits_digit (c : ascii) (s : string) (acc : Z) :
  is_digit c = true ->
  parse_digits (String c s) acc
  = parse_digits s (10 * acc + Z.of_N (N_of_ascii c - 48)).
Proof. intros H. cbn [parse_digits]. by rewrite H. Qed.

(** Reading back the digits [pretty] wrote in front of [s]. *)
Lemma parse_digits_pretty_go (x : N) :
  exists k : Z, 0 <= k /\
    forall s t acc,
      parse_digits (pretty_N_go x s +:+ t) acc
      = parse_digits (s +:+ t) (acc * 10 ^ k + Z.of_N x).
Proof.
  induction (N.lt_wf_0 x) as [x _ IH].
  destruct (decide (x = 0%N)) as [-> | Hx].
  - exists 0. split; [done|]. intros s t acc. rewrite pretty_N_go_0.
    f_equal. lia.
  - destruct (IH (x `div` 10)%N) as (k & Hk & Hgo).
    { apply N.div_lt; lia. }
    exists (k + 1). split; [lia|]. intros s t acc.
    rewrite pretty_N_go_step by lia. rewrite Hgo. rewrite append_cons.
    destruct (pretty_digit (x `mod` 10)%N) as (Hdig & Hval & _).
    { apply N.mod_lt. lia. }
    rewrite parse_digits_digit by done. rewrite Hval. f_equal.
    rewrite Z.pow_add_r by lia.
    pose proof (N.div_mod x 10 ltac:(lia)) as Hdm.
    assert (Z.of_N x = 10 * Z.of_N (x `div` 10) + Z.of_N (x `mod` 10)) by lia.
    lia.
Qed.

(** The text of a positive number starts with a digit that is not zero. *)
Lemma pretty_N_go_head (x : N) (s : string) :
  (0 < x)%N ->
  exists c t, pretty_N_go x s = String c t /\ is_digit c = true /\
              c <> "0"%char /\ c ∈ value_heads.
Proof.
  revert s. induction (N.lt_wf_0 x) as [x _ IH]. intros s Hx.
  rewrite pretty_N_go_step by done.
  destruct (decide (x < 10)%N) as [Hsmall | Hbig].
  - replace (x `div` 10)%N with 0%N by (symmetry; apply N.div_small; lia).
    rewrite pretty_N_go_0. rewrite N.mod_small by lia.
    destruct (pretty_digit x Hsmall) as (Hd & _ & Hh & Hnz).
    eexists _, _. split; [reflexivity|]. split; [done|]. split; [apply Hnz; lia | done].
  - apply IH.
    + apply N.div_lt; lia.
    + apply N.div_str_pos. lia.
Qed.

Lemma parse_digits_stop (t : string) (acc : Z) :
  value_end t = true -> parse_digits t acc = (acc, t).
Proof.
  destruct t as [|c t]; [done|]. cbn. intros H.
  destruct (is_digit c); [discriminate | done].
Qed.

Lemma value_end_digit (t : string) :
  value_end t = true ->
  match t with EmptyString => false | String c _ => is_digit c end = false.
Proof.
  destruct t as [|c t]; [done|]. unfold value_end.
  destruct (is_digit c); [discriminate | done].
Qed.

Lemma value_end_fraction (t : string) :
  value_end t = true ->
  match t with
  | EmptyString => false
  | String r _ =>
      bool_decide (r = "."%char) || bool_decide (r = "e"%char)
      || bool_decide (r = "E"%char)
  end = false.
Proof.
  destruct t as [|c t]; [done|]. unfold value_end.
  destruct (is_digit c), (bool_decide (c = "."%char)),
    (bool_decide (c = "e"%char)), (bool_decide (c = "E"%char)); done.
Qed.

(** An unsigned number is read back, provided the text does not go on
    like a number. *)
Lemma parse_nat_literal_pretty (n : N) (t : string) :
  value_end t = true ->
  parse_nat_literal (pretty n +:+ t) = Some (Z.of_N n, t) /\
  exists c s, pretty n = String c s /\ is_digit c = true /\ c ∈ value_heads.
Proof.
  intros Ht. unfold pretty, pretty_N. destruct (decide (n = 0%N)) as [-> | Hn].
  - split.
    + change ("0" +:+ t) with (String "0" t). unfold parse_nat_literal.
      change (is_digit "0") with true. cbv iota.
      rewrite parse_digits_digit by done. rewrite parse_digits_stop by done.
      by rewrite value_end_digit, value_end_fraction.
    + eexists _, _. split; [reflexivity|]. split; [done|]. unfold value_heads. set_solver.
  - destruct (pretty_N_go_head n EmptyString) as (c & s & Hhead & Hdig & Hnz & Hh); [lia|].
    split; [|eauto].
    destruct (parse_digits_pretty_go n) as (k & _ & Hgo).
    unfold parse_nat_literal. rewrite Hhead, append_cons, Hdig.
    rewrite <- append_cons, <- Hhead, Hgo. rewrite append_nil.
    rewrite parse_digits_stop by done.
    rewrite (bool_decide_eq_false_2 (c = "0"%char)) by done. cbn [andb orb].
    rewrite value_end_fraction by done.
    reflexivity.
Qed.


Lemma parse_value_digit (c : ascii) (s : string) (fuel : nat) :
  is_digit c = true ->
  parse_value (S fuel) (String c s) =
  match parse_nat_literal (String c s) with
  | Some (n, rest) => Some (VInt n, rest)
  | None => None
  end.
Proof.
  destruct c as [[] [] [] [] [] [] [] []]; try discriminate; reflexivity.
Qed.

Lemma parse_value_minus (s : string) (fuel : nat) :
  parse_value (S fuel) (String "-" s) =
  match parse_nat_literal s with
  | Some (n, rest) => Some (VInt (- n), rest)
  | None => None
  end.
Proof. reflexivity. Qed.

Lemma parse_value_int (n : Z) (rest : string) (fuel : nat) :
  value_end rest = true ->
  parse_value (S fuel) (pretty n +:+ rest) = Some (VInt n, rest).
Proof.
  intros Hend. destruct n as [|p|p].
  - destruct (parse_nat_literal_pretty 0 rest Hend) as [Hp _].
    change (pretty 0%Z) with "0". change (pretty 0%N) with "0" in Hp.
    change ("0" +:+ rest) with (String "0" rest) in *.
    rewrite parse_value_digit by done. by rewrite Hp.
  - change (pretty (Z.pos p)) with (pretty (N.pos p)).
    destruct (parse_nat_literal_pretty (Npos p) rest Hend) as (Hp & c & s & Hs & Hd & _).
    rewrite Hs in *. rewrite append_cons in *.
    rewrite parse_value_digit by done. by rewrite Hp.
  - change (pretty (Z.neg p)) with ("-" +:+ pretty (N.pos p)).
    destruct (parse_nat_literal_pretty (Npos p) rest Hend) as (Hp & _).
    rewrite append_assoc. change ("-" +:+ ?x) with (String "-" x).
    rewrite parse_value_minus, Hp. reflexivity.
Qed.

Lemma json_dumps_head (v : pyvalue) (text : string) :
  json_dumps v = Returned text ->
  exists c t, text = String c t /\ c ∈ value_heads.
Proof.
  unfold value_heads.
  destruct v as [|b|n|s|items|entries|t]; cbn [json_dumps].
  - intros [= <-]. eexists _, _. split; [reflexivity | set_solver].
  - destruct b; intros [= <-]; eexists _, _; (split; [reflexivity | set_solver]).
  - intros [= <-]. destruct n as [|p|p].
    + eexists _, _. split; [reflexivity | set_solver].
    + destruct (parse_nat_literal_pretty (Npos p) EmptyString eq_refl)
        as (_ & c & s & Hs & _ & Hh).
      change (pretty (Z.pos p)) with (pretty (N.pos p)). rewrite Hs. eauto.
    + eexists _, _. split; [reflexivity | set_solver].
  - intros [= <-]. eexists _, _. split; [reflexivity | set_solver].
  - destruct (dumps_items json_dumps items true); intros [= <-].
    eexists _, _. split; [reflexivity | set_solver].
  - destruct (dumps_entries json_dumps entries true); intros [= <-].
    eexists _, _. split; [reflexivity | set_solver].
  - discriminate.
Qed.

Lemma parse_value_space (fuel : nat) (s : string) :
  parse_value fuel (String " " s) = parse_value fuel s.
Proof. destruct fuel; reflexivity. Qed.

Lemma parse_elements_space (pvf fuel : nat) (s : string) (acc : list pyvalue) :
  parse_elements (parse_value pvf) fuel (String " " s) acc
  = parse_elements (parse_value pvf) fuel s acc.
Proof. destruct fuel; [reflexivity|]. cbn [parse_elements]. by rewrite parse_value_space. Qed.

Lemma parse_members_space (pv : string -> option (pyvalue * string)) (fuel : nat)
    (s : string) (acc : pydict) :
  parse_members pv fuel (String " " s) acc = parse_members pv fuel s acc.
Proof. destruct fuel; reflexivity. Qed.

Lemma parse_elements_close (pv : string -> option (pyvalue * string)) (fuel : nat)
    (s r : string) (v : pyvalue) (acc : list pyvalue) :
  pv s = Some (v, String "]" r) ->
  parse_elements pv (S fuel) s acc = Some (VList (rev (v :: acc)), r).
Proof. intros H. cbn [parse_elements]. by rewrite H. Qed.

Lemma parse_elements_comma (pv : string -> option (pyvalue * string)) (fuel : nat)
    (s r : string) (v : pyvalue) (acc : list pyvalue) :
  pv s = Some (v, String "," r) ->
  parse_elements pv (S fuel) s acc = parse_elements pv fuel r (v :: acc).
Proof. intros H. cbn [parse_elements]. by rewrite H. Qed.

Lemma parse_members_close (pv : string -> option (pyvalue * string)) (fuel : nat)
    (s1 s3 r key : string) (v : pyvalue) (acc : pydict) :
  parse_string s1 EmptyString = Some (key, String ":" s3) ->
  pv s3 = Some (v, String "}" r) ->
  parse_members pv (S fuel) (String dquote s1) acc
  = Some (VDict (dict_set acc key v), r).
Proof.
  intros H1 H2. cbn [parse_members].
  change (skip_ws (String dquote s1)) with (String dquote s1). cbv beta iota.
  rewrite (bool_decide_eq_true_2 _ eq_refl), H1.
  change (skip_ws (String ":" s3)) with (String ":" s3). cbv beta iota.
  rewrite H2. reflexivity.
Qed.

Lemma parse_members_comma (pv : string -> option (pyvalue * string)) (fuel : nat)
    (s1 s3 r key : string) (v : pyvalue) (acc : pydict) :
  parse_string s1 EmptyString = Some (key, String ":" s3) ->
  pv s3 = Some (v, String "," r) ->
  parse_members pv (S fuel) (String dquote s1) acc
  = parse_members pv fuel r (dict_set acc key v).
Proof.
  intros H1 H2. cbn [parse_members].
  change (skip_ws (String dquote s1)) with (String dquote s1). cbv beta iota.
  rewrite (bool_decide_eq_true_2 _ eq_refl), H1.
  change (skip_ws (String ":" s3)) with (String ":" s3). cbv beta iota.
  rewrite H2. reflexivity.
Qed.

Lemma dumps_items_cons (x : pyvalue) (l : list pyvalue) (first : bool) (body : string) :
  dumps_items json_dumps (x :: l) first = Returned body ->
  exists sx tl,
    json_dumps x = Returned sx /\ dumps_items json_dumps l false = Returned tl /\
    body = (if first then EmptyString else ", ") +:+ sx +:+ tl.
Proof.
  cbn [dumps_items]. destruct (json_dumps x) as [sx|]; [|discriminate].
  destruct (dumps_items json_dumps l false) as [tl|]; [|discriminate].
  intros [= <-]. eauto.
Qed.

Lemma dumps_entries_cons (k : string) (x : pyvalue) (l : pydict) (first : bool)
    (body : string) :
  dumps_entries json_dumps ((k, x) :: l) first = Returned body ->
  exists sx tl,
    json_dumps x = Returned sx /\ dumps_entries json_dumps l false = Returned tl /\
    body = (if first then EmptyString else ", ") +:+ json_string k +:+ ": " +:+ sx +:+ tl.
Proof.
  cbn [dumps_entries]. destruct (json_dumps x) as [sx|]; [|discriminate].
  destruct (dumps_entries json_dumps l false) as [tl|]; [|discriminate].
  intros [= <-]. eauto.
Qed.

(** After an element comes a comma or the closing bracket. *)
Lemma items_tail_end (l : list pyvalue) (tl rest : string) (close : ascii) :
  dumps_items json_dumps l false = Returned tl ->
  value_end (String close rest) = true ->
  value_end (tl +:+ String close rest) = true.
Proof.
  destruct l as [|y l]; [by intros [= <-]|].
  intros (sy & tl' & _ & _ & ->)%dumps_items_cons _. reflexivity.
Qed.

Lemma entries_tail_end (l : pydict) (tl rest : string) (close : ascii) :
  dumps_entries json_dumps l false = Returned tl ->
  value_end (String close rest) = true ->
  value_end (tl +:+ String close rest) = true.
Proof.
  destruct l as [|[k y] l]; [by intros [= <-]|].
  intros (sy & tl' & _ & _ & ->)%dumps_entries_cons _. reflexivity.
Qed.

Lemma parse_elements_dumps (pvf : nat) (rest : string) (l : list pyvalue) :
  forall (x : pyvalue) (acc : list pyvalue) (fuel : nat) (sx tl : string),
    (forall y, y ∈ x :: l -> forall text r,
        json_dumps y = Returned text -> value_end r = true ->
        parse_value pvf (text +:+ r) = Some (y, r)) ->
    json_dumps x = Returned sx ->
    dumps_items json_dumps l false = Returned tl ->
    (length l < fuel)%nat ->
    parse_elements (parse_value pvf) fuel (sx +:+ tl +:+ String "]" rest) acc
    = Some (VList (rev acc ++ x :: l), rest).
Proof.
  induction l as [|y l IH]; intros x acc fuel sx tl Hpv Hx Htl Hfuel;
    (destruct fuel as [|fuel]; [lia|]).
  - injection Htl as <-. rewrite append_nil.
    erewrite (parse_elements_close _ _ _ rest x); [done|].
    apply Hpv; [left | done | done].
  - destruct (dumps_items_cons _ _ _ _ Htl) as (sy & tl' & Hy & Htl' & ->).
    rewrite !append_assoc.
    change (", " +:+ ?s) with (String "," (String " " s)).
    erewrite parse_elements_comma; last first.
    { apply Hpv; [left | done | done]. }
    rewrite parse_elements_space.
    rewrite (IH y (x :: acc) fuel sy tl'); [| |done|done|simpl in Hfuel; lia].
    + cbn [rev]. by rewrite <- app_assoc.
    + intros z Hz. apply Hpv. by right.
Qed.

Lemma dict_set_fresh {V} (d : list (string * V)) (key : string) (value : V) :
  key ∉ map fst d -> dict_set d key value = d ++ [(key, value)].
Proof.
  induction d as [|[k v] d IH]; [done|]. cbn [map fst dict_set]. intros Hk.
  apply not_elem_of_cons in Hk as [Hne Hk].
  rewrite bool_decide_eq_false_2 by congruence. by rewrite IH.
Qed.

Lemma json_string_append (k rest : string) :
  json_string k +:+ rest = String dquote (json_escape k +:+ String dquote rest).
Proof. unfold json_string. by rewrite append_cons, append_assoc. Qed.

Lemma parse_members_dumps (pvf : nat) (rest : string) (l : pydict) :
  forall (k : string) (x : pyvalue) (acc : pydict) (fuel : nat) (sx tl : string),
    (forall y, y ∈ x :: map snd l -> forall text r,
        json_dumps y = Returned text -> value_end r = true ->
        parse_value pvf (text +:+ r) = Some (y, r)) ->
    NoDup (map fst acc ++ k :: map fst l) ->
    json_dumps x = Returned sx ->
    dumps_entries json_dumps l false = Returned tl ->
    (length l < fuel)%nat ->
    parse_members (parse_value pvf) fuel
      (json_string k +:+ ": " +:+ sx +:+ tl +:+ String "}" rest) acc
    = Some (VDict (acc ++ (k, x) :: l), rest).
Proof.
  induction l as [|[k' y] l IH]; intros k x acc fuel sx tl Hpv Hnd Hx Htl Hfuel;
    (destruct fuel as [|fuel]; [simpl in Hfuel; lia|]);
    assert (Hfresh : k ∉ map fst acc)
      by (apply NoDup_app in Hnd as (_ & Hnd & _); intros Hin;
          apply (Hnd k Hin); left).
  - injection Htl as <-. rewrite append_nil, json_string_append.
    change (": " +:+ ?s) with (String ":" (String " " s)).
    erewrite (parse_members_close _ _ _ _ rest k x).
    + by rewrite dict_set_fresh.
    + apply parse_json_string.
    + rewrite parse_value_space. apply Hpv; [left | done | done].
  - destruct (dumps_entries_cons _ _ _ _ _ Htl) as (sy & tl' & Hy & Htl' & ->).
    rewrite json_string_append, !append_assoc.
    change (": " +:+ ?s) with (String ":" (String " " s)).
    change (", " +:+ ?s) with (String "," (String " " s)).
    erewrite parse_members_comma; [|apply parse_json_string|]; last first.
    { rewrite parse_value_space. apply Hpv; [left | done | done]. }
    rewrite parse_members_space, dict_set_fresh by done.
    rewrite (IH k' y (acc ++ [(k, x)]) fuel sy tl'); [| | |done|done|simpl in Hfuel; lia].
    + by rewrite <- app_assoc.
    + intros z Hz. apply Hpv. by right.
    + rewrite map_app, <- app_assoc. exact Hnd.
Qed.

Lemma parse_value_open_list (c : ascii) (s : string) (fuel : nat) :
  c ∈ value_heads ->
  parse_value (S fuel) (String "[" (String c s))
  = parse_elements (parse_value fuel) fuel (String c s) [].
Proof.
  unfold value_heads. intros Hc.
  repeat (apply elem_of_cons in Hc as [-> | Hc]; [reflexivity|]).
  by apply elem_of_nil in Hc.
Qed.

Lemma parse_value_open_dict (s : string) (fuel : nat) :
  parse_value (S fuel) (String "{" (String dquote s))
  = parse_members (parse_value fuel) fuel (String dquote s) [].
Proof. reflexivity. Qed.

Lemma parse_value_quote (s : string) (fuel : nat) :
  parse_value (S fuel) (String dquote s)
  = match parse_string s EmptyString with
    | Some (str, rest') => Some (VStr str, rest')
    | None => None
    end.
Proof. reflexivity. Qed.

Lemma fuel_need_items (y : pyvalue) (items : list pyvalue) :
  y ∈ items ->
  (fuel_need y <= fold_right (fun x n => max (fuel_need x) n) O items)%nat.
Proof.
  induction items as [|x items IH]; [by intros ?%elem_of_nil|].
  intros [-> | Hy]%elem_of_cons; cbn [fold_right]; [lia|].
  specialize (IH Hy). lia.
Qed.

Lemma fuel_need_entries (y : pyvalue) (entries : pydict) :
  y ∈ map snd entries ->
  (fuel_need y <= fold_right (fun '(_, x) n => max (fuel_need x) n) O entries)%nat.
Proof.
  induction entries as [|[k x] entries IH]; [by intros ?%elem_of_nil|].
  cbn [map snd]. intros [-> | Hy]%elem_of_cons; cbn [fold_right]; [lia|].
  specialize (IH Hy). lia.
Qed.

(** The decoder reads back the text of a value, up to the first character
    after it. *)
Lemma parse_value_dumps (v : pyvalue) :
  well_keyed v = true ->
  forall (text : string), json_dumps v = Returned text ->
  forall (fuel : nat) (rest : string),
    (fuel_need v <= fuel)%nat -> value_end rest = true ->
    parse_value fuel (text +:+ rest) = Some (v, rest).
Proof.
  induction v as [|b|n|s|items IH|entries IH|t] using pyvalue_rect';
    intros Hkeys text Hdumps fuel rest Hfuel Hend;
    (destruct fuel as [|fuel]; [cbn [fuel_need] in Hfuel; lia|]).
  - injection Hdumps as <-. reflexivity.
  - destruct b; injection Hdumps as <-; reflexivity.
  - injection Hdumps as <-. by apply parse_value_int.
  - injection Hdumps as <-.
    by rewrite json_string_append, parse_value_quote, parse_json_string.
  - cbn [json_dumps] in Hdumps. cbn [fuel_need] in Hfuel.
    destruct (dumps_items json_dumps items true) as [body|] eqn:Hbody; [|discriminate].
    injection Hdumps as <-.
    destruct items as [|x l]; [by injection Hbody as <-|].
    destruct (dumps_items_cons _ _ _ _ Hbody) as (sx & tl & Hx & Htl & ->).
    destruct (json_dumps_head _ _ Hx) as (c & t & -> & Hc).
    rewrite append_nil, !append_assoc.
    change ("[" +:+ ?s) with (String "[" s). rewrite !append_cons.
    rewrite parse_value_open_list by done.
    rewrite <- !append_cons.
    change ("]" +:+ rest) with (String "]" rest).
    rewrite (parse_elements_dumps fuel rest l x [] fuel (String c t) tl);
      [done | | done | done | cbn [length] in Hfuel; lia].
    intros y Hy text r Hytext Hr.
    cbn [well_keyed] in Hkeys.
    rewrite forallb_forall in Hkeys. rewrite Forall_forall in IH.
    apply IH; [done | | done | | done].
    + apply Hkeys. by apply list_elem_of_In.
    + pose proof (fuel_need_items y (x :: l) Hy). lia.
  - cbn [json_dumps] in Hdumps. cbn [fuel_need] in Hfuel.
    destruct (dumps_entries json_dumps entries true) as [body|] eqn:Hbody; [|discriminate].
    injection Hdumps as <-.
    destruct entries as [|[k x] l]; [by injection Hbody as <-|].
    destruct (dumps_entries_cons _ _ _ _ _ Hbody) as (sx & tl & Hx & Htl & ->).
    cbn [well_keyed] in Hkeys. apply andb_true_iff in Hkeys as [Hnd Hkeys].
    apply bool_decide_eq_true in Hnd.
    rewrite append_nil, !append_assoc.
    change ("{" +:+ ?s) with (String "{" s).
    change ("}" +:+ rest) with (String "}" rest).
    rewrite json_string_append, parse_value_open_dict, <- json_string_append.
    rewrite (parse_members_dumps fuel rest l k x [] fuel sx tl);
      [done | | done | done | done | cbn [length] in Hfuel; lia].
    intros y Hy text r Hytext Hr.
    rewrite forallb_forall in Hkeys. rewrite Forall_forall in IH.
    change (x :: map snd l) with (map snd ((k, x) :: l)) in Hy.
    apply list_elem_of_fmap in Hy as ([k' y'] & -> & Hin).
    apply (IH (k', y')); [done | | done | | done].
    + apply list_elem_of_In in Hin. exact (Hkeys _ Hin).
    + pose proof (fuel_need_entries y' ((k, x) :: l)) as Hle.
      cbn [snd]. etrans; [apply Hle|lia].
      apply list_elem_of_fmap. by exists (k', y').
  - discriminate.
Qed.

Lemma dumps_items_length (l : list pyvalue) :
  forall (first : bool) (body : string),
    Forall (fun x => forall t, json_dumps x = Returned t ->
                               (fuel_need x <= String.length t)%nat) l ->
    dumps_items json_dumps l first = Returned body ->
    (length l <= String.length body)%nat /\
    (fold_right (fun x n => max (fuel_need x) n) O l <= String.length body)%nat.
Proof.
  induction l as [|x l IH]; intros first body Hall Hbody.
  - cbn. lia.
  - destruct (dumps_items_cons _ _ _ _ Hbody) as (sx & tl & Hx & Htl & ->).
    apply Forall_cons in Hall as [Hxl Hall].
    destruct (IH false tl Hall Htl) as [Hlen Hmax].
    specialize (Hxl sx Hx).
    destruct (json_dumps_head _ _ Hx) as (c & t & -> & _).
    rewrite !append_length. cbn [length fold_right String.length] in *. lia.
Qed.

Lemma dumps_entries_length (l : pydict) :
  forall (first : bool) (body : string),
    Forall (fun kv => forall t, json_dumps (snd kv) = Returned t ->
                                (fuel_need (snd kv) <= String.length t)%nat) l ->
    dumps_entries json_dumps l first = Returned body ->
    (length l <= String.length body)%nat /\
    (fold_right (fun '(_, x) n => max (fuel_need x) n) O l <= String.length body)%nat.
Proof.
  induction l as [|[k x] l IH]; intros first body Hall Hbody.
  - cbn. lia.
  - destruct (dumps_entries_cons _ _ _ _ _ Hbody) as (sx & tl & Hx & Htl & ->).
    apply Forall_cons in Hall as [Hxl Hall].
    destruct (IH false tl Hall Htl) as [Hlen Hmax].
    specialize (Hxl sx Hx). cbn [snd] in Hxl.
    destruct (json_dumps_head _ _ Hx) as (c & t & -> & _).
    rewrite !append_length. cbn [length fold_right String.length] in *. lia.
Qed.

(** The length of a text bounds the fuel its decoding needs. *)
Lemma fuel_need_length (v : pyvalue) (text : string) :
  json_dumps v = Returned text -> (fuel_need v <= String.length text)%nat.
Proof.
  revert text.
  induction v as [|b|n|s|items IH|entries IH|t] using pyvalue_rect';
    intros text Hdumps.
  1-4: destruct (json_dumps_head _ _ Hdumps) as (c & t & -> & _);
       cbn [fuel_need String.length]; lia.
  - cbn [json_dumps] in Hdumps.
    destruct (dumps_items json_dumps items true) as [body|] eqn:Hbody; [|discriminate].
    injection Hdumps as <-.
    destruct (dumps_items_length items true body IH Hbody).
    rewrite !append_length. cbn [fuel_need String.length]. lia.
  - cbn [json_dumps] in Hdumps.
    destruct (dumps_entries json_dumps entries true) as [body|] eqn:Hbody; [|discriminate].
    injection Hdumps as <-.
    destruct (dumps_entries_length entries true body IH Hbody).
    rewrite !append_length. cbn [fuel_need String.length]. lia.
  - discriminate.
Qed.

Lemma append_empty (a : string) : a +:+ EmptyString = a.
Proof. induction a as [|x a IH]; [done|]. by rewrite append_cons, IH. Qed.

(** Decoding the text of a value gives the value back. *)
Lemma json_loads_dumps (v : pyvalue) (text : string) :
  well_keyed v = true -> json_dumps v = Returned text ->
  json_loads text = Returned v.
Proof.
  intros Hkeys Hdumps. unfold json_loads.
  rewrite <- (append_empty text) at 2.
  rewrite (parse_value_dumps v Hkeys text Hdumps); [done| |done].
  pose proof (fuel_need_length v text Hdumps). lia.
Qed.

(* ------------------------------------------------------------------ *)
(** ** Reading the audit file back *)

Lemma all_chars_app (p : ascii -> bool) (a b : string) :
  all_chars p (a +:+ b) = all_chars p a && all_chars p b.
Proof.
  induction a as [|c a IH]; [done|]. rewrite append_cons. cbn [all_chars].
  by rewrite IH, andb_assoc.
Qed.

Lemma json_escape_char_printable (c : ascii) :
  all_chars printable (json_escape_char c) = true.
Proof. destruct c as [[] [] [] [] [] [] [] []]; reflexivity. Qed.

Lemma json_escape_printable (s : string) :
  all_chars printable (json_escape s) = true.
Proof.
  induction s as [|c s IH]; [done|]. cbn [json_escape].
  by rewrite all_chars_app, json_escape_char_printable, IH.
Qed.

Lemma is_digit_printable (c : ascii) : is_digit c = true -> printable c = true.
Proof. unfold is_digit, printable. intros H. apply andb_true_iff in H as [H1 H2].
  apply N.leb_le in H1, H2. apply andb_true_iff. split; apply N.leb_le; lia. Qed.

Lemma pretty_N_go_printable (x : N) (s : string) :
  all_chars printable s = true -> all_chars printable (pretty_N_go x s) = true.
Proof.
  revert s. induction (N.lt_wf_0 x) as [x _ IH]. intros s Hs.
  destruct (decide (x = 0%N)) as [-> | Hx]; [by rewrite pretty_N_go_0|].
  rewrite pretty_N_go_step by lia. apply IH; [apply N.div_lt; lia|].
  cbn [all_chars]. rewrite Hs, andb_true_r.
  apply is_digit_printable, pretty_digit, N.mod_lt. lia.
Qed.

Lemma pretty_N_printable (n : N) : all_chars printable (pretty n) = true.
Proof.
  unfold pretty, pretty_N. destruct (decide (n = 0%N)); [done|].
  by apply pretty_N_go_printable.
Qed.

Lemma pretty_Z_printable (n : Z) : all_chars printable (pretty n) = true.
Proof.
  destruct n as [|p|p].
  - reflexivity.
  - change (pretty (Z.pos p)) with (pretty (N.pos p)). apply pretty_N_printable.
  - change (pretty (Z.neg p)) with ("-" +:+ pretty (N.pos p)).
    rewrite all_chars_app, pretty_N_printable. reflexivity.
Qed.

Lemma dumps_items_printable (l : list pyvalue) :
  forall (first : bool) (body : string),
    Forall (fun x => forall t, json_dumps x = Returned t ->
                               all_chars printable t = true) l ->
    dumps_items json_dumps l first = Returned body ->
    all_chars printable body = true.
Proof.
  induction l as [|x l IH]; intros first body Hall Hbody.
  - by injection Hbody as <-.
  - destruct (dumps_items_cons _ _ _ _ Hbody) as (sx & tl & Hx & Htl & ->).
    apply Forall_cons in Hall as [Hxl Hall].
    rewrite !all_chars_app, (Hxl sx Hx), (IH false tl Hall Htl).
    by destruct first.
Qed.

Lemma dumps_entries_printable (l : pydict) :
  forall (first : bool) (body : string),
    Forall (fun kv => forall t, json_dumps (snd kv) = Returned t ->
                                all_chars printable t = true) l ->
    dumps_entries json_dumps l first = Returned body ->
    all_chars printable body = true.
Proof.
  induction l as [|[k x] l IH]; intros first body Hall Hbody.
  - by injection Hbody as <-.
  - destruct (dumps_entries_cons _ _ _ _ _ Hbody) as (sx & tl & Hx & Htl & ->).
    apply Forall_cons in Hall as [Hxl Hall].
    rewrite !all_chars_app, (Hxl sx Hx), (IH false tl Hall Htl).
    unfold json_string. cbn [all_chars]. rewrite all_chars_app, json_escape_printable.
    by destruct first.
Qed.

(** The encoder writes printable ASCII only. *)
Lemma json_dumps_printable (v : pyvalue) (text : string) :
  json_dumps v = Returned text -> all_chars printable text = true.
Proof.
  revert text.
  induction v as [|b|n|s|items IH|entries IH|t] using pyvalue_rect';
    intros text Hdumps.
  - by injection Hdumps as <-.
  - by destruct b; injection Hdumps as <-.
  - injection Hdumps as <-. apply pretty_Z_printable.
  - injection Hdumps as <-. unfold json_string. cbn [all_chars].
    by rewrite all_chars_app, json_escape_printable.
  - cbn [json_dumps] in Hdumps.
    destruct (dumps_items json_dumps items true) as [body|] eqn:Hbody; [|discriminate].
    injection Hdumps as <-.
    rewrite !all_chars_app, (dumps_items_printable items true body IH Hbody).
    reflexivity.
  - cbn [json_dumps] in Hdumps.
    destruct (dumps_entries json_dumps entries true) as [body|] eqn:Hbody; [|discriminate].
    injection Hdumps as <-.
    rewrite !all_chars_app, (dumps_entries_printable entries true body IH Hbody).
    reflexivity.
  - discriminate.
Qed.

Lemma printable_no_break (c : ascii) :
  printable c = true -> is_line_break c = false /\ is_space c = bool_decide (c = " "%char).
Proof. destruct c as [[] [] [] [] [] [] [] []]; try discriminate; done. Qed.

(** A line of printable characters, ended by a line feed, is one line. *)
Lemma splitlines_from_line (text rest : string) :
  all_chars printable text = true ->
  forall cur,
    splitlines_from (text +:+ newline +:+ rest) cur
    = String.rev_app cur text :: splitlines rest.
Proof.
  induction text as [|c text IH]; intros Hp cur.
  - rewrite append_nil. unfold newline. rewrite append_cons, append_nil.
    cbn [splitlines_from]. change (is_line_break "010") with true. cbv iota.
    by destruct rest.
  - cbn [all_chars] in Hp. apply andb_true_iff in Hp as [Hc Hp].
    rewrite append_cons. cbn [splitlines_from].
    rewrite (proj1 (printable_no_break c Hc)). by rewrite IH.
Qed.

Lemma splitlines_records (vs : list pyvalue) (written : list string) :
  Forall2 audit_record vs written ->
  Forall2 (fun v line => json_dumps v = Returned line)
    vs (splitlines (foldr String.append EmptyString written)).
Proof.
  induction 1 as [|v chunk vs written (text & Hv & ->) _ IH]; [constructor|].
  cbn [foldr]. rewrite append_assoc. unfold splitlines at 1.
  rewrite splitlines_from_line by by eapply json_dumps_printable.
  by constructor.
Qed.

Lemma json_dumps_not_blank (v : pyvalue) (text : string) :
  json_dumps v = Returned text -> blank text = false.
Proof.
  intros (c & t & -> & Hc)%json_dumps_head. unfold value_heads in Hc.
  repeat (apply elem_of_cons in Hc as [-> | Hc]; [reflexivity|]).
  by apply elem_of_nil in Hc.
Qed.

Lemma load_lines_records (vs : list pyvalue) (lines : list string) :
  Forall2 (fun v line => json_dumps v = Returned line) vs lines ->
  Forall (fun v => well_keyed v = true) vs ->
  load_lines lines = Returned vs.
Proof.
  induction 1 as [|v line vs lines Hv _ IH]; [done|].
  intros [Hk Hks]%Forall_cons. cbn [load_lines].
  by rewrite (json_dumps_not_blank v line Hv), (json_loads_dumps v line Hk Hv), IH.
Qed.

Lemma last_lines_records {A B} (R : A -> B -> Prop) (tail : Z)
    (l : list A) (k : list B) :
  Forall2 R l k -> Forall2 R (last_lines tail l) (last_lines tail k).
Proof.
  intros H. unfold last_lines, slice_from. rewrite (Forall2_length _ _ _ H).
  destruct (bool_decide _); [done|]. destruct (_ <? _); by apply Forall2_drop.
Qed.

Lemma last_lines_all {A} (P : A -> Prop) (tail : Z) (l : list A) :
  Forall P l -> Forall P (last_lines tail l).
Proof.
  intros H. unfold last_lines, slice_from.
  destruct (bool_decide _); [done|]. destruct (_ <? _); by apply Forall_drop.
Qed.

Lemma tail_entries_records (vs : list pyvalue) (written : list string) (tail : Z) :
  Forall2 audit_record vs written ->
  Forall (fun v => well_keyed v = true) vs ->
  tail_entries (foldr String.append EmptyString written) tail
  = Returned (last_lines tail vs).
Proof.
  intros Hrec Hkeys. unfold tail_entries. apply load_lines_records.
  - by apply last_lines_records, splitlines_records.
  - by apply last_lines_all.
Qed.

Lemma dict_set_keys {V} (d : list (string * V)) (key : string) (value : V) :
  NoDup (map fst d) -> NoDup (map fst (dict_set d key value)).
Proof.
  intros Hnd. destruct (decide (key ∈ map fst d)) as [Hin | Hout].
  - assert (map fst (dict_set d key value) = map fst d) as ->; [|done].
    clear Hnd. induction d as [|[k v] d IH]; [by apply elem_of_nil in Hin|].
    cbn [dict_set]. destruct (bool_decide (k = key)) eqn:E; [done|].
    apply bool_decide_eq_false in E. cbn [map fst] in *.
    apply elem_of_cons in Hin as [-> | Hin]; [done|]. by rewrite IH.
  - rewrite dict_set_fresh, map_app by done. apply NoDup_app. split; [done|].
    split; [|apply NoDup_singleton].
    intros x Hx ->%list_elem_of_singleton. done.
Qed.

Lemma dict_set_values {V} (P : V -> bool) (d : list (string * V)) (key : string)
    (value : V) :
  forallb (fun '(_, x) => P x) d = true -> P value = true ->
  forallb (fun '(_, x) => P x) (dict_set d key value) = true.
Proof.
  intros Hd Hv. induction d as [|[k v] d IH]; cbn [dict_set forallb] in *.
  - by rewrite Hv.
  - apply andb_true_iff in Hd as [Hx Hd].
    destruct (bool_decide (k = key)); cbn [forallb].
    + by rewrite Hv, Hd.
    + by rewrite Hx, IH.
Qed.

Lemma well_keyed_redact (self : AuditLogger) (v : pyvalue) :
  well_keyed v = true -> well_keyed (_redact self v) = true.
Proof.
  induction v as [|b|n|s|items IH|entries IH|t] using pyvalue_rect'; try done.
  - cbn [_redact well_keyed]. rewrite !forallb_forall, Forall_forall in *.
    intros Hk y [x [<- Hx]]%in_map_iff.
    apply IH; [by apply list_elem_of_In | by apply Hk].
  - cbn [_redact well_keyed]. intros [Hnd Hk]%andb_true_iff.
    apply andb_true_iff. split.
    + rewrite map_map.
      erewrite map_ext; [exact Hnd|]. by intros [k x].
    + rewrite forallb_forall in *. rewrite Forall_forall in IH.
      intros [k y] [[k' x] [[= <- <-] Hx]]%in_map_iff.
      apply (IH (k', x)); [by apply list_elem_of_In | exact (Hk _ Hx)].
Qed.

Lemma well_keyed_stamped (w : World) (d : pydict) :
  well_keyed (VDict d) = true -> well_keyed (VDict (stamped w d)) = true.
Proof.
  cbn [well_keyed]. intros [Hnd Hk]%andb_true_iff.
  apply bool_decide_eq_true in Hnd. apply andb_true_iff. split.
  - apply bool_decide_eq_true. by apply dict_set_keys.
  - by apply (dict_set_values well_keyed).
Qed.

(** The audit endpoint gives back what was logged: after a call of [log]
    on a file that holds logged entries only, the endpoint returns the
    last [tail] entries — all of them for [tail = 0] —, in the order of
    logging, the newest being the caller's dictionary with its time
    stamp, redacted. *)
Theorem audit_endpoint_reads_back_log (self : AuditLogger) (payload : nat)
    (d : pydict) (vs : list pyvalue) (tail : Z) (w w' : World) :
  Forall2 audit_record vs (audit_file w) ->
  Forall (fun v => well_keyed v = true) vs ->
  heap w !! payload = Some d ->
  well_keyed (VDict d) = true ->
  log self payload w = (Returned tt, w') ->
  audit_logs tail w'
  = (Returned
       [("entries",
         VList (last_lines tail (vs ++ [_redact self (VDict (stamped w d))])))],
     w').
Proof.
  intros Hrec Hkeys Hd Hdk Hlog. rewrite (log_run self payload d w Hd) in Hlog.
  cbv zeta in Hlog.
  destruct (json_dumps (_redact self (VDict (stamped w d)))) as [text|] eqn:Htext;
    [|discriminate].
  injection Hlog as <-. unfold audit_logs. run_m.
  cbn [audit_file with_audit_line with_heap].
  rewrite (tail_entries_records (vs ++ [_redact self (VDict (stamped w d))])).
  - reflexivity.
  - apply Forall2_app; [done|]. constructor; [|constructor]. by exists text.
  - apply Forall_app. split; [done|]. constructor; [|constructor].
    by apply well_keyed_redact, well_keyed_stamped.
Qed.

(** The first entry of a fresh audit file, read with [tail = 1]. *)
Lemma audit_endpoint_reads_back_log_witness :
  audit_logs 1 (snd (log hunter_logger 0 event_world))
  = (Returned
       [("entries",
         VList (last_lines 1
                  ([] ++ [_redact hunter_logger
                            (VDict (stamped event_world skill_event))])))],
     snd (log hunter_logger 0 event_world)).
Proof.
  apply (audit_endpoint_reads_back_log hunter_logger 0 skill_event [] 1 event_world).
  - exact (Forall2_nil_2 _ _ audit_record).
  - apply Forall_nil_2.
  - reflexivity.
  - reflexivity.
  - vm_compute. reflexivity.
Defined.

Lemma load_lines_bad_line (lines : list string) (line : string) (e : exn) :
  line ∈ lines -> blank line = false -> json_loads line = Raised e ->
  exists e', load_lines lines = Raised e'.
Proof.
  intros Hin Hnb Hbad. induction lines as [|l lines IH]; [by apply elem_of_nil in Hin|].
  cbn [load_lines]. apply elem_of_cons in Hin as [<- | Hin].
  - rewrite Hnb, Hbad. eauto.
  - destruct (IH Hin) as [e' He']. rewrite He'.
    destruct (blank l); [eauto|]. destruct (json_loads l); eauto.
Qed.

Lemma load_lines_length (lines : list string) (vs : list pyvalue) :
  load_lines lines = Returned vs -> (length vs <= length lines)%nat.
Proof.
  revert vs. induction lines as [|l lines IH]; intros vs; cbn [load_lines].
  - intros [= <-]. done.
  - destruct (blank l).
    + intros H. specialize (IH vs H). cbn [length]. lia.
    + destruct (json_loads l); [|discriminate].
      destruct (load_lines lines) as [vs'|]; [|discriminate].
      intros [= <-]. specialize (IH vs' eq_refl). cbn [length]. lia.
Qed.

Lemma read_tail_run (path : PurePath) (tail : Z) (text : string) (w : World) :
  entry_at (files w) (resolve w path) = Some (File text) ->
  read_tail path tail w =
  let w' := snd (emit (EReadText (resolve w path))
                   (snd (emit (EExists (resolve w path)) w))) in
  match tail_entries text tail with
  | Raised e => (Raised e, w')
  | Returned entries => (Returned entries, w')
  end.
Proof.
  intros Hfile. unfold read_tail, path_exists, read_text. run_m. cbn.
  rewrite Hfile. cbn. rewrite Hfile. by destruct (tail_entries text tail).
Qed.

(** One line that does not decode spoils the whole read: when any of the
    lines [read_tail] selects holds something other than white space and
    is a plain text that is not JSON, the call raises, whatever the other
    lines hold. *)
Theorem read_tail_fails_on_bad_line (path : PurePath) (tail : Z) (text line : string)
    (e : exn) (w : World) :
  entry_at (files w) (resolve w path) = Some (File text) ->
  line ∈ last_lines tail (splitlines text) ->
  blank line = false ->
  plain_json line = true ->
  json_loads line = Raised e ->
  exists e' w', read_tail path tail w = (Raised e', w').
Proof.
  intros Hfile Hin Hnb _ Hbad. rewrite (read_tail_run path tail text w Hfile).
  cbv zeta. unfold tail_entries.
  destruct (load_lines_bad_line _ line e Hin Hnb Hbad) as [e' ->]. eauto.
Qed.

(** The whole journal is asked for, and its second line is not JSON. *)
Lemma read_tail_fails_on_bad_line_witness :
  exists e' w',
    read_tail (Path "/data/dream_journal.jsonl") 0 journal_world = (Raised e', w').
Proof.
  apply (read_tail_fails_on_bad_line (Path "/data/dream_journal.jsonl") 0
           ("[1, 2]" +:+ newline +:+ "oops" +:+ newline +:+ "{}" +:+ newline)
           "oops" (Exn JSONDecodeError "Expecting value") journal_world).
  - reflexivity.
  - vm_compute. right. left.
  - reflexivity.
  - reflexivity.
  - reflexivity.
Defined.


(** A positive [tail] bounds the number of entries returned. *)
Theorem read_tail_bounded (path : PurePath) (tail : Z) (entries : list pyvalue)
    (w w' : World) :
  0 < tail ->
  read_tail path tail w = (Returned entries, w') ->
  Z.of_nat (length entries) <= tail.
Proof.
  intros Htail Hread.
  destruct (entry_at (files w) (resolve w path)) as [[text|]|] eqn:Hfile.
  - rewrite (read_tail_run path tail text w Hfile) in Hread. cbv zeta in Hread.
    destruct (tail_entries text tail) as [vs|] eqn:Hvs; [|discriminate].
    injection Hread as <- _.
    apply load_lines_length in Hvs. unfold last_lines, slice_from in Hvs.
    rewrite bool_decide_eq_false_2 in Hvs by lia.
    replace (- tail <? 0) with true in Hvs by (symmetry; apply Z.ltb_lt; lia).
    rewrite length_drop in Hvs. lia.
  - exfalso. revert Hread. unfold read_tail. run_m.
    rewrite path_exists_run, Hfile, bool_decide_eq_true_2 by eauto.
    cbn [negb]. unfold read_text. run_m. cbn [emit snd files resolve].
    by rewrite Hfile.
  - revert Hread. unfold read_tail. run_m.
    rewrite path_exists_run, Hfile, bool_decide_eq_false_2 by by intros [? ?].
    cbn [negb]. intros [= <- _]. cbn. lia.
Qed.

(** The last line of the journal alone is read with [tail = 1]. *)
Lemma read_tail_bounded_witness :
  Z.of_nat (length [VDict []]) <= 1.
Proof.
  apply (read_tail_bounded (Path "/data/dream_journal.jsonl") 1 [VDict []]
           journal_world
           (snd (read_tail (Path "/data/dream_journal.jsonl") 1 journal_world)));
    [lia | vm_compute; reflexivity].
Defined.

(* ------------------------------------------------------------------ *)
(** ** Chunking *)

Lemma slice_inside {A} (l : list A) (start stop : Z) :
  0 <= start <= stop -> stop <= Z.of_nat (length l) ->
  slice l start stop = take (Z.to_nat (stop - start)) (drop (Z.to_nat start) l).
Proof.
  intros H1 H2. unfold slice.
  replace (start <? 0) with false by (symmetry; apply Z.ltb_ge; lia).
  replace (stop <? 0) with false by (symmetry; apply Z.ltb_ge; lia).
  by rewrite !Z.min_l by lia.
Qed.

(** What the loop adds from [start] on, when the overlap is smaller than
    the size. *)
Lemma chunk_loop_spec (text : list ascii) (size overlap : Z) :
  0 <= overlap < size ->
  forall (n : nat) (start : Z) (chunks : list (list ascii)) (fuel : nat),
    0 <= start ->
    Z.of_nat (length text) - start <= Z.of_nat n ->
    (n < fuel)%nat ->
    exists new,
      chunk_loop fuel text size overlap start chunks = Some (chunks ++ new) /\
      reassemble overlap new = drop (Z.to_nat start) text /\
      Forall (fun c => 0 < Z.of_nat (length c) <= size) new /\
      match new with
      | [] => Z.of_nat (length text) <= start
      | c :: _ =>
          Z.of_nat (length c) = Z.min size (Z.of_nat (length text) - start)
      end.
Proof.
  intros Hov. induction n as [|n IH]; intros start chunks fuel Hstart Hn Hfuel;
    (destruct fuel as [|fuel]; [lia|]); cbn [chunk_loop]; cbv zeta.
  - replace (start <? Z.of_nat (length text)) with false
      by (symmetry; apply Z.ltb_ge; lia).
    exists []. rewrite app_nil_r. repeat split; [|constructor|lia].
    cbn. symmetry. apply drop_ge. lia.
  - destruct (start <? Z.of_nat (length text)) eqn:Hlt.
    2:{ apply Z.ltb_ge in Hlt. exists []. rewrite app_nil_r.
        repeat split; [|constructor|lia]. cbn. symmetry. apply drop_ge. lia. }
    apply Z.ltb_lt in Hlt.
    set (len := Z.of_nat (length text)) in *.
    set (stop := Z.min len (start + size)).
    assert (Hslice : slice text start stop
                     = take (Z.to_nat (stop - start)) (drop (Z.to_nat start) text))
      by (apply slice_inside; unfold stop, len in *; lia).
    assert (Hlen : Z.of_nat (length (slice text start stop)) = Z.min size (len - start)).
    { rewrite Hslice, length_take, length_drop. unfold stop, len in *. lia. }
    destruct (len <=? stop) eqn:Hdone.
    + apply Z.leb_le in Hdone. exists [slice text start stop].
      repeat split.
      * cbn. rewrite app_nil_r, Hslice. apply take_ge.
        rewrite length_drop. unfold stop, len in *. lia.
      * constructor; [lia | constructor].
      * exact Hlen.
    + apply Z.leb_gt in Hdone.
      assert (Hstop : stop = start + size) by (unfold stop; lia).
      destruct (IH (Z.max 0 (stop - overlap)) (chunks ++ [slice text start stop]) fuel)
        as (new & Hrun & Hjoin & Hall & Hhead); [lia | lia | lia |].
      rewrite Z.max_r in * by lia.
      exists (slice text start stop :: new). rewrite Hrun, <- app_assoc.
      repeat split.
      * destruct new as [|c cs]; [lia|].
        cbn [reassemble map concat]. cbn [reassemble] in Hjoin.
        assert (Hc : (Z.to_nat overlap <= length c)%nat) by lia.
        rewrite <- (drop_app_le c _ _ Hc), Hjoin, drop_drop, Hslice.
        replace (Z.to_nat (stop - overlap) + Z.to_nat overlap)%nat
          with (Z.to_nat start + Z.to_nat (stop - start))%nat by lia.
        rewrite <- drop_drop. apply take_drop.
      * constructor; [lia | done].
      * exact Hlen.
Qed.

(** More fuel does not change a result. *)
Lemma chunk_loop_fuel (text : list ascii) (size overlap : Z) (fuel : nat) :
  forall (fuel' : nat) (start : Z) (chunks result : list (list ascii)),
    (fuel <= fuel')%nat ->
    chunk_loop fuel text size overlap start chunks = Some result ->
    chunk_loop fuel' text size overlap start chunks = Some result.
Proof.
  induction fuel as [|fuel IH]; intros fuel' start chunks result Hle; [discriminate|].
  destruct fuel' as [|fuel']; [lia|]. cbn [chunk_loop]. cbv zeta.
  destruct (start <? _); [|done]. destruct (_ <=? _); [done|].
  apply IH. lia.
Qed.

(** With an overlap below the chunk size the loop ends after at most one
    turn for each character, and nothing of the text is lost: the chunks,
    each after the first shortened by the overlap, make up the text
    again.  No chunk is empty and none is longer than the chunk size. *)
Theorem chunk_text_covers (config : RagConfig) (text : list ascii) :
  0 <= chunk_overlap config < chunk_size config ->
  exists chunks,
    (forall fuel, (length text < fuel)%nat ->
                  _chunk_text fuel config text = Some chunks) /\
    reassemble (chunk_overlap config) chunks = text /\
    Forall (fun c => 0 < Z.of_nat (length c) <= chunk_size config) chunks.
Proof.
  intros Hov.
  destruct (chunk_loop_spec text _ _ Hov (length text) 0 [] (S (length text)))
    as (chunks & Hrun & Hjoin & Hall & _); [lia | lia | lia |].
  exists chunks. split; [|split; [exact Hjoin | exact Hall]].
  intros fuel Hfuel. unfold _chunk_text.
  apply (chunk_loop_fuel _ _ _ (S (length text))); [lia | exact Hrun].
Qed.

Lemma chunk_text_covers_witness :
  exists chunks,
    (forall fuel, (length (String.list_ascii_of_string "abcdefghij") < fuel)%nat ->
                  _chunk_text fuel small_rag (String.list_ascii_of_string "abcdefghij")
                  = Some chunks) /\
    reassemble (chunk_overlap small_rag) chunks
    = String.list_ascii_of_string "abcdefghij" /\
    Forall (fun c => 0 < Z.of_nat (length c) <= chunk_size small_rag) chunks.
Proof.
  apply (chunk_text_covers small_rag (String.list_ascii_of_string "abcdefghij")).
  cbn. lia.
Defined.

(** With an overlap that is not below the chunk size, a text longer than
    one chunk is never chunked: the next chunk starts where the last one
    did, and no number of turns ends the loop. *)
Theorem chunk_text_never_returns (config : RagConfig) (text : list ascii)
    (fuel : nat) :
  chunk_size config <= chunk_overlap config ->
  chunk_size config < Z.of_nat (length text) ->
  0 < Z.of_nat (length text) ->
  _chunk_text fuel config text = None.
Proof.
  intros Hov Hlong Hne. unfold _chunk_text. generalize (@nil (list ascii)).
  induction fuel as [|fuel IH]; intros chunks; [done|].
  cbn [chunk_loop]. cbv zeta.
  replace (0 <? Z.of_nat (length text)) with true by (symmetry; apply Z.ltb_lt; lia).
  replace (Z.of_nat (length text)
           <=? Z.min (Z.of_nat (length text)) (0 + chunk_size config))
    with false by (symmetry; apply Z.leb_gt; lia).
  replace (Z.max 0 (Z.min (Z.of_nat (length text)) (0 + chunk_size config)
                    - chunk_overlap config)) with 0 by lia.
  apply IH.
Qed.

Lemma chunk_text_never_returns_witness :
  _chunk_text 1000 swapped_rag (String.list_ascii_of_string "abc") = None.
Proof.
  apply (chunk_text_never_returns swapped_rag (String.list_ascii_of_string "abc") 1000);
    cbn; lia.
Defined.

(* ------------------------------------------------------------------ *)
(** ** Model routing *)

Lemma is_installed_elem (name : option string) (installed : list string) :
  is_installed name installed = true ->
  exists n, name = Some n /\ n ∈ installed.
Proof.
  destruct name as [[|c n]|]; try discriminate. cbn.
  intros H%bool_decide_eq_true. eauto.
Qed.

Lemma pick_installed_elem (primary fallback : option string)
    (installed : list string) (chosen : string) :
  _pick_installed primary fallback installed = Some chosen ->
  chosen ∈ installed /\
  (primary = Some chosen /\ is_installed primary installed = true \/
   fallback = Some chosen /\ is_installed primary installed = false).
Proof.
  unfold _pick_installed.
  destruct (is_installed primary installed) eqn:Hp.
  - destruct (is_installed_elem _ _ Hp) as (n & -> & Hn). intros [= <-]. auto.
  - destruct (is_installed fallback installed) eqn:Hf; [|discriminate].
    destruct (is_installed_elem _ _ Hf) as (n & -> & Hn). intros [= <-]. auto.
Qed.

Lemma pick_installed_none (primary fallback : option string) (installed : list string) :
  _pick_installed primary fallback installed = None <->
  is_installed primary installed || is_installed fallback installed = false.
Proof.
  unfold _pick_installed.
  destruct (is_installed primary installed) eqn:Hp; cbn.
  - destruct (is_installed_elem _ _ Hp) as (n & -> & _). split; discriminate.
  - destruct (is_installed fallback installed) eqn:Hf; [|done].
    destruct (is_installed_elem _ _ Hf) as (n & -> & _). split; discriminate.
Qed.

(** The loop answers with the first rule that can serve, and with nothing
    when none can. *)
Lemma first_rule_spec (rs : list RouterRule) (task : string) (quality : Z)
    (messages installed : list string) :
  match first_rule rs task quality messages installed with
  | Some d =>
      exists before r after,
        rs = before ++ r :: after /\
        Forall (fun r' => can_serve r' task quality messages installed = false) before /\
        can_serve r task quality messages installed = true /\
        rule d = Some (rule_name r) /\ task_type d = task /\
        model d ∈ installed /\
        (model d = rule_model r \/ fallback_model r = Some (model d))
  | None =>
      Forall (fun r' => can_serve r' task quality messages installed = false) rs
  end.
Proof.
  induction rs as [|r rs IH]; cbn [first_rule]; [constructor|].
  unfold can_serve at 1 3.
  destruct (rule_applies r task quality messages) eqn:Happ; cbn [negb andb].
  - destruct (_pick_installed _ _ _) as [chosen|] eqn:Hpick.
    + exists [], r, rs. split; [done|]. split; [constructor|].
      destruct (pick_installed_elem _ _ _ _ Hpick) as [Hin Hwhich].
      unfold can_serve. rewrite Happ. cbn [andb].
      split; [|split; [done|split; [done|split; [done|]]]].
      * destruct (is_installed (Some (rule_model r)) installed
                  || is_installed (fallback_model r) installed) eqn:E; [done|].
        apply pick_installed_none in E. congruence.
      * cbn [model]. destruct Hwhich as [[[= ->] _] | [-> _]]; auto.
    + apply pick_installed_none in Hpick.
      destruct (first_rule rs task quality messages installed) as [d|].
      * destruct IH as (before & r0 & after & -> & Hb & Hrest).
        exists (r :: before), r0, after. split; [done|]. split; [|done].
        constructor; [|done]. unfold can_serve. by rewrite Happ.
      * constructor; [|done]. unfold can_serve. by rewrite Happ.
  - destruct (first_rule rs task quality messages installed) as [d|].
    + destruct IH as (before & r0 & after & -> & Hb & Hrest).
      exists (r :: before), r0, after. split; [done|]. split; [|done].
      constructor; [|done]. unfold can_serve. by rewrite Happ.
    + constructor; [|done]. unfold can_serve. by rewrite Happ.
Qed.

(** Without an override [choose_model] never names a model that is not
    installed, and it raises exactly when no model is installed at all.
    An override is taken as given, installed or not. *)
Theorem choose_model_installed_unless_overridden (config : RoutingConfig)
    (installed messages : list string) (requested_quality : option Z)
    (requested_task override_model : option string) :
  if truthy override_model then
    exists chosen d,
      override_model = Some chosen /\
      choose_model config installed messages requested_quality requested_task
        override_model = Returned d /\
      model d = chosen /\ rule d = Some "override"
  else
    match installed with
    | [] =>
        choose_model config installed messages requested_quality requested_task
          override_model
        = Raised (Exn RuntimeError "No installed Ollama models available")
    | _ :: _ =>
        exists d,
          choose_model config installed messages requested_quality requested_task
            override_model = Returned d /\
          model d ∈ installed /\
          task_type d = detect_task_type messages requested_task
    end.
Proof.
  destruct (truthy override_model) eqn:Hover.
  - destruct override_model as [[|c m]|]; try discriminate.
    eexists _, _. split; [reflexivity|]. split; [reflexivity|]. done.
  - assert (Hrun :
      choose_model config installed messages requested_quality requested_task
        override_model
      = let task := detect_task_type messages requested_task in
        let quality := from_option id (speed_quality config) requested_quality in
        match first_rule (rules config) task quality messages installed with
        | Some decision => Returned decision
        | None =>
            match _pick_installed (default_model config) None installed with
            | Some fallback =>
                Returned {| model := fallback; rule := Some "config_default";
                            task_type := task |}
            | None =>
                match installed with
                | first :: _ =>
                    Returned {| model := first; rule := Some "first_installed";
                                task_type := task |}
                | [] => Raised (Exn RuntimeError "No installed Ollama models available")
                end
            end
        end).
    { by destruct override_model as [[|c m]|]. }
    rewrite Hrun. cbv zeta. clear Hrun.
    pose proof (first_rule_spec (rules config)
                  (detect_task_type messages requested_task)
                  (from_option id (speed_quality config) requested_quality)
                  messages installed) as Hloop.
    destruct (first_rule _ _ _ _ _) as [d|].
    + destruct Hloop as (before & r & after & _ & _ & _ & _ & Htask & Hin & _).
      destruct installed as [|first rest]; [by apply elem_of_nil in Hin|]. eauto.
    + destruct (_pick_installed (default_model config) None installed)
        as [fallback|] eqn:Hpick.
      * destruct (pick_installed_elem _ _ _ _ Hpick) as [Hin _].
        destruct installed as [|first rest]; [by apply elem_of_nil in Hin|]. eauto.
      * destruct installed as [|first rest]; [done|].
        eexists. split; [reflexivity|]. split; [left | done].
Qed.

(** A decision that names a rule of the list is made by the first rule
    that applies to the task type, the quality and the keywords and has
    one of its two models installed; the configured default and the first
    installed model are used only when no rule can serve. *)
Theorem first_serving_rule_decides (config : RoutingConfig)
    (installed messages : list string) (requested_quality : option Z)
    (requested_task : option string) (d : RoutingDecision) :
  choose_model config installed messages requested_quality requested_task None
  = Returned d ->
  let task := detect_task_type messages requested_task in
  let quality := from_option id (speed_quality config) requested_quality in
  (exists before r after,
      rules config = before ++ r :: after /\
      Forall (fun r' => can_serve r' task quality messages installed = false) before /\
      can_serve r task quality messages installed = true /\
      rule d = Some (rule_name r) /\
      (model d = rule_model r \/ fallback_model r = Some (model d))) \/
  (Forall (fun r' => can_serve r' task quality messages installed = false)
     (rules config) /\
   (rule d = Some "config_default" /\ default_model config = Some (model d) \/
    rule d = Some "first_installed" /\ head installed = Some (model d))).
Proof.
  intros Hrun task quality. unfold choose_model in Hrun. cbv zeta in Hrun.
  fold task quality in Hrun.
  pose proof (first_rule_spec (rules config) task quality messages installed) as Hloop.
  destruct (first_rule _ _ _ _ _) as [d'|].
  - injection Hrun as ->. left.
    destruct Hloop as (before & r & after & Hrs & Hb & Hserve & Hrule & _ & _ & Hm).
    by exists before, r, after.
  - right. split; [done|].
    destruct (_pick_installed (default_model config) None installed)
      as [fallback|] eqn:Hpick.
    + injection Hrun as <-. left. split; [done|]. cbn [model].
      destruct (pick_installed_elem _ _ _ _ Hpick) as [_ [[-> _] | [[=] _]]]. done.
    + destruct installed as [|first rest]; [discriminate|].
      injection Hrun as <-. by right.
Qed.

(** The shipped rules at the default quality, with only [mistral]
    installed: no rule can serve and the first installed model is taken. *)
Lemma first_serving_rule_decides_witness :
  let d := {| model := "mistral"; rule := Some "first_installed"; task_type := "qa" |} in
  let task := detect_task_type ["hello"] None in
  let quality := from_option id (speed_quality default_routing) None in
  (exists before r after,
      rules default_routing = before ++ r :: after /\
      Forall (fun r' => can_serve r' task quality ["hello"] ["mistral"] = false) before /\
      can_serve r task quality ["hello"] ["mistral"] = true /\
      rule d = Some (rule_name r) /\
      (model d = rule_model r \/ fallback_model r = Some (model d))) \/
  (Forall (fun r' => can_serve r' task quality ["hello"] ["mistral"] = false)
     (rules default_routing) /\
   (rule d = Some "config_default" /\ default_model default_routing = Some (model d) \/
    rule d = Some "first_installed" /\ head ["mistral"] = Some (model d))).
Proof.
  apply (first_serving_rule_decides default_routing ["mistral"] ["hello"] None None).
  vm_compute. reflexivity.
Defined.

(* ------------------------------------------------------------------ *)
(** ** Gated endpoints *)

Lemma quiet_refl (w : World) : quiet w w.
Proof.
  unfold quiet. repeat split. exists []. split; [by rewrite app_nil_r | constructor].
Qed.

Lemma quiet_trans (w1 w2 w3 : World) : quiet w1 w2 -> quiet w2 w3 -> quiet w1 w3.
Proof.
  intros (Hf1 & Ha1 & Hh1 & s1 & Ht1 & Hs1) (Hf2 & Ha2 & Hh2 & s2 & Ht2 & Hs2).
  unfold quiet. repeat split; try congruence.
  exists (s1 ++ s2). split; [by rewrite Ht2, Ht1, app_assoc | by apply Forall_app].
Qed.

(** The outcome of the read check depends on the world through path
    resolution, the approval records and the clock only. *)
Lemma check_file_read_view (policy : PolicyEngine) (path : string) (w w' : World) :
  resolve w' = resolve w -> records w' = records w -> clock w' = clock w ->
  fst (check_file_read policy path w') = fst (check_file_read policy path w).
Proof.
  intros Hres Hrec Hclock. unfold check_file_read, _check_path.
  destruct (tools_enabled (config policy)); cbn [negb]; [|done].
  run_m.
  destruct (path_allowlisted_spec (resolve w (Path path))
              (file_read_allowlist (config policy)) w) as (b & Hb & Hiff).
  destruct (path_allowlisted_spec (resolve w' (Path path))
              (file_read_allowlist (config policy)) w') as (b' & Hb' & Hiff').
  rewrite Hb, Hb'.
  assert (Hsame : b' = b).
  { rewrite Hres in Hiff'. destruct b, b'; try done.
    - apply Hiff'. by apply Hiff.
    - symmetry. apply Hiff, Hiff'. done. }
  subst b'. destruct b; [done|]. rewrite !is_approved_run. cbn [fst snd].
  rewrite Hrec, Hclock.
  by destruct (scan_records _ _ _) as [[]|e].
Qed.

(** Whatever the read check answers, it leaves the world as it was up to
    a scan of the approval store. *)
Lemma check_file_read_frame (policy : PolicyEngine) (path : string)
    (w w1 : World) (r : outcome ApprovalDecision) :
  check_file_read policy path w = (r, w1) ->
  quiet w w1 /\ resolve w1 = resolve w /\ records w1 = records w /\
  clock w1 = clock w.
Proof.
  intros Hrun.
  destruct (evaluate_frame policy FileRead path w) as (r0 & w0 & Hrun0 & Hw).
  cbn [evaluate] in Hrun0. rewrite Hrun in Hrun0. injection Hrun0 as _ <-.
  destruct Hw as [-> | ->].
  - split; [apply quiet_refl | done].
  - split; [|done]. unfold quiet; simpl. repeat split.
    eexists. split; [reflexivity|]. repeat constructor. eauto.
Qed.

Lemma check_file_read_later (policy : PolicyEngine) (path : string)
    (w w1 wq : World) (r : outcome ApprovalDecision) :
  resolve w1 = resolve w -> records w1 = records w -> clock w1 = clock w ->
  check_file_read policy path w = (r, wq) ->
  exists wq', check_file_read policy path w1 = (r, wq').
Proof.
  intros Hres Hrec Hclock Hrun.
  pose proof (check_file_read_view policy path w w1 Hres Hrec Hclock) as Hview.
  rewrite Hrun in Hview. destruct (check_file_read policy path w1) as [r' wq'].
  simpl in Hview. subst r'. eauto.
Qed.

Section endpoint_proofs.
Variable abspath : string -> string.
Variable exec_source : string -> M namespace_entry.

(** The loop of checks goes through when the check allows each path, and
    touches nothing. *)
Lemma check_paths_all_allowed (policy : PolicyEngine) (paths : list string)
    (w : World) :
  (forall p, p ∈ paths ->
     exists d w1, check_file_read policy p w = (Returned d, w1) /\
                  allowed d = true) ->
  exists w', check_paths policy paths w = (Returned None, w') /\ quiet w w'.
Proof.
  revert w. induction paths as [|p paths IH]; intros w Hall.
  - exists w. split; [done | apply quiet_refl].
  - destruct (Hall p ltac:(left)) as (d & w1 & Hrun & Hd).
    destruct (check_file_read_frame _ _ _ _ _ Hrun) as (Hq & Hres & Hrec & Hclock).
    destruct (IH w1) as (w' & Hrest & Hq').
    { intros q Hin. destruct (Hall q ltac:(by right)) as (dq & wq & Hrunq & Hdq).
      destruct (check_file_read_later policy q w w1 wq _ Hres Hrec Hclock Hrunq)
        as [wq' Hlater].
      eauto. }
    exists w'. split; [|by eapply quiet_trans].
    cbn [check_paths]. rewrite (bind_run _ _ _ _ _ Hrun). by rewrite Hd.
Qed.

(** The loop of checks ends at the first path whose check does not allow:
    with that decision when the check refuses, with its exception when it
    raises.  The paths after it are not looked at. *)
Lemma check_paths_stops (policy : PolicyEngine) (before : list string)
    (p : string) (after : list string) (w w1 : World)
    (r : outcome ApprovalDecision) :
  (forall q, q ∈ before ->
     exists d wq, check_file_read policy q w = (Returned d, wq) /\
                  allowed d = true) ->
  check_file_read policy p w = (r, w1) ->
  match r with Returned d => allowed d = false | Raised _ => True end ->
  exists w',
    check_paths policy (before ++ p :: after) w
    = (match r with
       | Returned d => Returned (Some d)
       | Raised e => Raised e
       end, w') /\
    quiet w w'.
Proof.
  revert w w1. induction before as [|q0 before IH]; intros w w1 Hall Hrun Hr.
  - destruct (check_file_read_frame _ _ _ _ _ Hrun) as (Hq & _).
    exists w1. split; [|done]. cbn [app check_paths]. destruct r as [d|e].
    + rewrite (bind_run _ _ _ _ _ Hrun). by rewrite Hr.
    + by rewrite (bind_raised _ _ _ _ _ Hrun).
  - destruct (Hall q0 ltac:(left)) as (d0 & w0 & Hrun0 & Hd0).
    destruct (check_file_read_frame _ _ _ _ _ Hrun0) as (Hq & Hres & Hrec & Hclock).
    destruct (check_file_read_later policy p w w0 w1 _ Hres Hrec Hclock Hrun)
      as [w1' Hrun'].
    destruct (IH w0 w1') as (w' & Hrest & Hq'); [|done|done|].
    { intros q Hin. destruct (Hall q ltac:(by right)) as (dq & wq & Hrunq & Hdq).
      destruct (check_file_read_later policy q w w0 wq _ Hres Hrec Hclock Hrunq)
        as [wq' Hlater].
      eauto. }
    exists w'. split; [|by eapply quiet_trans].
    cbn [app check_paths]. rewrite (bind_run _ _ _ _ _ Hrun0). by rewrite Hd0.
Qed.

Lemma log_event_run (logger : AuditLogger) (event : pydict) (w : World) :
  log_event logger event w =
  match audit_line logger w event with
  | Returned line => (Returned tt, logged w event line)
  | Raised e =>
      (Raised e,
       with_heap w (<[fresh (dom (heap w)) := stamped w event]> (heap w)))
  end.
Proof.
  exact (audit_log_run {| policy := {| config := locked_config |};
                          audit := logger; rag := no_rag |} event w).
Qed.

(** The [/rag/ingest] endpoint checks the paths in order before it ingests
    any.  With retrieval switched off it answers 403 without a check.
    With retrieval on, the first sanitised path whose read check does not
    return an allowing decision settles the request: when the check
    refuses it, the answer is 403 with that decision, and when the check
    raises, so does the endpoint; in both cases nothing but scans of the
    approval store happened up to then: the index was not called and no
    audit line was written.  When the check allows every path, the index
    is called once with all of them, and when it returns, one audit line
    saying "allowed" is written and the index's answer is the reply. *)
Theorem rag_endpoint_checks_every_path (state : AppState)
    (request_paths : list string) (current : AppConfig) (w w0 : World) :
  config_store_load state w = (Returned current, w0) ->
  let policy := {| config := permissions current |} in
  let paths := map abspath request_paths in
  let event := [("tool", VStr "rag_ingest"); ("paths", VList (map VStr paths));
                ("decision", VStr "allowed")] in
  let passes (p : string) :=
    exists d w1, check_file_read policy p w0 = (Returned d, w1) /\
                 allowed d = true in
  (enabled (config_rag current) = false ->
   rag_ingest_endpoint abspath state request_paths w
   = (Returned (HTTPException 403 (VStr "RAG disabled")), w0)) /\
  (enabled (config_rag current) = true ->
   forall before p after d w1,
     paths = before ++ p :: after ->
     (forall q, q ∈ before -> passes q) ->
     check_file_read policy p w0 = (Returned d, w1) ->
     allowed d = false ->
     exists w',
       rag_ingest_endpoint abspath state request_paths w
       = (Returned (HTTPException 403 (model_dump d)), w') /\
       quiet w0 w') /\
  (enabled (config_rag current) = true ->
   forall before p after e w1,
     paths = before ++ p :: after ->
     (forall q, q ∈ before -> passes q) ->
     check_file_read policy p w0 = (Raised e, w1) ->
     exists w',
       rag_ingest_endpoint abspath state request_paths w = (Raised e, w') /\
       quiet w0 w') /\
  (enabled (config_rag current) = true ->
   (forall p, p ∈ paths -> passes p) ->
   exists w1,
     quiet w0 w1 /\
     forall result w2,
       ingest_paths (state_rag state) paths w1 = (Returned result, w2) ->
       exists line,
         audit_line (state_audit state) w2 event = Returned line /\
         rag_ingest_endpoint abspath state request_paths w
         = (Returned (Reply (VDict result)),
            logged (snd (emit (ERagIngest paths) w2)) event line)).
Proof.
  intros Hload policy paths event passes.
  assert (Hrest : rag_ingest_endpoint abspath state request_paths w
    = (if negb (enabled (config_rag current))
       then mret (HTTPException 403 (VStr "RAG disabled"))
       else
         denied ← check_paths policy paths;
         match denied with
         | Some decision => mret (HTTPException 403 (model_dump decision))
         | None =>
             result ← ingest_paths (state_rag state) paths;
             _ ← emit (ERagIngest paths);
             _ ← log_event (state_audit state) event;
             mret (Reply (VDict result))
         end) w0).
  { unfold rag_ingest_endpoint, sanitize_paths. unfold mbind at 1, M_bind at 1.
    by rewrite Hload. }
  rewrite Hrest. clear Hrest.
  split; [|split; [|split]].
  - intros Hen. rewrite Hen. reflexivity.
  - intros Hen before p after d w1 Hpaths Hbefore Hcheck Hdenied.
    rewrite Hen. cbn [negb].
    destruct (check_paths_stops policy before p after w0 w1 _ Hbefore Hcheck Hdenied)
      as (w' & Hrun & Hq).
    exists w'. split; [|exact Hq].
    unfold mbind at 1, M_bind at 1. by rewrite Hpaths, Hrun.
  - intros Hen before p after e w1 Hpaths Hbefore Hcheck.
    rewrite Hen. cbn [negb].
    destruct (check_paths_stops policy before p after w0 w1 _ Hbefore Hcheck I)
      as (w' & Hrun & Hq).
    exists w'. split; [|exact Hq].
    unfold mbind at 1, M_bind at 1. by rewrite Hpaths, Hrun.
  - intros Hen Hall. rewrite Hen. cbn [negb].
    destruct (check_paths_all_allowed policy paths w0 Hall) as (w1 & Hrun & Hq).
    exists w1. split; [exact Hq|]. intros result w2 Hingest.
    assert (Hser : serializable (VDict event) = true).
    { simpl. rewrite andb_true_r. clear.
      induction paths as [|p ps IH]; [done | exact IH]. }
    destruct (audit_line_of_strings (state_audit state) w2 event Hser)
      as [line Hline].
    exists line. split; [exact Hline|].
    unfold mbind at 1, M_bind at 1. rewrite Hrun.
    unfold mbind at 1, M_bind at 1. rewrite Hingest.
    unfold mbind at 1, M_bind at 1.
    change (emit (ERagIngest paths) w2)
      with (Returned tt, snd (emit (ERagIngest paths) w2)) at 1.
    cbv beta iota.
    unfold mbind at 1, M_bind at 1. rewrite log_event_run.
    rewrite (audit_line_clock (state_audit state) w2
               (snd (emit (ERagIngest paths) w2)) event eq_refl), Hline.
    reflexivity.
Qed.

(** The [/skills/run] endpoint runs a skill only behind the skill check,
    and audits what it ran, not how it went.  When the check refuses, the
    answer is 403 with the decision, the manager is not called and no
    audit line is written: a refusal leaves no trace in the audit file.
    When it allows, whatever [ToolResult] the manager returns — also a
    failure such as an unknown skill — is answered as it is, after one
    audit line that says "allowed". *)
Theorem run_skill_gate (state : AppState) (skill_name : string)
    (args : option pydict) (current : AppConfig) (d : ApprovalDecision)
    (w w0 w1 : World) :
  skill_name <> EmptyString ->
  config_store_load state w = (Returned current, w0) ->
  check_skill {| config := permissions current |} skill_name w0 = (Returned d, w1) ->
  let payload := {| skill := Some skill_name; input := args |} in
  let event := [("tool", VStr "skill"); ("skill", VStr skill_name);
                ("decision", VStr "allowed")] in
  (allowed d = false ->
   run_skill exec_source state payload w
   = (Returned (HTTPException 403 (model_dump d)), w1) /\ quiet w0 w1) /\
  (allowed d = true ->
   forall r w2,
     run exec_source (skill_manager state) skill_name (from_option id [] args) w1
     = (Returned r, w2) ->
     exists line,
       audit_line (state_audit state) w2 event = Returned line /\
       run_skill exec_source state payload w
       = (Returned (Reply (tool_result_dump r)), logged w2 event line)).
Proof.
  intros Hname Hload Hcheck payload event.
  assert (Hrest : run_skill exec_source state payload w
    = (if negb (allowed d) then mret (HTTPException 403 (model_dump d))
       else
         result ← run exec_source (skill_manager state) skill_name
                    (from_option id [] args);
         _ ← log_event (state_audit state) event;
         mret (Reply (tool_result_dump result))) w1).
  { unfold run_skill, payload. cbn [skill input].
    destruct skill_name as [|c s]; [done|].
    unfold mbind at 1, M_bind at 1. rewrite Hload.
    unfold mbind at 1, M_bind at 1. by rewrite Hcheck. }
  rewrite Hrest. clear Hrest. split.
  - intros Hd. rewrite Hd. split; [reflexivity|].
    exact (evaluate_quiet _ Skill skill_name w0 w1 d Hcheck).
  - intros Hd r w2 Hrun. rewrite Hd. cbn [negb].
    destruct (audit_line_of_strings (state_audit state) w2 event eq_refl)
      as [line Hline].
    exists line. split; [exact Hline|].
    unfold mbind at 1, M_bind at 1. rewrite Hrun.
    unfold mbind at 1, M_bind at 1. by rewrite log_event_run, Hline.
Qed.
End endpoint_proofs.

(** Tools on and [/data] allowlisted for reading: [/data/a.txt] passes,
    [/etc/shadow] after it is refused, and the request is answered 403
    with the decision on [/etc/shadow], nothing having been ingested.
    With [/data/a.txt] alone the index is called and one audit line
    written. *)
Lemma rag_endpoint_checks_every_path_witness :
  (exists w',
     rag_ingest_endpoint id open_state ["/data/a.txt"; "/etc/shadow"] empty_world
     = (Returned (HTTPException 403
                    (model_dump {| allowed := false;
                                   reason := "Path not allowlisted";
                                   decision_scope := "file_read:/etc/shadow";
                                   requires_approval := true |})), w') /\
     quiet empty_world w') /\
  (exists line w',
     rag_ingest_endpoint id open_state ["/data/a.txt"] empty_world
     = (Returned (Reply (VDict [])), w') /\
     audit_file w' = [line]).
Proof.
  set (current := {| permissions := data_config; config_rag := small_rag |}).
  set (pass := {| allowed := true; reason := "Allowlisted path";
                  decision_scope := "file_read:/data/a.txt";
                  requires_approval := false |}).
  set (refusal := {| allowed := false; reason := "Path not allowlisted";
                     decision_scope := "file_read:/etc/shadow";
                     requires_approval := true |}).
  set (scanned := snd (emit (ELedgerScan "file_read:/etc/shadow") empty_world)).
  assert (Hpass : forall q, q ∈ ["/data/a.txt"] ->
            exists d w1,
              check_file_read {| config := permissions current |} q empty_world
              = (Returned d, w1) /\ allowed d = true).
  { intros q ->%list_elem_of_singleton. exists pass, empty_world.
    split; reflexivity. }
  split.
  - destruct (rag_endpoint_checks_every_path id open_state
                ["/data/a.txt"; "/etc/shadow"] current
                empty_world empty_world eq_refl) as (_ & Hdenied & _).
    exact (Hdenied eq_refl ["/data/a.txt"] "/etc/shadow" [] refusal scanned
             eq_refl Hpass eq_refl eq_refl).
  - destruct (rag_endpoint_checks_every_path id open_state
                ["/data/a.txt"] current
                empty_world empty_world eq_refl) as (_ & _ & _ & Hallowed).
    destruct (Hallowed eq_refl Hpass) as (w1 & Hq & Hgo).
    destruct (Hgo [] w1 eq_refl) as (line & _ & Hrun).
    exists line. eexists. split; [exact Hrun|].
    destruct Hq as (_ & Haudit & _). cbn [logged audit_file emit snd].
    by rewrite Haudit.
Defined.

(** Tools on and [echo] enabled, but no skill file in place: the failure of
    the manager is answered as it is, after an audit line. *)
Lemma run_skill_gate_witness :
  exists line w',
    run_skill (exec_as Absent) open_state
      {| skill := Some "echo"; input := None |} empty_world
    = (Returned (Reply (tool_result_dump (failure "Skill entrypoint missing"))), w') /\
    audit_file w' = [line].
Proof.
  destruct (run_skill_gate (exec_as Absent) open_state "echo" None
              {| permissions := data_config; config_rag := small_rag |}
              _ empty_world empty_world _ ltac:(discriminate) eq_refl eq_refl)
    as (_ & Hallowed).
  destruct (Hallowed eq_refl (failure "Skill entrypoint missing") _ eq_refl)
    as (line & _ & Hrun).
  exists line. eexists. split; [exact Hrun | reflexivity].
Defined.

(* ------------------------------------------------------------------ *)
(** ** The two readers of a journal *)

Lemma rstrip_app (a b : string) :
  rstrip b <> EmptyString -> rstrip (a +:+ b) = a +:+ rstrip b.
Proof.
  intros Hb. induction a as [|c a IH]; [done|].
  rewrite !append_cons. cbn [rstrip]. rewrite IH.
  destruct (a +:+ rstrip b) eqn:E; [|done].
  destruct a; [|discriminate]. rewrite append_nil in E. done.
Qed.

Lemma pretty_N_go_app (x : N) (s : string) :
  pretty_N_go x s = pretty_N_go x EmptyString +:+ s.
Proof.
  revert s. induction (N.lt_wf_0 x) as [x _ IH]. intros s.
  destruct (decide (x = 0%N)) as [-> | Hx]; [by rewrite !pretty_N_go_0|].
  rewrite (pretty_N_go_step x s), (pretty_N_go_step x EmptyString) by lia.
  rewrite (IH (x `div` 10)%N) by (apply N.div_lt; lia).
  rewrite (IH (x `div` 10)%N ltac:(apply N.div_lt; lia) (String _ EmptyString)).
  by rewrite append_assoc.
Qed.

Lemma pretty_N_ends_solid (n : N) : ends_solid (pretty n).
Proof.
  unfold pretty, pretty_N. destruct (decide (n = 0%N)) as [-> | Hn].
  - by exists EmptyString, "0"%char.
  - rewrite pretty_N_go_step by lia. rewrite pretty_N_go_app.
    eexists _, _. split; [reflexivity|].
    destruct (pretty_digit (n `mod` 10)%N) as (Hd & _); [apply N.mod_lt; lia|].
    destruct (pretty_N_char _) as [[] [] [] [] [] [] [] []]; try discriminate; done.
Qed.

Lemma ends_solid_app (a b : string) : ends_solid b -> ends_solid (a +:+ b).
Proof.
  intros (t & c & -> & Hc). exists (a +:+ t), c. by rewrite append_assoc.
Qed.

Lemma json_dumps_ends_solid (v : pyvalue) (text : string) :
  json_dumps v = Returned text -> ends_solid text.
Proof.
  destruct v as [|b|n|s|items|entries|t]; cbn [json_dumps].
  - intros [= <-]. by exists "nul", "l"%char.
  - destruct b; intros [= <-]; [by exists "tru", "e"%char | by exists "fals", "e"%char].
  - intros [= <-]. destruct n as [|p|p].
    + by exists EmptyString, "0"%char.
    + change (pretty (Z.pos p)) with (pretty (N.pos p)). apply pretty_N_ends_solid.
    + change (pretty (Z.neg p)) with ("-" +:+ pretty (N.pos p)).
      apply ends_solid_app, pretty_N_ends_solid.
  - intros [= <-]. unfold json_string.
    exists (String dquote (json_escape s)), dquote. by rewrite append_cons.
  - destruct (dumps_items json_dumps items true) as [body|]; intros [= <-].
    apply ends_solid_app, ends_solid_app. by exists EmptyString, "]"%char.
  - destruct (dumps_entries json_dumps entries true) as [body|]; intros [= <-].
    apply ends_solid_app, ends_solid_app. by exists EmptyString, "}"%char.
  - discriminate.
Qed.

Lemma rstrip_solid (text : string) : ends_solid text -> rstrip text = text.
Proof.
  intros (t & c & -> & Hc). rewrite rstrip_app; cbn [rstrip]; by rewrite Hc.
Qed.

Lemma rstrip_feeds (c : ascii) :
  is_space c = false ->
  rstrip (String c newline) = String c EmptyString /\
  rstrip (String c (newline +:+ newline)) = String c EmptyString.
Proof.
  intros Hc.
  change (newline +:+ newline) with (String "010" (String "010" EmptyString)).
  unfold newline. cbn [rstrip]. change (is_space "010") with true. cbv iota.
  by rewrite Hc.
Qed.

Lemma rstrip_line (text : string) :
  ends_solid text ->
  rstrip (text +:+ newline) = text /\
  rstrip (text +:+ newline +:+ newline) = text.
Proof.
  intros (t & c & -> & Hc). destruct (rstrip_feeds c Hc) as [H1 H2].
  rewrite !append_assoc, !append_cons, !append_nil.
  rewrite !rstrip_app; rewrite ?H1, ?H2; done.
Qed.

Lemma solid_not_empty (text : string) : ends_solid text -> text <> EmptyString.
Proof. intros (t & c & -> & _). by destruct t. Qed.

(** Stripping a file of logged lines takes away the last line feed and
    nothing else. *)
Lemma strip_records (vs : list pyvalue) (v : pyvalue) (written : list string)
    (text : string) :
  Forall2 audit_record vs written -> json_dumps v = Returned text ->
  strip (joined (written ++ [text +:+ newline])) = joined written +:+ text /\
  strip (joined (written ++ [text +:+ newline]) +:+ newline) = joined written +:+ text.
Proof.
  intros Hrec Hv.
  pose proof (json_dumps_ends_solid v text Hv) as Hsolid.
  assert (Hjoin : joined (written ++ [text +:+ newline])
                  = joined written +:+ text +:+ newline).
  { unfold joined. rewrite foldr_app. cbn [foldr]. rewrite append_empty.
    clear. induction written as [|x l IH]; [done|]. cbn [foldr].
    by rewrite IH, append_assoc. }
  assert (Hl : forall tail, lstrip (joined written +:+ text +:+ tail)
                            = joined written +:+ text +:+ tail).
  { intros tail. destruct Hrec as [|v0 chunk vs0 written0 (t0 & Hv0 & ->) _].
    - cbn [joined foldr]. rewrite append_nil.
      destruct (json_dumps_head v text Hv) as (c & t & -> & Hc).
      rewrite append_cons. cbn [lstrip].
      pose proof (json_dumps_not_blank v _ Hv) as Hb. cbn in Hb.
      apply andb_false_iff in Hb as [Hb | Hb]; [by rewrite Hb|].
      unfold value_heads in Hc.
      repeat (apply elem_of_cons in Hc as [-> | Hc]; [done|]).
      by apply elem_of_nil in Hc.
    - cbn [joined foldr]. rewrite !append_assoc.
      destruct (json_dumps_head v0 t0 Hv0) as (c & t & -> & Hc).
      rewrite append_cons. cbn [lstrip]. unfold value_heads in Hc.
      repeat (apply elem_of_cons in Hc as [-> | Hc]; [done|]).
      by apply elem_of_nil in Hc. }
  destruct (rstrip_line text Hsolid) as [H1 H2].
  unfold strip. rewrite Hjoin. split.
  - rewrite Hl. rewrite rstrip_app; rewrite H1; [done | by apply solid_not_empty].
  - rewrite !append_assoc. rewrite Hl.
    rewrite rstrip_app; rewrite H2; [done | by apply solid_not_empty].
Qed.

Lemma splitlines_from_last (text : string) :
  all_chars printable text = true ->
  forall cur, text <> EmptyString \/ cur <> EmptyString ->
              splitlines_from text cur = [String.rev_app cur text].
Proof.
  induction text as [|c text IH]; intros Hp cur Hne.
  - destruct cur; [by destruct Hne|]. reflexivity.
  - cbn [all_chars] in Hp. apply andb_true_iff in Hp as [Hc Hp].
    cbn [splitlines_from]. rewrite (proj1 (printable_no_break c Hc)).
    rewrite IH; [done | done | by right].
Qed.

(** The lines of a file that begins with logged lines. *)
Lemma splitlines_records_app (vs : list pyvalue) (written : list string)
    (rest : string) :
  Forall2 audit_record vs written ->
  exists lines,
    splitlines (joined written +:+ rest) = lines ++ splitlines rest /\
    Forall2 (fun v line => json_dumps v = Returned line) vs lines.
Proof.
  induction 1 as [|v chunk vs written (text & Hv & ->) _ (lines & Hsplit & Hall)].
  - exists []. by rewrite append_nil.
  - exists (text :: lines). cbn [joined foldr]. rewrite !append_assoc.
    unfold splitlines at 1.
    rewrite splitlines_from_line by by eapply json_dumps_printable.
    fold (joined written). rewrite Hsplit. split; [done | by constructor].
Qed.

Lemma last_lines_one {A} (l : list A) (x : A) : last_lines 1 (l ++ [x]) = [x].
Proof.
  unfold last_lines, slice_from.
  rewrite bool_decide_eq_false_2 by done.
  change (- (1) <? 0) with true. cbv iota.
  rewrite length_app. cbn [length].
  replace (Z.to_nat (Z.of_nat (length l + 1) + - (1))) with (length l) by lia.
  by rewrite drop_app_length.
Qed.

Lemma read_jsonl_tail_run (path : PurePath) (tail : Z) (text : string) (w : World) :
  entry_at (files w) (resolve w path) = Some (File text) ->
  read_jsonl_tail path tail w =
  let w' := snd (emit (EReadText (resolve w path))
                   (snd (emit (EExists (resolve w path)) w))) in
  match jsonl_entries text tail with
  | Raised e => (Raised e, w')
  | Returned entries => (Returned entries, w')
  end.
Proof.
  intros Hfile. unfold read_jsonl_tail, path_exists, read_text. run_m. cbn.
  rewrite Hfile. cbn. rewrite Hfile. by destruct (jsonl_entries text tail).
Qed.

(** On a journal that holds logged lines only, the scheduler's reader and
    the endpoints' reader do the same and return the same: the last
    [tail] entries that were written. *)
Theorem readers_agree_on_logged_journal (path : PurePath) (tail : Z)
    (vs : list pyvalue) (written : list string) (w : World) :
  entry_at (files w) (resolve w path) = Some (File (joined written)) ->
  Forall2 audit_record vs written ->
  Forall (fun v => well_keyed v = true) vs ->
  read_jsonl_tail path tail w = read_tail path tail w /\
  fst (read_tail path tail w) = Returned (last_lines tail vs).
Proof.
  intros Hfile Hrec Hkeys.
  rewrite (read_jsonl_tail_run path tail _ w Hfile), (read_tail_run path tail _ w Hfile).
  cbv zeta.
  assert (Hend : tail_entries (joined written) tail = Returned (last_lines tail vs))
    by by apply tail_entries_records.
  assert (Hjson : jsonl_entries (joined written) tail = Returned (last_lines tail vs)).
  { unfold jsonl_entries. apply load_lines_records; [|by apply last_lines_all].
    apply last_lines_records.
    destruct written as [|chunk written' _] using rev_ind.
    - apply Forall2_nil_inv_r in Hrec as ->. constructor.
    - apply Forall2_app_inv_r in Hrec as (vs' & vs1 & Hrec' & Hlast & ->).
      apply Forall2_cons_inv_r in Hlast as (v & vs2 & (text & Hv & ->) & Hnil & ->).
      apply Forall2_nil_inv_r in Hnil as ->.
      rewrite (proj1 (strip_records vs' v written' text Hrec' Hv)).
      destruct (splitlines_records_app vs' written' text Hrec') as (lines & -> & Hall).
      apply Forall2_app; [done|].
      unfold splitlines.
      rewrite splitlines_from_last;
        [ by constructor
        | by eapply json_dumps_printable
        | left; by eapply solid_not_empty, json_dumps_ends_solid ]. }
  rewrite Hend, Hjson. done.
Qed.

Lemma readers_agree_on_logged_journal_witness :
  read_jsonl_tail (Path "/data/dream_journal.jsonl") 1
    (journal_of (joined ["[1, 2]" +:+ newline; "{}" +:+ newline]))
  = read_tail (Path "/data/dream_journal.jsonl") 1
      (journal_of (joined ["[1, 2]" +:+ newline; "{}" +:+ newline])) /\
  fst (read_tail (Path "/data/dream_journal.jsonl") 1
         (journal_of (joined ["[1, 2]" +:+ newline; "{}" +:+ newline])))
  = Returned (last_lines 1 [VList [VInt 1; VInt 2]; VDict []]).
Proof.
  apply (readers_agree_on_logged_journal (Path "/data/dream_journal.jsonl") 1
           [VList [VInt 1; VInt 2]; VDict []]
           ["[1, 2]" +:+ newline; "{}" +:+ newline]).
  - reflexivity.
  - repeat constructor; eexists; (split; [vm_compute; reflexivity | reflexivity]).
  - repeat constructor.
Defined.

(** One empty line at the end of a journal parts the two readers: asked
    for the last entry, the endpoints' reader selects the empty line and
    returns nothing, while the scheduler's reader, which strips the text
    first, returns the last entry written. *)
Theorem trailing_blank_line_parts_readers (path : PurePath)
    (vs : list pyvalue) (v : pyvalue) (written : list string) (text : string)
    (w : World) :
  entry_at (files w) (resolve w path)
  = Some (File (joined (written ++ [text +:+ newline]) +:+ newline)) ->
  Forall2 audit_record vs written ->
  json_dumps v = Returned text -> well_keyed v = true ->
  fst (read_tail path 1 w) = Returned [] /\
  fst (read_jsonl_tail path 1 w) = Returned [v].
Proof.
  intros Hfile Hrec Hv Hkey.
  rewrite (read_jsonl_tail_run path 1 _ w Hfile), (read_tail_run path 1 _ w Hfile).
  cbv zeta.
  assert (Hend : tail_entries (joined (written ++ [text +:+ newline]) +:+ newline) 1
                 = Returned []).
  { unfold tail_entries.
    assert (Hall : Forall2 audit_record (vs ++ [v]) (written ++ [text +:+ newline])).
    { apply Forall2_app; [done|]. constructor; [|constructor]. by exists text. }
    destruct (splitlines_records_app _ _ newline Hall) as (lines & -> & _).
    change (splitlines newline) with [EmptyString].
    by rewrite last_lines_one. }
  assert (Hjson : jsonl_entries (joined (written ++ [text +:+ newline]) +:+ newline) 1
                  = Returned [v]).
  { unfold jsonl_entries.
    rewrite (proj2 (strip_records vs v written text Hrec Hv)).
    destruct (splitlines_records_app vs written text Hrec) as (lines & -> & _).
    unfold splitlines at 1.
    rewrite splitlines_from_last;
      [ | by eapply json_dumps_printable
        | left; by eapply solid_not_empty, json_dumps_ends_solid ].
    cbn [String.rev_app]. rewrite last_lines_one. cbn [load_lines].
    by rewrite (json_dumps_not_blank v text Hv), (json_loads_dumps v text Hkey Hv). }
  by rewrite Hend, Hjson.
Qed.

Lemma trailing_blank_line_parts_readers_witness :
  fst (read_tail (Path "/data/dream_journal.jsonl") 1
         (journal_of (joined ([] ++ ["{}" +:+ newline]) +:+ newline)))
  = Returned [] /\
  fst (read_jsonl_tail (Path "/data/dream_journal.jsonl") 1
         (journal_of (joined ([] ++ ["{}" +:+ newline]) +:+ newline)))
  = Returned [VDict []].
Proof.
  apply (trailing_blank_line_parts_readers (Path "/data/dream_journal.jsonl")
           [] (VDict []) [] "{}").
  - reflexivity.
  - constructor.
  - reflexivity.
  - reflexivity.
Defined.

(* ------------------------------------------------------------------ *)
(** ** Numbering configuration diffs *)

Ltac in_list := repeat (first [by left | right]).

Lemma ascii_compare_N (a b : ascii) :
  Ascii.compare a b = N.compare (N_of_ascii a) (N_of_ascii b).
Proof. reflexivity. Qed.

Lemma string_compare_trans (a : string) :
  forall b c, String.compare a b <> Gt -> String.compare b c <> Gt ->
              String.compare a c <> Gt.
Proof.
  induction a as [|x a IH]; intros [|y b] [|z c]; cbn [String.compare]; try done.
  rewrite !ascii_compare_N.
  destruct (N.compare_spec (N_of_ascii x) (N_of_ascii y)) as [Hxy|Hxy|Hxy];
    destruct (N.compare_spec (N_of_ascii y) (N_of_ascii z)) as [Hyz|Hyz|Hyz];
    destruct (N.compare_spec (N_of_ascii x) (N_of_ascii z)) as [Hxz|Hxz|Hxz];
    try done; try lia.
  apply IH.
Qed.

Lemma leb_not_gt (a b : string) : String.leb a b = true <-> String.compare a b <> Gt.
Proof. unfold String.leb. by destruct (String.compare a b). Qed.

Lemma leb_trans (a b c : string) :
  String.leb a b = true -> String.leb b c = true -> String.leb a c = true.
Proof. rewrite !leb_not_gt. apply string_compare_trans. Qed.

Lemma elem_of_insert_sorted (x y : string) (l : list string) :
  y ∈ insert_sorted x l <-> y = x \/ y ∈ l.
Proof.
  induction l as [|z l IH]; cbn [insert_sorted].
  - rewrite list_elem_of_singleton. split; [by left | intros [H | H]; [done | by apply elem_of_nil in H]].
  - destruct (String.leb x z); rewrite !elem_of_cons; [done|]. rewrite IH. tauto.
Qed.

Lemma elem_of_sorted (y : string) (l : list string) : y ∈ sorted l <-> y ∈ l.
Proof.
  induction l as [|x l IH]; [done|]. cbn [sorted].
  rewrite elem_of_insert_sorted, elem_of_cons, IH. done.
Qed.

(** The last element of a sorted list sorts after all the others. *)
Lemma insert_sorted_last (x : string) (l : list string) :
  (forall m, last l = Some m -> forall y, y ∈ l -> String.leb y m = true) ->
  forall m, last (insert_sorted x l) = Some m ->
            forall y, y ∈ insert_sorted x l -> String.leb y m = true.
Proof.
  induction l as [|z l IH]; intros Hl m Hm y Hy; cbn [insert_sorted] in *.
  - injection Hm as <-. apply list_elem_of_singleton in Hy as ->.
    by destruct (String.leb_total x x).
  - destruct (String.leb x z) eqn:Hxz.
    + change (last (x :: z :: l)) with (last (z :: l)) in Hm.
      apply elem_of_cons in Hy as [-> | Hy]; [|by apply Hl].
      apply (leb_trans _ z); [done|]. apply Hl; [done | left].
    + assert (Hzx : String.leb z x = true)
        by (destruct (String.leb_total x z); congruence).
      assert (Hl' : forall m', last l = Some m' ->
                      forall y', y' ∈ l -> String.leb y' m' = true).
      { intros m' Hm' y' Hy'. apply Hl; [|by right].
        destruct l; [done | exact Hm']. }
      assert (Hm' : last (insert_sorted x l) = Some m).
      { destruct (insert_sorted x l) eqn:E; [|exact Hm].
        assert (x ∈ insert_sorted x l) by (apply elem_of_insert_sorted; by left).
        rewrite E in H. by apply elem_of_nil in H. }
      apply elem_of_cons in Hy as [-> | Hy]; [|by apply (IH Hl' m Hm')].
      assert (Hin : m ∈ insert_sorted x l).
      { clear -Hm'. revert Hm'. generalize (insert_sorted x l). intros k.
        induction k as [|a [|b k] IHk]; [done| |].
        - intros [= ->]. left.
        - intros Hk. right. by apply IHk. }
      apply elem_of_insert_sorted in Hin as [-> | Hin]; [done|].
      apply (leb_trans _ x); [done|].
      apply (IH Hl' m Hm'). apply elem_of_insert_sorted. by left.
Qed.

Lemma sorted_last (l : list string) (m : string) :
  last (sorted l) = Some m -> forall y, y ∈ sorted l -> String.leb y m = true.
Proof.
  revert m. induction l as [|x l IH]; intros m; [done|]. cbn [sorted].
  by apply insert_sorted_last.
Qed.

Lemma last_elem {A} (l : list A) (m : A) : last l = Some m -> m ∈ l.
Proof.
  induction l as [|a [|b k] IH]; [done| |].
  - intros [= ->]. left.
  - intros H. right. by apply IH.
Qed.

(** The name the loop looks at is the matching name that sorts last. *)
Lemma last_sorted_matching (names : list string) (name : string) :
  sorts_last names name ->
  last (sorted (filter (fun n => matches_diff n = true) names)) = Some name.
Proof.
  intros (Hin & Hmatch & Hmax).
  set (l := filter (fun n => matches_diff n = true) names).
  assert (Hl : name ∈ sorted l).
  { apply elem_of_sorted, list_elem_of_filter. done. }
  destruct (last (sorted l)) as [m|] eqn:Hm.
  - f_equal. apply String.leb_antisym.
    + apply last_elem, elem_of_sorted, list_elem_of_filter in Hm as Hm'.
      destruct Hm' as [Hmm Hmn]. by apply Hmax.
    + by apply (sorted_last l m).
  - destruct (sorted l); [by apply elem_of_nil in Hl|].
    by apply last_None in Hm.
Qed.

Lemma next_diff_id_run (self : ConfigStore) (w : World) (name : string) :
  sorts_last (listdir (files w) (resolve w (diff_dir self))) name ->
  _next_diff_id self w = (Returned (id_after name), w).
Proof.
  intros Hlast. unfold _next_diff_id. run_m.
  by rewrite (last_sorted_matching _ _ Hlast).
Qed.

Lemma In_count_from (count : nat) (start n : Z) :
  start <= n < start + Z.of_nat count -> In n (count_from count start).
Proof.
  revert start. induction count as [|count IH]; intros start Hn; [lia|].
  cbn [count_from]. destruct (decide (n = start)) as [-> | Hne]; [by left|].
  right. apply IH. lia.
Qed.

Lemma steps_ok : forallb step_ok (count_from (Z.to_nat 9999) 0) = true.
Proof. vm_compute. reflexivity. Qed.

(** Up to the identifier 9999 the next identifier is new.  When the
    matching name that sorts last is the one with the four-digit
    identifier [n], [_next_diff_id] returns [n + 1] in four digits, and no
    entry of the directory has the name of the diff with that
    identifier. *)
Theorem next_diff_id_is_fresh (self : ConfigStore) (w : World) (n : Z) :
  0 <= n < 9999 ->
  sorts_last (listdir (files w) (resolve w (diff_dir self)))
    (diff_name (format_04d n)) ->
  _next_diff_id self w = (Returned (format_04d (n + 1)), w) /\
  diff_name (format_04d (n + 1)) ∉ listdir (files w) (resolve w (diff_dir self)).
Proof.
  intros Hn Hlast.
  pose proof steps_ok as Hsteps. rewrite forallb_forall in Hsteps.
  specialize (Hsteps n).
  assert (Hin : In n (count_from (Z.to_nat 9999) 0)) by (apply In_count_from; lia).
  specialize (Hsteps Hin). unfold step_ok in Hsteps. cbv zeta in Hsteps.
  apply andb_true_iff in Hsteps as [Hsteps Hgt].
  apply andb_true_iff in Hsteps as [Hid Hmatch].
  apply String.eqb_eq in Hid. apply negb_true_iff in Hgt.
  split.
  - by rewrite (next_diff_id_run self w _ Hlast), Hid.
  - intros Hnew. destruct Hlast as (_ & _ & Hmax).
    by rewrite (Hmax _ Hnew Hmatch) in Hgt.
Qed.

Lemma next_diff_id_is_fresh_witness :
  _next_diff_id data_store two_diffs_world
  = (Returned (format_04d (2 + 1)), two_diffs_world) /\
  diff_name (format_04d (2 + 1))
    ∉ listdir (files two_diffs_world) (resolve two_diffs_world (diff_dir data_store)).
Proof.
  apply (next_diff_id_is_fresh data_store two_diffs_world 2); [lia|].
  split; [|split; [reflexivity|]].
  - vm_compute. in_list.
  - intros other Hin _. vm_compute in Hin.
    repeat (apply elem_of_cons in Hin as [-> | Hin]; [reflexivity|]).
    by apply elem_of_nil in Hin.
Defined.

(** After the identifier 9999 the numbering stands still.  The name with
    10000 sorts before the name with 9999, so once [diff_9999.json] sorts
    last, [_next_diff_id] returns 10000, and returns 10000 again when a
    diff with that identifier has been written: every further diff takes
    the name of the one before. *)
Theorem next_diff_id_sticks_at_10000 (self : ConfigStore) (w w' : World) :
  sorts_last (listdir (files w) (resolve w (diff_dir self))) "diff_9999.json" ->
  (forall name,
      name ∈ listdir (files w') (resolve w' (diff_dir self)) <->
      name = diff_name "10000" \/
      name ∈ listdir (files w) (resolve w (diff_dir self))) ->
  fst (_next_diff_id self w) = Returned "10000" /\
  fst (_next_diff_id self w') = Returned "10000".
Proof.
  intros Hlast Hmore. split.
  - by rewrite (next_diff_id_run self w _ Hlast).
  - rewrite (next_diff_id_run self w' "diff_9999.json"); [done|].
    destruct Hlast as (Hin & Hmatch & Hmax).
    split; [apply Hmore; by right|]. split; [done|].
    intros other [-> | Hother]%Hmore Hm; [reflexivity | by apply Hmax].
Qed.

Lemma next_diff_id_sticks_at_10000_witness :
  fst (_next_diff_id data_store full_world) = Returned "10000" /\
  fst (_next_diff_id data_store overfull_world) = Returned "10000".
Proof.
  apply (next_diff_id_sticks_at_10000 data_store full_world overfull_world).
  - split; [|split; [reflexivity|]].
    + vm_compute. in_list.
    + intros other Hin _. vm_compute in Hin.
      repeat (apply elem_of_cons in Hin as [-> | Hin]; [reflexivity|]).
      by apply elem_of_nil in Hin.
  - intros name. vm_compute. split.
    + intros Hin.
      repeat (apply elem_of_cons in Hin as [-> | Hin];
              [first [by left | right; in_list]|]).
      by apply elem_of_nil in Hin.
    + intros [-> | Hin]; [in_list|].
      repeat (apply elem_of_cons in Hin as [-> | Hin]; [in_list|]).
      by apply elem_of_nil in Hin.
Defined.
